(** * Whisper batch transcription scripts: a shallow embedding

    The repository holds two Python scripts,

    - [transru-fp16-del-txt-srt.py] (text and SRT subtitle output), and
    - [transcribefp16ruundedelete.py] (text output only),

    which walk an input tree, run every [.mp3] file through a Whisper
    model, write the transcript next to a mirrored path under the output
    root and remove the audio file.

    Conventions of the embedding:

    - a Python [str] is a [string]: the sequence of bytes of its UTF-8
      encoding, which is also what [open(..., 'w', encoding='utf-8')]
      puts on disk (POSIX, no newline translation);
    - a Python number is an [Int] (unbounded) or a [Float] (IEEE-754
      binary64, through the executable specification [SpecFloat]);
    - exceptions are values of [exn]; code that can raise returns a
      [result]; code that touches the file system or the console threads a
      [world] and keeps every change made before an exception;
    - [os.path] is [posixpath]. *)

From Stdlib Require Import ZArith Lia Bool List Ascii String.
From Stdlib Require Import Floats.SpecFloat.
From stdpp Require Import base gmap strings list.

Local Open Scope string_scope.
Local Open Scope Z_scope.

(** ** Exceptions and results *)

Inductive exn :=
| Exception (msg : string)
| ValueError (msg : string)
| OverflowError (msg : string)
| ZeroDivisionError (msg : string)
| OSError (msg : string) (path : string).

(** [str(e)] as the scripts interpolate it into their reports. *)
Definition exn_str (e : exn) : string :=
  match e with
  | Exception m | ValueError m | OverflowError m | ZeroDivisionError m => m
  | OSError m p => m +:+ ": '" +:+ p +:+ "'"
  end.

Inductive result (A : Type) :=
| Ok (a : A)
| Raise (e : exn).
Arguments Ok {A} a.
Arguments Raise {A} e.

Definition rbind {A B} (r : result A) (k : A -> result B) : result B :=
  match r with
  | Ok a => k a
  | Raise e => Raise e
  end.

Declare Scope result_scope.
Delimit Scope result_scope with result.
Notation "'let?' x := r 'in' k" := (rbind r (fun x => k))
  (at level 10, x pattern, r at level 100, k at level 200) : result_scope.

(** ** Strings *)

Module Str.

Definition chr (n : Z) : ascii := ascii_of_N (Z.to_N n).
Definition ord (c : ascii) : Z := Z.of_N (N_of_ascii c).

Definition newline : string := String (chr 10) "".

Definition is_digit (c : ascii) : bool :=
  (48 <=? ord c) && (ord c <=? 57).

(** Decimal digits of a non-negative integer, most significant first. *)
Fixpoint dec (fuel : nat) (n : Z) : string :=
  match fuel with
  | O => ""
  | S fuel' =>
      (if n <? 10 then "" else dec fuel' (n / 10))
        +:+ String (chr (48 + n mod 10)) ""
  end.

Definition digits (n : Z) : string := dec (S (Z.to_nat (Z.log2 n))) n.

(** [str(n)] for a Python [int]. *)
Definition of_int (n : Z) : string :=
  if n <? 0 then "-" +:+ digits (- n) else digits n.

Fixpoint zeros (n : nat) : string :=
  match n with
  | O => ""
  | S n' => String "0" (zeros n')
  end.

(** [format(n, '0<w>')] for a Python [int]: zeros go between the sign
    and the digits until the whole text has [w] characters; a longer
    number is left as it is. *)
Definition format_int (w : nat) (n : Z) : string :=
  if n <? 0
  then "-" +:+ zeros (w - 1 - String.length (digits (- n))) +:+ digits (- n)
  else zeros (w - String.length (digits n)) +:+ digits n.

(** [int(s)] restricted to plain digit strings. *)
Fixpoint parse_digits (acc : Z) (s : string) : option Z :=
  match s with
  | "" => Some acc
  | String c s' =>
      if is_digit c then parse_digits (10 * acc + (ord c - 48)) s' else None
  end.

Definition parse_int (s : string) : option Z :=
  match s with
  | "" => None
  | _ => parse_digits 0 s
  end.

(** [sep.join(parts)] *)
Fixpoint join (sep : string) (parts : list string) : string :=
  match parts with
  | [] => ""
  | [p] => p
  | p :: ps => p +:+ sep +:+ join sep ps
  end.

(** [s.split(c)] for a one-character separator. *)
Fixpoint split (c : ascii) (s : string) : list string :=
  match s with
  | "" => [""]
  | String a s' =>
      if Ascii.eqb a c then "" :: split c s'
      else match split c s' with
           | [] => [String a ""]
           | p :: ps => String a p :: ps
           end
  end.

(** [s.replace(a, b)] for one-character [a] and [b]. *)
Fixpoint replace (a b : ascii) (s : string) : string :=
  match s with
  | "" => ""
  | String c s' => String (if Ascii.eqb c a then b else c) (replace a b s')
  end.

Fixpoint startswith (s p : string) : bool :=
  match p, s with
  | "", _ => true
  | String a p', String b s' => Ascii.eqb a b && startswith s' p'
  | String _ _, "" => false
  end.

Definition endswith (s p : string) : bool :=
  startswith (String.rev s) (String.rev p).

Fixpoint contains (c : ascii) (s : string) : bool :=
  match s with
  | "" => false
  | String a s' => Ascii.eqb a c || contains c s'
  end.

(** [str.lower] on the ASCII letters.  The other cased code points have
    lower-case forms outside ASCII, so the test [endswith('.mp3')] made
    on the result sees the same answer. *)
Definition lower_char (c : ascii) : ascii :=
  if (65 <=? ord c) && (ord c <=? 90) then chr (ord c + 32) else c.

Fixpoint lower (s : string) : string :=
  match s with
  | "" => ""
  | String c s' => String (lower_char c) (lower s')
  end.

(** The white space of [str.isspace], as UTF-8 sequences: U+0009..U+000D,
    U+001C..U+0020, U+0085, U+00A0, U+1680, U+2000..U+200A, U+2028,
    U+2029, U+202F, U+205F and U+3000. *)
Definition ascii_space (c : ascii) : bool :=
  let n := ord c in
  ((9 <=? n) && (n <=? 13)) || ((28 <=? n) && (n <=? 32)).

Definition space3 (a b c : Z) : bool :=
  ((a =? 225) && (b =? 154) && (c =? 128))
  || ((a =? 226) && (b =? 128)
      && (((128 <=? c) && (c <=? 138)) || (c =? 168) || (c =? 169) || (c =? 175)))
  || ((a =? 226) && (b =? 129) && (c =? 159))
  || ((a =? 227) && (b =? 128) && (c =? 128)).

Definition space2 (a b : Z) : bool :=
  (a =? 194) && ((b =? 133) || (b =? 160)).

(** Drop one leading white-space character, if there is one. *)
Definition drop_space (s : string) : option string :=
  match s with
  | String a s1 =>
      if ascii_space a then Some s1
      else match s1 with
           | String b s2 =>
               if space2 (ord a) (ord b) then Some s2
               else match s2 with
                    | String c s3 =>
                        if space3 (ord a) (ord b) (ord c) then Some s3 else None
                    | "" => None
                    end
           | "" => None
           end
  | "" => None
  end.

(** The same from the end, on the reversed text. *)
Definition drop_space_rev (s : string) : option string :=
  match s with
  | String c s1 =>
      if ascii_space c then Some s1
      else match s1 with
           | String b s2 =>
               if space2 (ord b) (ord c) then Some s2
               else match s2 with
                    | String a s3 =>
                        if space3 (ord a) (ord b) (ord c) then Some s3 else None
                    | "" => None
                    end
           | "" => None
           end
  | "" => None
  end.

Fixpoint drop_while (fuel : nat) (drop : string -> option string)
         (s : string) : string :=
  match fuel with
  | O => s
  | S fuel' =>
      match drop s with
      | Some s' => drop_while fuel' drop s'
      | None => s
      end
  end.

Definition lstrip (s : string) : string :=
  drop_while (String.length s) drop_space s.

Definition rstrip (s : string) : string :=
  String.rev (drop_while (String.length s) drop_space_rev (String.rev s)).

(** [s.strip()] *)
Definition strip (s : string) : string := rstrip (lstrip s).

End Str.

(** ** IEEE-754 binary64, the Python [float] *)

Module Binary64.

Definition prec : Z := 53.
Definition emax : Z := 1024.

Abbreviation float := spec_float.

Definition add : float -> float -> float := SFadd prec emax.
Definition sub : float -> float -> float := SFsub prec emax.
Definition mul : float -> float -> float := SFmul prec emax.
Definition div : float -> float -> float := SFdiv prec emax.
Definition ltb : float -> float -> bool := SFltb.

(** The double nearest to the integer [m * 2^e] (ties to even). *)
Definition normalize (m e : Z) (szero : bool) : float :=
  binary_normalize prec emax m e szero.

Definition of_Z (z : Z) : float := normalize z 0 false.

Definition zero : float := S754_zero false.
Definition one : float := of_Z 1.
Definition half : float := normalize 1 (-1) false.

(** The double a decimal literal [n / 10^k] denotes, for [n] and [10^k]
    below [2^53]. *)
Definition literal (n : Z) (k : Z) : float := div (of_Z n) (of_Z (10 ^ k)).

(** C's [x == 0.0] *)
Definition is_zero (x : float) : bool :=
  match x with
  | S754_zero _ => true
  | _ => false
  end.

Definition is_finite (x : float) : bool :=
  match x with
  | S754_zero _ | S754_finite _ _ _ => true
  | _ => false
  end.

Definition sign_bit (x : float) : bool :=
  match x with
  | S754_zero s | S754_infinity s | S754_finite s _ _ => s
  | S754_nan => false
  end.

(** C's [copysign(0.0, y)] *)
Definition copysign_zero (y : float) : float := S754_zero (sign_bit y).

(** C's [fmod]: the remainder of the truncated quotient, computed
    without rounding; it carries the sign of [x]. *)
Definition fmod (x y : float) : float :=
  match x, y with
  | S754_nan, _ | _, S754_nan => S754_nan
  | S754_infinity _, _ => S754_nan
  | _, S754_zero _ => S754_nan
  | S754_zero _, _ => x
  | S754_finite _ _ _, S754_infinity _ => x
  | S754_finite sx mx ex, S754_finite _ my ey =>
      let e := Z.min ex ey in
      let r := (Zpos mx * 2 ^ (ex - e)) mod (Zpos my * 2 ^ (ey - e)) in
      normalize (cond_Zopp sx r) e sx
  end.

(** C's [floor] *)
Definition floor (x : float) : float :=
  match x with
  | S754_finite s m e =>
      if 0 <=? e then x
      else normalize (cond_Zopp s (Zpos m) / 2 ^ (- e)) 0 s
  | _ => x
  end.

(** The integer part, rounding towards zero, for a finite double. *)
Definition trunc (x : float) : Z :=
  match x with
  | S754_finite s m e =>
      cond_Zopp s (if 0 <=? e then Zpos m * 2 ^ e else Zpos m / 2 ^ (- e))
  | _ => 0
  end.

(** CPython's [_float_div_mod] ([Objects/floatobject.c]), called with a
    divisor that is not zero; the result is [(floordiv, mod)]. *)
Definition float_div_mod (vx wx : float) : float * float :=
  let mod0 := fmod vx wx in
  let div0 := div (sub vx mod0) wx in
  let '(mod1, div1) :=
    if negb (is_zero mod0) then
      if xorb (ltb wx zero) (ltb mod0 zero)
      then (add mod0 wx, sub div0 one)
      else (mod0, div0)
    else (copysign_zero wx, div0) in
  let floordiv :=
    if negb (is_zero div1) then
      let fl := floor div1 in
      if ltb half (sub div1 fl) then add fl one else fl
    else copysign_zero (div vx wx) in
  (floordiv, mod1).

(** CPython's [float_rem], called with a divisor that is not zero. *)
Definition float_rem (vx wx : float) : float :=
  let mod0 := fmod vx wx in
  if negb (is_zero mod0) then
    if xorb (ltb wx zero) (ltb mod0 zero) then add mod0 wx else mod0
  else copysign_zero wx.

(** *** Values and validity, for the statements about doubles *)

(** [1.0] counted in units of the smallest subnormal, [2^-1074]: every
    finite double is an integer number of these units. *)
Definition U : Z := 2 ^ 1074.

(** The value of a finite double in those units. *)
Definition scaled (x : float) : Z :=
  match x with
  | S754_finite s m e => cond_Zopp s (Zpos m * 2 ^ (e + 1074))
  | _ => 0
  end.

(** A positive finite double in canonical form. *)
Definition posfin (x : float) : Prop :=
  match x with
  | S754_finite false m e => bounded 53 1024 m e = true
  | _ => False
  end.

(** A zero or a positive finite double: a finite [x] with [x >= 0]. *)
Definition nonneg (x : float) : Prop :=
  match x with
  | S754_zero _ => True
  | S754_finite false m e => bounded 53 1024 m e = true
  | _ => False
  end.

(** [fexp] of [SpecFloat] at binary64: the exponent of the grid on which
    numbers of magnitude [2^e] are rounded. *)
Definition fexp64 (e : Z) : Z := Z.max (e - 53) (-1074).

(** The second half of [binary_round_aux]: renormalise the rounded
    mantissa and detect overflow. *)
Definition pack (sx : bool) (d E : Z) : float :=
  let '(mrs, e) := shr_fexp 53 1024 d E loc_Exact in
  match shr_m mrs with
  | Z0 => S754_zero sx
  | Zpos m => if e <=? 1024 - 53 then S754_finite sx m e else S754_infinity sx
  | Zneg _ => S754_nan
  end.

(** Some doubles the proofs compare with: [2^53], [2^1023], the largest
    finite double, and the doubles just below [1.0] and [1000.0]. *)
Definition two53 : float := S754_finite false 4503599627370496 1.
Definition two1023 : float := S754_finite false 4503599627370496 971.
Definition max_float : float := S754_finite false 9007199254740991 971.
Definition pred_one : float := S754_finite false 9007199254740991 (-53).
Definition pred_1000 : float := S754_finite false 8796093022207999 (-43).

End Binary64.

(** ** Python numbers: [int] and [float] with the operators of the scripts *)

Inductive number :=
| Int (z : Z)
| Float (f : spec_float).

Module Num.
Import Binary64.
Local Open Scope result_scope.

(** [float(n)] for an [int], as the mixed operators apply it. *)
Definition int_to_float (z : Z) : result float :=
  match of_Z z with
  | S754_infinity _ => Raise (OverflowError "int too large to convert to float")
  | f => Ok f
  end.

Definition to_float (a : number) : result float :=
  match a with
  | Int z => int_to_float z
  | Float f => Ok f
  end.

(** [a // b] *)
Definition floordiv (a b : number) : result number :=
  match a, b with
  | Int x, Int y =>
      if y =? 0 then Raise (ZeroDivisionError "integer division or modulo by zero")
      else Ok (Int (x / y))
  | _, _ =>
      let? x := to_float a in
      let? y := to_float b in
      if is_zero y then Raise (ZeroDivisionError "float floor division by zero")
      else Ok (Float (fst (float_div_mod x y)))
  end.

(** [a % b] *)
Definition modulo (a b : number) : result number :=
  match a, b with
  | Int x, Int y =>
      if y =? 0 then Raise (ZeroDivisionError "integer division or modulo by zero")
      else Ok (Int (x mod y))
  | _, _ =>
      let? x := to_float a in
      let? y := to_float b in
      if is_zero y then Raise (ZeroDivisionError "float modulo")
      else Ok (Float (float_rem x y))
  end.

(** [a - b] *)
Definition sub (a b : number) : result number :=
  match a, b with
  | Int x, Int y => Ok (Int (x - y))
  | _, _ =>
      let? x := to_float a in
      let? y := to_float b in
      Ok (Float (Binary64.sub x y))
  end.

(** [a * b] *)
Definition mul (a b : number) : result number :=
  match a, b with
  | Int x, Int y => Ok (Int (x * y))
  | _, _ =>
      let? x := to_float a in
      let? y := to_float b in
      Ok (Float (Binary64.mul x y))
  end.

(** [int(a)] *)
Definition int (a : number) : result Z :=
  match a with
  | Int z => Ok z
  | Float S754_nan => Raise (ValueError "cannot convert float NaN to integer")
  | Float (S754_infinity _) =>
      Raise (OverflowError "cannot convert float infinity to integer")
  | Float f => Ok (trunc f)
  end.

(** *** What the statements about [format_timestamp] speak of *)

(** A finite number that is not negative. *)
Definition nonneg (a : number) : Prop :=
  match a with
  | Int z => 0 <= z
  | Float f => Binary64.nonneg f
  end.

(** The value in units of [2^-1074], so that an [int] and a [float] are
    compared exactly, as Python compares them. *)
Definition scaled (a : number) : Z :=
  match a with
  | Int z => z * U
  | Float f => Binary64.scaled f
  end.

(** The integer part of a non-negative number. *)
Definition whole (a : number) : Z := scaled a / U.

(** [int(seconds // 3600)] as the interpreter computes it. *)
Definition hours (a : number) : Z :=
  match a with
  | Int z => z / 3600
  | Float f => trunc (fst (float_div_mod f (of_Z 3600)))
  end.

(** [int((seconds - int(seconds)) * 1000)] as the interpreter computes it:
    the integer part of the double nearest to the product. *)
Definition millis (a : number) : Z :=
  match a with
  | Int z => 0
  | Float f => trunc (Binary64.mul (Binary64.sub f (of_Z (trunc f))) (of_Z 1000))
  end.

End Num.

(** ** The subtitle script, [transru-fp16-del-txt-srt.py] *)

Section FormatTimestamp.
Local Open Scope result_scope.

(** [format_timestamp(seconds)], lines 5-13. *)
Definition format_timestamp (seconds : number) : result string :=
  let? h := Num.floordiv seconds (Int 3600) in
  let? hours := Num.int h in
  let? r := Num.modulo seconds (Int 3600) in
  let? m := Num.floordiv r (Int 60) in
  let? minutes := Num.int m in
  let? s := Num.modulo seconds (Int 60) in
  let? secs := Num.int s in
  let? whole := Num.int seconds in
  let? frac := Num.sub seconds (Int whole) in
  let? ms := Num.mul frac (Int 1000) in
  let? milliseconds := Num.int ms in
  Ok (Str.format_int 2 hours +:+ ":" +:+ Str.format_int 2 minutes +:+ ":"
      +:+ Str.format_int 2 secs +:+ "," +:+ Str.format_int 3 milliseconds).

End FormatTimestamp.

(** ** [posixpath] *)

Module Path.

Definition sep : ascii := "/"%char.
Definition extsep : ascii := "."%char.

(** [(s[:i], s[i+1:])] for [i = s.rfind(c)], when [c] occurs. *)
Fixpoint rsplit (c : ascii) (s : string) : option (string * string) :=
  match s with
  | "" => None
  | String a s' =>
      match rsplit c s' with
      | Some (h, t) => Some (String a h, t)
      | None => if Ascii.eqb a c then Some ("", s') else None
      end
  end.

Fixpoint all_char (c : ascii) (s : string) : bool :=
  match s with
  | "" => true
  | String a s' => Ascii.eqb a c && all_char c s'
  end.

Fixpoint lstrip_char (c : ascii) (s : string) : string :=
  match s with
  | String a s' => if Ascii.eqb a c then lstrip_char c s' else s
  | "" => ""
  end.

(** [s.rstrip(c)] *)
Definition rstrip_char (c : ascii) (s : string) : string :=
  String.rev (lstrip_char c (String.rev s)).

(** [posixpath.join(a, b)] *)
Definition join (a b : string) : string :=
  if Str.startswith b "/" then b
  else if String.eqb a "" || Str.endswith a "/" then a +:+ b
  else a +:+ "/" +:+ b.

(** [posixpath.join(a, *p)] *)
Definition join_all (a : string) (p : list string) : string :=
  fold_left join p a.

(** [posixpath.dirname(p)] *)
Definition dirname (p : string) : string :=
  match rsplit sep p with
  | None => ""
  | Some (h, _) =>
      let head := h +:+ "/" in
      if all_char sep head then head else rstrip_char sep head
  end.

(** [posixpath.basename(p)] *)
Definition basename (p : string) : string :=
  match rsplit sep p with
  | None => p
  | Some (_, t) => t
  end.

(** [posixpath.splitext(p)]: the extension starts at the last dot of
    the last component, unless only dots come before it there. *)
Definition splitext (p : string) : string * string :=
  let '(dir, name) :=
    match rsplit sep p with
    | None => ("", p)
    | Some (h, t) => (h +:+ "/", t)
    end in
  match rsplit extsep name with
  | Some (stem, ext) =>
      if all_char extsep stem then (p, "")
      else (dir +:+ stem, String extsep ext)
  | None => (p, "")
  end.

(** The loop of [posixpath.normpath] over the components. *)
Fixpoint norm_comps (initial_slashes : bool) (new_comps : list string)
         (comps : list string) : list string :=
  match comps with
  | [] => new_comps
  | comp :: rest =>
      if String.eqb comp "" || String.eqb comp "." then
        norm_comps initial_slashes new_comps rest
      else if negb (String.eqb comp "..")
              || (negb initial_slashes && Nat.eqb (length new_comps) 0)
              || (match last new_comps with
                  | Some c => String.eqb c ".."
                  | None => false
                  end)
      then norm_comps initial_slashes (new_comps ++ [comp]) rest
      else norm_comps initial_slashes (removelast new_comps) rest
  end.

(** [posixpath.normpath(path)] *)
Definition normpath (path : string) : string :=
  if String.eqb path "" then "."
  else
    let initial_slashes : nat :=
      if Str.startswith path "/" then
        if Str.startswith path "//" && negb (Str.startswith path "///")
        then 2%nat else 1%nat
      else 0%nat in
    let comps :=
      norm_comps (negb (Nat.eqb initial_slashes 0)) [] (Str.split sep path) in
    let path' := Str.join "/" comps in
    let path'' :=
      match initial_slashes with
      | 0%nat => path'
      | 1%nat => "/" +:+ path'
      | _ => "//" +:+ path'
      end in
    if String.eqb path'' "" then "." else path''.

(** [posixpath.abspath(path)] in the working directory [cwd]. *)
Definition abspath (cwd path : string) : string :=
  normpath (if Str.startswith path "/" then path else join cwd path).

(** The longest common prefix of two component lists, which is what
    [commonprefix] returns for the two lists [relpath] gives it. *)
Fixpoint commonprefix (a b : list string) : list string :=
  match a, b with
  | x :: a', y :: b' => if String.eqb x y then x :: commonprefix a' b' else []
  | _, _ => []
  end.

Definition nonempty (l : list string) : list string :=
  List.filter (fun x => negb (String.eqb x "")) l.

(** [posixpath.relpath(path, start)] in the working directory [cwd]. *)
Definition relpath (cwd path start : string) : result string :=
  if String.eqb path "" then Raise (ValueError "no path specified")
  else
    let start_list := nonempty (Str.split sep (abspath cwd start)) in
    let path_list := nonempty (Str.split sep (abspath cwd path)) in
    let i := length (commonprefix start_list path_list) in
    let rel_list :=
      (replicate (length start_list - i) ".." ++ drop i path_list)%list in
    match rel_list with
    | [] => Ok "."
    | a :: p => Ok (join_all a p)
    end.

End Path.

(** ** The world: files, console, and the monad of the scripts *)

(** What [model.transcribe] returns: a dict read with [.get]. *)
Record segment := Segment {
  seg_start : option number;
  seg_end : option number;
  seg_text : option string
}.

Record transcription := Transcription {
  text : option string;
  segments : option (list segment)
}.

Record world := World {
  files : gmap string string;   (** regular files: path to content *)
  dirs : gset string;           (** directories known to exist *)
  denied : gset string;         (** paths the OS refuses to create, write or unlink *)
  stdout : list string;         (** what [print] has written, one entry per call *)
  transcribed : list string     (** audio paths handed to [model.transcribe], in order *)
}.

Definition set_files (f : gmap string string -> gmap string string) (w : world) : world :=
  World (f (files w)) (dirs w) (denied w) (stdout w) (transcribed w).
Definition set_dirs (f : gset string -> gset string) (w : world) : world :=
  World (files w) (f (dirs w)) (denied w) (stdout w) (transcribed w).
Definition set_stdout (f : list string -> list string) (w : world) : world :=
  World (files w) (dirs w) (denied w) (f (stdout w)) (transcribed w).
Definition set_transcribed (f : list string -> list string) (w : world) : world :=
  World (files w) (dirs w) (denied w) (stdout w) (f (transcribed w)).

(** A loaded Whisper model: [transcribe path language] reads the world and
    returns the result dict or raises.  Its console output ([verbose=True])
    is left out. *)
Definition model := string -> string -> world -> result transcription.

Definition M (A : Type) : Type := world -> result A * world.

Definition ret {A} (a : A) : M A := fun w => (Ok a, w).

Definition bind {A B} (m : M A) (k : A -> M B) : M B :=
  fun w =>
    match m w with
    | (Ok a, w') => k a w'
    | (Raise e, w') => (Raise e, w')
    end.

Definition raise {A} (e : exn) : M A := fun w => (Raise e, w).

(** [try: body / except Exception as e: handler e] *)
Definition try_except {A} (body : M A) (handler : exn -> M A) : M A :=
  fun w =>
    match body w with
    | (Ok a, w') => (Ok a, w')
    | (Raise e, w') => handler e w'
    end.

Definition lift {A} (r : result A) : M A := fun w => (r, w).

Declare Scope world_scope.
Delimit Scope world_scope with world.
Notation "'do' x <- m ; k" := (bind m (fun x => k))
  (at level 10, x name, m at level 100, k at level 200) : world_scope.

Module OS.

(** [print(s)] *)
Definition print (s : string) : M unit :=
  fun w => (Ok tt, set_stdout (fun out => out ++ [s])%list w).

(** [os.makedirs(d, exist_ok=True)] *)
Definition makedirs (d : string) : M unit :=
  fun w =>
    if String.eqb d "" then (Raise (OSError "[Errno 2] No such file or directory" d), w)
    else if bool_decide (d ∈ dom (files w)) then (Raise (OSError "[Errno 17] File exists" d), w)
    else if bool_decide (d ∈ denied w) then (Raise (OSError "[Errno 13] Permission denied" d), w)
    else (Ok tt, set_dirs (fun ds => {[d]} ∪ ds) w).

(** [with open(p, 'w', encoding='utf-8') as f: f.write(s)] *)
Definition write_text (p s : string) : M unit :=
  fun w =>
    if bool_decide (p ∈ dirs w) then (Raise (OSError "[Errno 21] Is a directory" p), w)
    else if bool_decide (p ∈ denied w) then (Raise (OSError "[Errno 13] Permission denied" p), w)
    else if negb (String.eqb (Path.dirname p) "")
            && negb (bool_decide (Path.dirname p ∈ dirs w))
    then (Raise (OSError "[Errno 2] No such file or directory" p), w)
    else (Ok tt, set_files (fun fs => <[p := s]> fs) w).

(** [os.remove(p)] *)
Definition remove (p : string) : M unit :=
  fun w =>
    if negb (bool_decide (p ∈ dom (files w)))
    then (Raise (OSError "[Errno 2] No such file or directory" p), w)
    else if bool_decide (p ∈ denied w) then (Raise (OSError "[Errno 13] Permission denied" p), w)
    else (Ok tt, set_files (fun fs => delete p fs) w).

(** [model.transcribe(input_file, language=language, ...)] *)
Definition transcribe (md : model) (input_file language : string) : M transcription :=
  fun w => (md input_file language w, set_transcribed (fun l => l ++ [input_file])%list w).

End OS.

(** What the scripts ask of their libraries. *)
#[warnings="-register-all"]
Inductive tree := Dir (name : string) (subdirs : list tree) (fnames : list string).

Definition tree_name (t : tree) : string :=
  match t with Dir n _ _ => n end.

Record env := Env {
  cuda_is_available : bool;                        (** [torch.cuda.is_available()] *)
  load_model : string -> string -> result model;   (** [whisper.load_model(name, device=device)] *)
  listing : string -> option tree;                 (** the directory tree at a path, if it is a directory *)
  getcwd : string                                  (** [os.getcwd()] *)
}.

Module Walk.

(** [os.walk(top)] top-down over the tree found at [top]: the triple of
    the directory itself, then the walks of its sub-directories, each
    under [join(top, name)].  The triples are taken from the tree as it
    is when the walk starts. *)
Fixpoint walk (top : string) (t : tree) : list (string * list string * list string) :=
  match t with
  | Dir _ subs fs =>
      (top, map tree_name subs, fs)
        :: List.flat_map (fun s => walk (Path.join top (tree_name s)) s) subs
  end.

(** A path that cannot be listed yields nothing; the empty path never can. *)
Definition os_walk (E : env) (top : string) : list (string * list string * list string) :=
  if String.eqb top "" then []
  else match listing E top with
       | Some t => walk top t
       | None => []
       end.

End Walk.

(** [for x in l: body x] *)
Fixpoint for_each {A} (l : list A) (body : A -> M unit) : M unit :=
  match l with
  | [] => ret tt
  | x :: rest => bind (body x) (fun _ => for_each rest body)
  end.

Module Srt.
Local Open Scope world_scope.

(** The body of the loop of lines 28-34 for one segment. *)
Definition srt_block (idx : Z) (sg : segment) : result (list string) :=
  rbind (format_timestamp (default (Int 0) (seg_start sg))) (fun start_time =>
  rbind (format_timestamp (default (Int 0) (seg_end sg))) (fun end_time =>
  let text := Str.strip (default "" (seg_text sg)) in
  Ok [Str.of_int idx; start_time +:+ " --> " +:+ end_time; text +:+ Str.newline])).

(** [for idx, segment in enumerate(segments, start=idx)], appending to
    [srt_lines]. *)
Fixpoint srt_loop (idx : Z) (segs : list segment) (srt_lines : list string)
  : result (list string) :=
  match segs with
  | [] => Ok srt_lines
  | sg :: rest =>
      rbind (srt_block idx sg) (fun b => srt_loop (idx + 1) rest (srt_lines ++ b)%list)
  end.

(** [save_srt_file(result, srt_output_file)], lines 15-40. *)
Definition save_srt_file (res : transcription) (srt_output_file : string) : M unit :=
  let segs := default [] (segments res) in
  match segs with
  | [] => OS.print "Нет сегментов для сохранения в формате SRT."
  | _ =>
      do srt_lines <- lift (srt_loop 1 segs []);
      do _ <- OS.makedirs (Path.dirname srt_output_file);
      do _ <- OS.write_text srt_output_file (Str.join Str.newline srt_lines);
      OS.print ("SRT транскрипция сохранена в " +:+ srt_output_file +:+ Str.newline)
  end.

(** [transcribe_audio_to_text(model, input_file, output_file, language)],
    lines 42-87. *)
Definition transcribe_audio_to_text (md : model)
           (input_file output_file language : string) : M unit :=
  do res <- try_except (OS.transcribe md input_file language)
              (fun e =>
                 do _ <- OS.print ("Ошибка при транскрипции файла " +:+ input_file +:+ ": "
                              +:+ exn_str e);
                 raise (Exception ("Транскрипция для " +:+ input_file +:+ " не удалась.")));
  let transcription :=
    Str.strip (Str.replace (Str.chr 10) " " (default "" (text res))) in
  do _ <- OS.print ("Файл: " +:+ Path.basename input_file +:+ " | Транскрипция: " +:+ transcription);
  do _ <- OS.makedirs (Path.dirname output_file);
  do _ <- OS.write_text output_file (transcription +:+ Str.newline);
  do _ <- OS.print ("Транскрипция сохранена в " +:+ output_file +:+ Str.newline);
  let srt_output_file := fst (Path.splitext output_file) +:+ ".srt" in
  do _ <- save_srt_file res srt_output_file;
  try_except
    (do _ <- OS.remove input_file;
     OS.print ("Аудиофайл " +:+ Path.basename input_file +:+ " удалён." +:+ Str.newline))
    (fun e =>
       OS.print ("Не удалось удалить аудиофайл " +:+ input_file +:+ ": " +:+ exn_str e
                 +:+ Str.newline)).

(** The final step of a job, lines 82-87: the audio file is removed, and a
    refusal is reported and swallowed. *)
Definition delete_input (input_file : string) : M unit :=
  try_except
    (do _ <- OS.remove input_file;
     OS.print ("Аудиофайл " +:+ Path.basename input_file +:+ " удалён." +:+ Str.newline))
    (fun e =>
       OS.print ("Не удалось удалить аудиофайл " +:+ input_file +:+ ": " +:+ exn_str e
                 +:+ Str.newline)).

(** The job before that step, lines 52-80: the model call and the two
    output files. *)
Definition write_outputs (md : model)
           (input_file output_file language : string) : M unit :=
  do res <- try_except (OS.transcribe md input_file language)
              (fun e =>
                 do _ <- OS.print ("Ошибка при транскрипции файла " +:+ input_file +:+ ": "
                              +:+ exn_str e);
                 raise (Exception ("Транскрипция для " +:+ input_file +:+ " не удалась.")));
  let transcription :=
    Str.strip (Str.replace (Str.chr 10) " " (default "" (text res))) in
  do _ <- OS.print ("Файл: " +:+ Path.basename input_file +:+ " | Транскрипция: " +:+ transcription);
  do _ <- OS.makedirs (Path.dirname output_file);
  do _ <- OS.write_text output_file (transcription +:+ Str.newline);
  do _ <- OS.print ("Транскрипция сохранена в " +:+ output_file +:+ Str.newline);
  let srt_output_file := fst (Path.splitext output_file) +:+ ".srt" in
  save_srt_file res srt_output_file.

(** The body of the inner loop of [batch_transcribe], lines 110-120. *)
Definition batch_file (E : env) (md : model)
           (input_folder output_folder language root file : string) : M unit :=
  if Str.endswith (Str.lower file) ".mp3" then
    let input_file := Path.join root file in
    do relative_path <- lift (Path.relpath (getcwd E) root input_folder);
    let output_dir := Path.join output_folder relative_path in
    let base_name := fst (Path.splitext file) in
    let output_file := Path.join output_dir (base_name +:+ ".txt") in
    try_except
      (transcribe_audio_to_text md input_file output_file language)
      (fun e =>
         OS.print ("Не удалось транскрибировать " +:+ input_file +:+ ": " +:+ exn_str e
                   +:+ Str.newline))
  else ret tt.

(** [batch_transcribe(input_folder, output_folder, language)], lines 89-122. *)
Definition batch_transcribe (E : env)
           (input_folder output_folder language : string) : M unit :=
  let device := if cuda_is_available E then "cuda" else "cpu" in
  do _ <- (if String.eqb device "cuda"
           then OS.print "CUDA обнаружен. Используется GPU для транскрипции."
           else OS.print "CUDA не обнаружен. Используется CPU для транскрипции.");
  do _ <- OS.print "Загрузка модели Whisper...";
  do md <- lift (load_model E "medium" device);
  do _ <- OS.print ("Модель загружена." +:+ Str.newline);
  do _ <- for_each (Walk.os_walk E input_folder)
            (fun '(root, _, fnames) =>
               for_each fnames
                 (batch_file E md input_folder output_folder language root));
  OS.print "Пакетная транскрипция завершена.".

(** The [__main__] block, lines 124-129. *)
Definition main (E : env) : M unit := batch_transcribe E "audio" "result" "ru".

End Srt.

(** ** The text-only script, [transcribefp16ruundedelete.py] *)

Module Txt.
Local Open Scope world_scope.

(** [transcribe_audio_to_text(model, input_file, output_file, language)],
    lines 5-50. *)
Definition transcribe_audio_to_text (md : model)
           (input_file output_file language : string) : M unit :=
  do res <- try_except (OS.transcribe md input_file language)
              (fun e =>
                 do _ <- OS.print ("Ошибка при транскрипции файла " +:+ input_file +:+ ": "
                              +:+ exn_str e);
                 raise (Exception ("Транскрипция для " +:+ input_file +:+ " не удалась.")));
  let transcription :=
    Str.strip (Str.replace (Str.chr 10) " " (default "" (text res))) in
  do _ <- OS.print ("Файл: " +:+ Path.basename input_file +:+ " | Транскрипция: " +:+ transcription);
  do _ <- OS.makedirs (Path.dirname output_file);
  do _ <- OS.write_text output_file (transcription +:+ Str.newline);
  do _ <- OS.print ("Транскрипция сохранена в " +:+ output_file +:+ Str.newline);
  try_except
    (do _ <- OS.remove input_file;
     OS.print ("Аудиофайл " +:+ Path.basename input_file +:+ " удалён." +:+ Str.newline))
    (fun e =>
       OS.print ("Не удалось удалить аудиофайл " +:+ input_file +:+ ": " +:+ exn_str e
                 +:+ Str.newline)).

(** The final step of a job, lines 45-50: the audio file is removed, and a
    refusal is reported and swallowed. *)
Definition delete_input (input_file : string) : M unit :=
  try_except
    (do _ <- OS.remove input_file;
     OS.print ("Аудиофайл " +:+ Path.basename input_file +:+ " удалён." +:+ Str.newline))
    (fun e =>
       OS.print ("Не удалось удалить аудиофайл " +:+ input_file +:+ ": " +:+ exn_str e
                 +:+ Str.newline)).

(** The job before that step, lines 14-43: the model call and the text file. *)
Definition write_outputs (md : model)
           (input_file output_file language : string) : M unit :=
  do res <- try_except (OS.transcribe md input_file language)
              (fun e =>
                 do _ <- OS.print ("Ошибка при транскрипции файла " +:+ input_file +:+ ": "
                              +:+ exn_str e);
                 raise (Exception ("Транскрипция для " +:+ input_file +:+ " не удалась.")));
  let transcription :=
    Str.strip (Str.replace (Str.chr 10) " " (default "" (text res))) in
  do _ <- OS.print ("Файл: " +:+ Path.basename input_file +:+ " | Транскрипция: " +:+ transcription);
  do _ <- OS.makedirs (Path.dirname output_file);
  do _ <- OS.write_text output_file (transcription +:+ Str.newline);
  OS.print ("Транскрипция сохранена в " +:+ output_file +:+ Str.newline).

(** The body of the inner loop of [batch_transcribe], lines 76-89. *)
Definition batch_file (E : env) (md : model)
           (input_folder output_folder language root file : string) : M unit :=
  if Str.endswith (Str.lower file) ".mp3" then
    let input_file := Path.join root file in
    do relative_path <- lift (Path.relpath (getcwd E) root input_folder);
    let output_dir := Path.join output_folder relative_path in
    let base_name := fst (Path.splitext file) in
    let output_file := Path.join output_dir (base_name +:+ ".txt") in
    try_except
      (transcribe_audio_to_text md input_file output_file language)
      (fun e =>
         OS.print ("Не удалось транскрибировать " +:+ input_file +:+ ": " +:+ exn_str e
                   +:+ Str.newline))
  else ret tt.

(** [batch_transcribe(input_folder, output_folder, language)], lines 53-91. *)
Definition batch_transcribe (E : env)
           (input_folder output_folder language : string) : M unit :=
  let device := if cuda_is_available E then "cuda" else "cpu" in
  do _ <- (if String.eqb device "cuda"
           then OS.print "CUDA обнаружен. Используется GPU для транскрипции."
           else OS.print "CUDA не обнаружен. Используется CPU для транскрипции.");
  do _ <- OS.print "Загрузка модели Whisper...";
  do md <- lift (load_model E "medium" device);
  do _ <- OS.print ("Модель загружена." +:+ Str.newline);
  do _ <- for_each (Walk.os_walk E input_folder)
            (fun '(root, _, fnames) =>
               for_each fnames
                 (batch_file E md input_folder output_folder language root));
  OS.print "Пакетная транскрипция завершена.".

(** The [__main__] block, lines 93-102. *)
Definition main (E : env) : M unit := batch_transcribe E "audio" "result" "ru".

End Txt.

(** ** Vocabulary of the specification *)

(** [str.isdigit] on every character. *)
Fixpoint all_digits (s : string) : bool :=
  match s with
  | "" => true
  | String c s' => Str.is_digit c && all_digits s'
  end.

(** The shape [HH:MM:SS,mmm]: fields of exactly 2, 2, 2 and 3 digits. *)
Definition timestamp_shape (s : string) : bool :=
  match Str.split ":" s with
  | [h; m; rest] =>
      match Str.split "," rest with
      | [sec; ms] =>
          all_digits (h +:+ m +:+ sec +:+ ms)
          && Nat.eqb (String.length h) 2 && Nat.eqb (String.length m) 2
          && Nat.eqb (String.length sec) 2 && Nat.eqb (String.length ms) 3
      | _ => false
      end
  | _ => false
  end.

(** Reading a time back: the text is cut at its separators and every
    field is read by [int]. *)
Definition parse_timestamp (s : string) : option (Z * Z * Z * Z) :=
  match Str.split ":" s with
  | [h; m; rest] =>
      match Str.split "," rest with
      | [sec; ms] =>
          match Str.parse_int h, Str.parse_int m, Str.parse_int sec, Str.parse_int ms with
          | Some h', Some m', Some sec', Some ms' => Some (h', m', sec', ms')
          | _, _, _, _ => None
          end
      | _ => None
      end
  | _ => None
  end.

(** The milliseconds of the fractional part of a non-negative number, cut
    off without rounding: the integer part of [1000 * (s - floor s)]. *)
Definition exact_millis (s : number) : Z :=
  1000 * (Num.scaled s mod Binary64.U) / Binary64.U.

(** The text [format_timestamp] returns, for a number on which it returns. *)
Definition timestamp_text (s : number) : string :=
  match format_timestamp s with
  | Ok t => t
  | Raise _ => ""
  end.

(** A segment as the data model has it: finite times that are not negative. *)
Definition segment_ok (sg : segment) : Prop :=
  Num.nonneg (default (Int 0) (seg_start sg)) /\ Num.nonneg (default (Int 0) (seg_end sg)).

(** One subtitle block: index line, timing line, trimmed text line. *)
Definition srt_block_text (i : Z) (sg : segment) : string :=
  Str.of_int i +:+ Str.newline
  +:+ timestamp_text (default (Int 0) (seg_start sg)) +:+ " --> "
  +:+ timestamp_text (default (Int 0) (seg_end sg)) +:+ Str.newline
  +:+ Str.strip (default "" (seg_text sg)) +:+ Str.newline.

(** The lines the loop of [save_srt_file] collects: three per segment. *)
Fixpoint srt_lines (i : Z) (segs : list segment) : list string :=
  match segs with
  | [] => []
  | sg :: rest =>
      Str.of_int i
        :: (timestamp_text (default (Int 0) (seg_start sg)) +:+ " --> "
            +:+ timestamp_text (default (Int 0) (seg_end sg)))
        :: (Str.strip (default "" (seg_text sg)) +:+ Str.newline)
        :: srt_lines (i + 1) rest
  end.

Fixpoint srt_blocks (i : Z) (segs : list segment) : list string :=
  match segs with
  | [] => []
  | sg :: rest => srt_block_text i sg :: srt_blocks (i + 1) rest
  end.

(** The subtitle file: the blocks, a blank line between two of them. *)
Definition srt_document (segs : list segment) : string :=
  Str.join Str.newline (srt_blocks 1 segs).

(** The text file: the transcript on one line. *)
Definition text_document (res : transcription) : string :=
  Str.strip (Str.replace (Str.chr 10) " " (default "" (text res))) +:+ Str.newline.

(** The OS lets the scripts create the directory of [p] and write [p]. *)
Definition writable (w : world) (p : string) : Prop :=
  (Path.dirname p <> "") /\ (Path.dirname p ∉ dom (files w)) /\ (Path.dirname p ∉ denied w)
  /\ (p ∉ dirs w) /\ (p <> Path.dirname p) /\ (p ∉ denied w).

(** The extension filter of the drivers. *)
Definition matches_filter (file : string) : bool :=
  Str.endswith (Str.lower file) ".mp3".

(** The paths a run of the driver hands to the model: the matching files
    of the walk, in its order. *)
Definition selected (E : env) (input_folder : string) : list string :=
  List.flat_map
    (fun '(root, _, fnames) =>
       map (Path.join root) (List.filter matches_filter fnames))
    (Walk.os_walk E input_folder).

(** ** Reasoning about runs *)

(** A relation between the world before and after a computation that
    holds whatever the outcome. *)
Definition ensures {A} (m : M A) (R : world -> world -> Prop) : Prop :=
  forall w, R w (snd (m w)).

(** The files a computation may remove are among [gone]; nothing else
    leaves the disk and the permissions stay. *)
Definition keeps (gone : string -> Prop) (w w' : world) : Prop :=
  denied w' = denied w /\
  forall p, p ∈ dom (files w) -> ~ gone p -> p ∈ dom (files w').



(** The line printed when the input cannot be removed (line 87). *)
Definition deletion_report (input_file : string) (e : exn) : string :=
  "Не удалось удалить аудиофайл " +:+ input_file +:+ ": " +:+ exn_str e +:+ Str.newline.

(** The two scripts, for statements that hold of both. *)
Inductive script := SrtScript | TxtScript.

Definition job (sc : script) : model -> string -> string -> string -> M unit :=
  match sc with
  | SrtScript => Srt.transcribe_audio_to_text
  | TxtScript => Txt.transcribe_audio_to_text
  end.

Definition outputs (sc : script) : model -> string -> string -> string -> M unit :=
  match sc with
  | SrtScript => Srt.write_outputs
  | TxtScript => Txt.write_outputs
  end.

Definition batch_file (sc : script)
  : env -> model -> string -> string -> string -> string -> string -> M unit :=
  match sc with
  | SrtScript => Srt.batch_file
  | TxtScript => Txt.batch_file
  end.

Definition batch_transcribe (sc : script) : env -> string -> string -> string -> M unit :=
  match sc with
  | SrtScript => Srt.batch_transcribe
  | TxtScript => Txt.batch_transcribe
  end.

(** The transcript as both scripts normalise it (lines 67 and 33). *)
Definition normalized (t : string) : string :=
  Str.strip (Str.replace (Str.chr 10) " " t).

(** The subtitle path the job derives from its text path (line 79). *)
Definition srt_path (output_file : string) : string :=
  fst (Path.splitext output_file) +:+ ".srt".

(** A disk holding a single audio file. *)
Definition one_file (p : string) : world := World {[p := "RIFF"]} ∅ ∅ [] [].

(** The same disk, the audio file protected against removal. *)
Definition one_locked_file (p : string) : world := World {[p := "RIFF"]} ∅ {[p]} [] [].

(** The segments of the specification's example. *)
Definition example_segments : list segment :=
  [ Segment (Some (Float Binary64.zero)) (Some (Float (Binary64.literal 15 1)))
            (Some "hello");
    Segment (Some (Float (Binary64.literal 15 1))) (Some (Float (Binary64.of_Z 3)))
            (Some "world") ].

(** A model that returns two lines of text and those segments, and one
    that fails. *)
Definition example_model : model :=
  fun _ _ _ =>
    Ok (Transcription (Some (" hello" +:+ Str.newline +:+ "world "))
                      (Some example_segments)).


(** The input tree of the specification's example, with a second audio
    file whose extension is in capitals and two files that are not audio. *)
Definition example_tree : tree :=
  Dir "audio" [Dir "sub" [] ["a.mp3"; "notes.wav"]] ["b.MP3"; "cover.jpg"].

Definition example_env (md : model) : env :=
  Env false (fun _ _ => Ok md)
      (fun p => if String.eqb p "audio" then Some example_tree else None)
      "/home/user".



(** A name a directory entry can have as the walk joins it: not empty,
    not [.] or [..], no separator in it. *)
Definition proper_name (n : string) : bool :=
  negb (String.eqb n "") && negb (String.eqb n ".") && negb (String.eqb n "..")
  && negb (Str.contains Path.sep n).

(** The part of a file name before its extension: no separator, and not
    made of dots only. *)
Definition proper_stem (s : string) : bool :=
  negb (Str.contains Path.sep s) && negb (Path.all_char Path.extsep s).

(** The path of the directory reached through the sub-directories
    [names], relative to the directory the walk started from. *)
Definition relative (names : list string) : string :=
  match names with
  | [] => "."
  | _ => Str.join "/" names
  end.

(** The path [abspath] normalises: [path] itself when it is absolute,
    else [join(os.getcwd(), path)]. *)
Definition abs_arg (cwd path : string) : string :=
  if Str.startswith path "/" then path else Path.join cwd path.

(** A component of a normalised path. *)
Definition clean (x : string) : Prop := x <> "" /\ Str.contains Path.sep x = false.

(** Every directory below the root of the tree has a proper name. *)
Fixpoint proper_tree (t : tree) : bool :=
  match t with
  | Dir _ subs _ => forallb (fun s => proper_name (tree_name s) && proper_tree s) subs
  end.

(** ** Further vocabulary *)

(** Every path outside [P] holds after the computation what it held
    before: the same content, or nothing. *)
Definition frame (P : string -> Prop) (w w' : world) : Prop :=
  forall p, ~ P p -> files w' !! p = files w !! p.

(** An infinity or a NaN. *)
Definition not_finite (a : number) : bool :=
  match a with
  | Float f => negb (Binary64.is_finite f)
  | Int _ => false
  end.

(** A segment on which [format_timestamp] raises: its start is not
    finite, or its start is fine and its end is not finite. *)
Definition bad_times (sg : segment) : Prop :=
  not_finite (default (Int 0) (seg_start sg)) = true \/
  (Num.nonneg (default (Int 0) (seg_start sg)) /\
   not_finite (default (Int 0) (seg_end sg)) = true).


(** The device the drivers ask for, and the line they print about it
    (lines 98-102 and 62-66). *)
Definition device (E : env) : string := if cuda_is_available E then "cuda" else "cpu".

Definition device_line (E : env) : string :=
  if cuda_is_available E
  then "CUDA обнаружен. Используется GPU для транскрипции."
  else "CUDA не обнаружен. Используется CPU для транскрипции.".


(** An environment with no input folder. *)
Definition bare_env (md : model) : env :=
  Env true (fun _ _ => Ok md) (fun _ => None) "/home/user".

(** An environment in which the model cannot be loaded. *)
Definition broken_env : env :=
  Env false (fun _ _ => Raise (Exception "checkpoint not found"))
      (fun p => if String.eqb p "audio" then Some example_tree else None)
      "/home/user".

(** The subtitle file read line by line: for each segment its number,
    its timing, its trimmed text and an empty line. *)
Fixpoint srt_file_lines (i : Z) (segs : list segment) : list string :=
  match segs with
  | [] => []
  | sg :: rest =>
      Str.of_int i
        :: (timestamp_text (default (Int 0) (seg_start sg)) +:+ " --> "
            +:+ timestamp_text (default (Int 0) (seg_end sg)))
        :: Str.strip (default "" (seg_text sg))
        :: "" :: srt_file_lines (i + 1) rest
  end.

(** All characters are ASCII white space. *)
Fixpoint all_space (s : string) : bool :=
  match s with
  | "" => true
  | String c s' => Str.ascii_space c && all_space s'
  end.

(** A model that hears nothing. *)
Definition silent_model : model :=
  fun _ _ _ => Ok (Transcription (Some (" " +:+ Str.newline +:+ " ")) None).

(** The paths in [P] are not written: each is gone afterwards or holds
    what it held. *)
Definition spares (P : string -> Prop) (w w' : world) : Prop :=
  forall p, P p -> files w' !! p = None \/ files w' !! p = files w !! p.


(** The [__main__] block of either script. *)
Definition main (sc : script) : env -> M unit :=
  match sc with
  | SrtScript => Srt.main
  | TxtScript => Txt.main
  end.

(** * Facts *)

(** ** Rounding to binary64

    [SpecFloat] rounds a mantissa and an exponent by shifting the mantissa
    right bit by bit.  The lemmas below read that procedure as arithmetic:
    the rounded value is one of the two neighbours of the exact value on
    the grid of doubles, and the exact value itself when it is on the
    grid. *)

Module B64.
Import Binary64.

Lemma digits2_pos_size m : digits2_pos m = Pos.size m.
Proof. induction m; simpl; congruence. Qed.

Lemma digits2_bounds m :
  2 ^ (Zpos (digits2_pos m) - 1) <= Zpos m < 2 ^ Zpos (digits2_pos m).
Proof.
  rewrite digits2_pos_size. split.
  - pose proof (Pos.size_le m) as H.
    assert (Hs: Zpos (Pos.size m) = (Zpos (Pos.size m) - 1) + 1) by lia.
    assert (2 ^ Zpos (Pos.size m) <= 2 * Zpos m).
    { rewrite <- Pos2Z.inj_pow. lia. }
    rewrite Hs in H0. rewrite Z.pow_add_r in H0 by lia. lia.
  - pose proof (Pos.size_gt m) as H. rewrite <- Pos2Z.inj_pow. lia.
Qed.

Lemma Zdigits2_bounds M : 0 < M -> 2 ^ (Zdigits2 M - 1) <= M < 2 ^ Zdigits2 M.
Proof. destruct M; try lia. intros _. apply digits2_bounds. Qed.

Lemma Zdigits2_pos M : 0 < M -> 0 < Zdigits2 M.
Proof. destruct M; simpl; lia. Qed.

Lemma pow2_lt_inv a b : 0 <= b -> 2 ^ a < 2 ^ b -> a < b.
Proof. intros Hb H. apply Z.pow_lt_mono_r_iff in H; lia. Qed.

Lemma Zdigits2_unique M d : 2 ^ (d - 1) <= M < 2 ^ d -> 0 < M -> Zdigits2 M = d.
Proof.
  intros [H1 H2] HM. pose proof (Zdigits2_bounds M HM) as [H3 H4].
  pose proof (Zdigits2_pos M HM).
  assert (0 < d).
  { destruct (Z_lt_le_dec 0 d) as [|Hd]; auto.
    destruct (Z.eq_dec d 0) as [->|]; [simpl in H2; lia|].
    rewrite Z.pow_neg_r in H2; lia. }
  assert (d - 1 < Zdigits2 M). { apply pow2_lt_inv; lia. }
  assert (Zdigits2 M - 1 < d). { apply pow2_lt_inv; lia. }
  lia.
Qed.

Lemma iter_pos_nat {A} (f : A -> A) p x :
  SpecFloat.iter_pos f p x = Nat.iter (Pos.to_nat p) f x.
Proof.
  revert x. induction p as [p IH|p IH|]; intros x; cbn [SpecFloat.iter_pos].
  - rewrite !IH. rewrite Pos2Nat.inj_xI.
    replace (S (2 * Pos.to_nat p)) with (Pos.to_nat p + (Pos.to_nat p + 1))%nat by lia.
    rewrite !Nat.iter_add. reflexivity.
  - rewrite !IH. rewrite Pos2Nat.inj_xO.
    replace (2 * Pos.to_nat p)%nat with (Pos.to_nat p + Pos.to_nat p)%nat by lia.
    rewrite Nat.iter_add. reflexivity.
  - reflexivity.
Qed.

Lemma shr_1_nonneg m r s :
  0 <= m ->
  shr_1 (Build_shr_record m r s) = Build_shr_record (m / 2) (Z.odd m) (r || s).
Proof.
  intros Hm. rewrite <- Z.div2_div.
  destruct m as [|[p|p|]|]; try lia; reflexivity.
Qed.

Lemma shr_iter_spec M r0 s0 k :
  0 <= M ->
  let mrs := Nat.iter k shr_1 (Build_shr_record M r0 s0) in
  shr_m mrs = M / 2 ^ Z.of_nat k /\
  (M mod 2 ^ Z.of_nat k = 0 -> r0 = false -> s0 = false ->
   shr_r mrs = false /\ shr_s mrs = false).
Proof.
  intros HM. induction k as [|k IH]; intros mrs.
  - subst mrs. simpl. rewrite Z.div_1_r. split; auto.
  - subst mrs. rewrite Nat.iter_succ.
    destruct IH as [IHm IHb].
    destruct (Nat.iter k shr_1 _) as [m r s] eqn:Hit. cbn [shr_m shr_r shr_s] in IHm, IHb.
    assert (Hm0: 0 <= m). { subst m. apply Z.div_pos; lia. }
    rewrite shr_1_nonneg by assumption. cbn [shr_m shr_r shr_s].
    assert (Hp: 2 ^ Z.of_nat (S k) = 2 ^ Z.of_nat k * 2).
    { rewrite Nat2Z.inj_succ, Z.pow_succ_r by lia. lia. }
    split.
    + rewrite Hp. rewrite <- Z.div_div by lia. congruence.
    + intros Hmod Hr Hs.
      assert (Hk: M mod 2 ^ Z.of_nat k = 0).
      { rewrite Hp in Hmod.
        assert (0 < 2 ^ Z.of_nat k) by lia.
        rewrite Z.rem_mul_r in Hmod by lia.
        pose proof (Z.mod_pos_bound M (2 ^ Z.of_nat k)).
        pose proof (Z.mod_pos_bound (M / 2 ^ Z.of_nat k) 2). nia. }
      destruct (IHb Hk Hr Hs) as [-> ->]. split; auto.
      rewrite Hp in Hmod. rewrite Z.rem_mul_r in Hmod by lia.
      rewrite Hk in Hmod. rewrite <- IHm in Hmod.
      assert (m mod 2 = 0).
      { assert (0 < 2 ^ Z.of_nat k) by lia. pose proof (Z.mod_pos_bound m 2). nia. }
      rewrite <- Z.negb_even. rewrite Zeven_mod. rewrite H. reflexivity.
Qed.

Lemma fexp_eq e : fexp 53 1024 e = fexp64 e.
Proof. reflexivity. Qed.

Lemma shr_fexp_spec M e l :
  0 <= M -> e <= fexp64 (Zdigits2 M + e) ->
  exists mrs,
    shr_fexp 53 1024 M e l = (mrs, fexp64 (Zdigits2 M + e)) /\
    shr_m mrs = M / 2 ^ (fexp64 (Zdigits2 M + e) - e) /\
    (l = loc_Exact -> M mod 2 ^ (fexp64 (Zdigits2 M + e) - e) = 0 ->
     loc_of_shr_record mrs = loc_Exact).
Proof.
  intros HM He. unfold shr_fexp. rewrite fexp_eq.
  set (E := fexp64 (Zdigits2 M + e)) in *.
  unfold shr. destruct (E - e) as [|p|p] eqn:Hn; try lia.
  - exists (shr_record_of_loc M l). replace E with e by lia.
    split; [reflexivity|]. split.
    + rewrite Z.div_1_r. destruct l as [|[]]; reflexivity.
    + intros -> _. reflexivity.
  - exists (SpecFloat.iter_pos shr_1 p (shr_record_of_loc M l)).
    split. { f_equal. lia. }
    rewrite iter_pos_nat.
    assert (Hrec: exists r0 s0, shr_record_of_loc M l = Build_shr_record M r0 s0 /\
                                (l = loc_Exact -> r0 = false /\ s0 = false)).
    { destruct l as [|[]]; simpl; eauto 6 using conj; do 2 eexists; split; eauto; discriminate. }
    destruct Hrec as (r0 & s0 & -> & Hl).
    pose proof (shr_iter_spec M r0 s0 (Pos.to_nat p) HM) as [H1 H2].
    rewrite positive_nat_Z in H1, H2.
    split; [exact H1|].
    intros Hex Hmod. destruct (Hl Hex) as [-> ->].
    destruct (H2 Hmod eq_refl eq_refl) as [Hr Hs].
    destruct (Nat.iter _ _ _) as [m r s]. simpl in *. subst. reflexivity.
Qed.

Lemma round_nearest_even_cases m l :
  (round_nearest_even m l = m \/ round_nearest_even m l = m + 1) /\
  (l = loc_Exact -> round_nearest_even m l = m).
Proof.
  destruct l as [|[]]; simpl; try (split; [auto|discriminate || auto]).
  destruct (Z.even m); auto.
Qed.

Lemma bounded_iff m e :
  bounded 53 1024 m e = true <-> fexp64 (Zpos (digits2_pos m) + e) = e /\ e <= 971.
Proof.
  unfold bounded, canonical_mantissa. rewrite fexp_eq.
  rewrite andb_true_iff, Z.eqb_eq, Z.leb_le. reflexivity.
Qed.

Lemma binary_round_aux_pack sx M e l :
  binary_round_aux 53 1024 sx M e l =
  let '(mrs, e') := shr_fexp 53 1024 M e l in
  pack sx (round_nearest_even (shr_m mrs) (loc_of_shr_record mrs)) e'.
Proof. unfold binary_round_aux, pack. destruct (shr_fexp 53 1024 M e l). reflexivity. Qed.

Lemma pack_zero sx E : pack sx 0 E = S754_zero sx.
Proof.
  unfold pack, shr_fexp, shr.
  destruct (fexp 53 1024 (Zdigits2 0 + E) - E) as [|p|p]; try reflexivity.
  rewrite iter_pos_nat.
  pose proof (shr_iter_spec 0 false false (Pos.to_nat p) (Z.le_refl 0)) as [H _].
  cbn [shr_record_of_loc]. rewrite H. rewrite Z.div_0_l; [reflexivity|].
  apply Z.pow_nonzero; lia.
Qed.

Lemma pack_pos sx d E :
  0 < d <= 2 ^ 53 -> -1074 <= E -> (-1074 < E -> 2 ^ 52 <= d) ->
  (exists mr er, pack sx d E = S754_finite sx mr er /\
                 bounded 53 1024 mr er = true /\ E <= er /\
                 Zpos mr * 2 ^ (er - E) = d) \/
  (pack sx d E = S754_infinity sx /\ (971 < E \/ (E = 971 /\ d = 2 ^ 53))).
Proof.
  intros [Hd0 Hd1] HE Hnorm.
  destruct (Z.eq_dec d (2 ^ 53)) as [->|Hne].
  - (* the rounded mantissa carried into the next binade *)
    unfold pack.
    destruct (shr_fexp_spec (2 ^ 53) E loc_Exact) as (mrs & Heq & Hm & _); [lia| |].
    + change (Zdigits2 (2 ^ 53)) with 54. unfold fexp64. lia.
    + rewrite Heq. rewrite Hm.
      change (Zdigits2 (2 ^ 53)) with 54.
      replace (fexp64 (54 + E)) with (E + 1) by (unfold fexp64; lia).
      replace (E + 1 - E) with 1 by lia.
      change (2 ^ 53 / 2 ^ 1) with (Zpos (2 ^ 52)%positive).
      cbv iota. destruct (Z.leb_spec (E + 1) (1024 - 53)).
      * left. exists (2 ^ 52)%positive, (E + 1). split; [reflexivity|].
        split; [|split; [lia|]].
        -- apply bounded_iff. change (Zpos (digits2_pos (2 ^ 52))) with 53.
           unfold fexp64. lia.
        -- replace (E + 1 - E) with 1 by lia. reflexivity.
      * right. split; [reflexivity|]. lia.
  - assert (Hlt: d < 2 ^ 53) by lia.
    pose proof (Zdigits2_bounds d Hd0) as [Hb1 Hb2].
    pose proof (Zdigits2_pos d Hd0) as Hdp.
    assert (Hdd: Zdigits2 d <= 53).
    { assert (Zdigits2 d - 1 < 53); [|lia]. apply pow2_lt_inv; lia. }
    assert (Hfe: fexp64 (Zdigits2 d + E) = E).
    { unfold fexp64. destruct (Z.eq_dec E (-1074)); [lia|].
      assert (2 ^ 52 <= d) by (apply Hnorm; lia).
      assert (52 < Zdigits2 d); [|lia]. apply pow2_lt_inv; lia. }
    unfold pack.
    destruct (shr_fexp_spec d E loc_Exact) as (mrs & Heq & Hm & _); [lia|lia|].
    rewrite Heq, Hm, Hfe. replace (E - E) with 0 by lia.
    rewrite Z.div_1_r.
    destruct d as [|m|]; try lia. cbv iota.
    destruct (Z.leb_spec E (1024 - 53)).
    + left. exists m, E. split; [reflexivity|]. split; [|split; [lia|]].
      * apply bounded_iff. split; [exact Hfe|lia].
      * replace (E - E) with 0 by lia. lia.
    + right. split; [reflexivity|]. lia.
Qed.

Lemma div_pow2_lt M a n : 0 <= n <= a -> M < 2 ^ a -> M / 2 ^ n < 2 ^ (a - n).
Proof.
  intros Hn HM. apply Z.div_lt_upper_bound; [lia|].
  rewrite <- Z.pow_add_r by lia. replace (n + (a - n)) with a by lia. exact HM.
Qed.

Lemma div_pow2_ge M a n : 0 <= n <= a -> 2 ^ a <= M -> 2 ^ (a - n) <= M / 2 ^ n.
Proof.
  intros Hn HM. apply Z.div_le_lower_bound; [lia|].
  rewrite <- Z.pow_add_r by lia. replace (n + (a - n)) with a by lia. exact HM.
Qed.

(** The shape of a rounded result. *)
Lemma round_aux_cases sx M e l :
  0 <= M -> e <= fexp64 (Zdigits2 M + e) ->
  let E := fexp64 (Zdigits2 M + e) in
  let d := M / 2 ^ (E - e) in
  exists d',
    (d' = d \/ d' = d + 1) /\
    (l = loc_Exact -> M mod 2 ^ (E - e) = 0 -> d' = d) /\
    ((d' = 0 /\ binary_round_aux 53 1024 sx M e l = S754_zero sx) \/
     (exists mr er,
         binary_round_aux 53 1024 sx M e l = S754_finite sx mr er /\
         bounded 53 1024 mr er = true /\ E <= er /\ Zpos mr * 2 ^ (er - E) = d') \/
     (binary_round_aux 53 1024 sx M e l = S754_infinity sx /\
      (971 < E \/ (E = 971 /\ d' = 2 ^ 53)))).
Proof.
  intros HM He E d.
  rewrite binary_round_aux_pack.
  destruct (shr_fexp_spec M e l HM He) as (mrs & Heq & Hm & Hex).
  rewrite Heq. fold E in Hm, Hex |- *. fold d in Hm.
  destruct (round_nearest_even_cases (shr_m mrs) (loc_of_shr_record mrs)) as [Hr1 Hr2].
  set (d' := round_nearest_even (shr_m mrs) (loc_of_shr_record mrs)) in *.
  rewrite Hm in Hr1, Hr2.
  exists d'. split; [exact Hr1|]. split.
  { intros Hl Hmod. apply Hr2. auto. }
  assert (HE: -1074 <= E) by (unfold E, fexp64; lia).
  assert (Hd0: 0 <= d) by (apply Z.div_pos; lia).
  destruct (Z.eq_dec d' 0) as [Hz|Hnz].
  { left. split; [exact Hz|]. rewrite Hz. apply pack_zero. }
  right.
  assert (Hbounds: d' <= 2 ^ 53 /\ (-1074 < E -> 2 ^ 52 <= d')).
  { destruct (Z.eq_dec M 0) as [->|HM0].
    - unfold d in *. rewrite Z.div_0_l in * by (apply Z.pow_nonzero; lia).
      split; [lia|]. intros HE'. exfalso.
      unfold E, fexp64 in *. simpl Zdigits2 in *. lia.
    - assert (HMpos: 0 < M) by lia.
      pose proof (Zdigits2_bounds M HMpos) as [Hb1 Hb2].
      pose proof (Zdigits2_pos M HMpos) as Hdp.
      set (dg := Zdigits2 M) in *.
      assert (Hp: dg - (E - e) <= 53) by (unfold E, fexp64; lia).
      split.
      + destruct (Z_le_gt_dec (E - e) dg).
        * assert (d < 2 ^ (dg - (E - e))) by (apply div_pow2_lt; lia).
          assert (2 ^ (dg - (E - e)) <= 2 ^ 53) by (apply Z.pow_le_mono_r; lia).
          lia.
        * assert (d = 0).
          { apply Z.div_small. split; [lia|].
            assert (2 ^ dg <= 2 ^ (E - e)) by (apply Z.pow_le_mono_r; lia). lia. }
          lia.
      + intros HE'.
        assert (Hn: E - e = dg - 53) by (unfold E, fexp64 in *; lia).
        assert (2 ^ (dg - 1 - (E - e)) <= d) by (apply div_pow2_ge; lia).
        replace (dg - 1 - (E - e)) with 52 in * by lia. lia. }
  destruct Hbounds as [Hb53 Hb52].
  apply pack_pos; [lia|exact HE|exact Hb52].
Qed.

Lemma pow2_pos a : 0 <= a -> 0 < 2 ^ a.
Proof. intros. apply Z.pow_pos_nonneg; lia. Qed.

Lemma pow2_add a b : 0 <= a -> 0 <= b -> 2 ^ (a + b) = 2 ^ a * 2 ^ b.
Proof. intros. apply Z.pow_add_r; lia. Qed.

Lemma fexp64_mono a b : a <= b -> fexp64 a <= fexp64 b.
Proof. unfold fexp64. lia. Qed.

Lemma bounded_digits m e :
  bounded 53 1024 m e = true ->
  Zpos (digits2_pos m) <= 53 /\ -1074 <= e <= 971 /\
  fexp64 (Zpos (digits2_pos m) + e) = e /\ Zpos m < 2 ^ 53.
Proof.
  intros H. apply bounded_iff in H. destruct H as [H1 H2].
  assert (Zpos (digits2_pos m) <= 53) by (unfold fexp64 in H1; lia).
  repeat split; try (unfold fexp64 in H1; lia); auto.
  pose proof (digits2_bounds m) as [_ Hb].
  assert (2 ^ Zpos (digits2_pos m) <= 2 ^ 53) by (apply Z.pow_le_mono_r; lia). lia.
Qed.

(** Comparing magnitudes through a common scale [K]. *)
Lemma mag_le_of_le K M e my ey :
  0 < M -> 0 <= e + K -> 0 <= ey + K ->
  M * 2 ^ (e + K) <= Zpos my * 2 ^ (ey + K) ->
  Zdigits2 M + e <= Zpos (digits2_pos my) + ey.
Proof.
  intros HM HeK HyK Hle.
  pose proof (Zdigits2_bounds M HM) as [Hb1 _].
  pose proof (Zdigits2_pos M HM).
  pose proof (digits2_bounds my) as [_ Hb2].
  assert (2 ^ (Zdigits2 M - 1 + (e + K)) < 2 ^ (Zpos (digits2_pos my) + (ey + K))).
  { rewrite (pow2_add (Zdigits2 M - 1)), (pow2_add (Zpos (digits2_pos my))) by lia.
    pose proof (pow2_pos (e + K) HeK). pose proof (pow2_pos (ey + K) HyK).
    apply Z.le_lt_trans with (M * 2 ^ (e + K)).
    - apply Z.mul_le_mono_nonneg_r; lia.
    - apply Z.le_lt_trans with (Zpos my * 2 ^ (ey + K)); [exact Hle|].
      apply Zmult_lt_compat_r; lia. }
  apply pow2_lt_inv in H0; lia.
Qed.

Lemma mag_le_of_ge K M e my ey :
  0 < M -> 0 <= e + K -> 0 <= ey + K ->
  Zpos my * 2 ^ (ey + K) <= M * 2 ^ (e + K) ->
  Zpos (digits2_pos my) + ey <= Zdigits2 M + e.
Proof.
  intros HM HeK HyK Hle.
  pose proof (Zdigits2_bounds M HM) as [_ Hb1].
  pose proof (Zdigits2_pos M HM).
  pose proof (digits2_bounds my) as [Hb2 _].
  assert (2 ^ (Zpos (digits2_pos my) - 1 + (ey + K)) < 2 ^ (Zdigits2 M + (e + K))).
  { rewrite (pow2_add (Zdigits2 M)), (pow2_add (Zpos (digits2_pos my) - 1)) by lia.
    pose proof (pow2_pos (e + K) HeK). pose proof (pow2_pos (ey + K) HyK).
    apply Z.le_lt_trans with (Zpos my * 2 ^ (ey + K)).
    - apply Z.mul_le_mono_nonneg_r; lia.
    - apply Z.le_lt_trans with (M * 2 ^ (e + K)); [exact Hle|].
      apply Zmult_lt_compat_r; lia. }
  apply pow2_lt_inv in H0; lia.
Qed.

(** Rounding never crosses a representable number above the exact value. *)
Lemma round_aux_le K sx M e l my ey :
  0 <= M -> e <= fexp64 (Zdigits2 M + e) ->
  bounded 53 1024 my ey = true ->
  0 <= e + K -> 0 <= ey + K ->
  (l = loc_Exact -> M * 2 ^ (e + K) <= Zpos my * 2 ^ (ey + K)) ->
  (l <> loc_Exact -> M * 2 ^ (e + K) < Zpos my * 2 ^ (ey + K)) ->
  binary_round_aux 53 1024 sx M e l = S754_zero sx \/
  exists mr er,
    binary_round_aux 53 1024 sx M e l = S754_finite sx mr er /\
    bounded 53 1024 mr er = true /\
    Zpos mr * 2 ^ (er + K) <= Zpos my * 2 ^ (ey + K).
Proof.
  intros HM He Hb HeK HyK Hex Hin.
  destruct (bounded_digits my ey Hb) as (Hdy & Hey & Hcan & Hmy).
  assert (Hle: M * 2 ^ (e + K) <= Zpos my * 2 ^ (ey + K)).
  { destruct l; [apply Hex; reflexivity|]. apply Z.lt_le_incl, Hin. discriminate. }
  set (E := fexp64 (Zdigits2 M + e)) in *.
  assert (HE: -1074 <= E) by (unfold E, fexp64; lia).
  assert (HEy: E <= ey).
  { destruct (Z.eq_dec M 0) as [->|HM0].
    - unfold E, fexp64 in *. simpl Zdigits2 in *. lia.
    - rewrite <- Hcan. apply fexp64_mono. apply (mag_le_of_le K); auto; lia. }
  destruct (round_aux_cases sx M e l HM He) as (d' & Hd' & Hexact & Hcases).
  fold E in Hd', Hexact, Hcases.
  set (n := E - e) in *. set (d := M / 2 ^ n) in *.
  assert (Hn: 0 <= n) by (unfold n; lia).
  pose proof (pow2_pos n Hn) as HN.
  pose proof (pow2_pos (e + K) HeK) as HP.
  pose proof (Z.div_mod M (2 ^ n) ltac:(lia)) as Hdm. fold d in Hdm.
  pose proof (Z.mod_pos_bound M (2 ^ n) HN) as Hrem.
  set (k := Zpos my * 2 ^ (ey - E)).
  assert (Hk: Zpos my * 2 ^ (ey + K) = k * (2 ^ n * 2 ^ (e + K))).
  { unfold k. replace (ey + K) with ((ey - E) + (n + (e + K))) by (unfold n; lia).
    rewrite (pow2_add (ey - E)) by lia. rewrite (pow2_add n) by lia. ring. }
  assert (HMk: M <= k * 2 ^ n) by nia.
  assert (Hd'k: d' <= k).
  { destruct (Z.eq_dec (M mod 2 ^ n) 0) as [Hr0|Hr0].
    - destruct l as [|c].
      + rewrite (Hexact eq_refl Hr0). nia.
      + assert (M * 2 ^ (e + K) < Zpos my * 2 ^ (ey + K)) by (apply Hin; discriminate).
        assert (d < k) by nia. lia.
    - assert (d < k) by nia. lia. }
  assert (HEK: E + K = n + (e + K)) by (unfold n; lia).
  destruct Hcases as [[_ Hz]|[(mr & er & Hr & Hbr & HEr & Hmr)|[_ Hov]]].
  - left. exact Hz.
  - right. exists mr, er. split; [exact Hr|]. split; [exact Hbr|].
    replace (er + K) with ((er - E) + (E + K)) by lia.
    rewrite (pow2_add (er - E)) by lia. rewrite Z.mul_assoc, Hmr.
    rewrite Hk, HEK, (pow2_add n) by lia.
    assert (0 < 2 ^ n * 2 ^ (e + K)) by nia. nia.
  - exfalso. destruct Hov as [Hov|[Hov1 Hov2]]; [lia|].
    assert (ey = E) by lia. unfold k in Hd'k.
    replace (ey - E) with 0 in Hd'k by lia. simpl in Hd'k. lia.
Qed.

(** Rounding never crosses a representable number below the exact value. *)
Lemma round_aux_ge K sx M e l my ey :
  0 < M -> e <= fexp64 (Zdigits2 M + e) ->
  bounded 53 1024 my ey = true ->
  0 <= e + K -> 0 <= ey + K ->
  Zpos my * 2 ^ (ey + K) <= M * 2 ^ (e + K) ->
  binary_round_aux 53 1024 sx M e l = S754_infinity sx \/
  exists mr er,
    binary_round_aux 53 1024 sx M e l = S754_finite sx mr er /\
    bounded 53 1024 mr er = true /\
    Zpos my * 2 ^ (ey + K) <= Zpos mr * 2 ^ (er + K).
Proof.
  intros HM He Hb HeK HyK Hle.
  destruct (bounded_digits my ey Hb) as (Hdy & Hey & Hcan & Hmy).
  pose proof (mag_le_of_ge K M e my ey HM HeK HyK Hle) as Hmag.
  set (E := fexp64 (Zdigits2 M + e)) in *.
  assert (HE: -1074 <= E) by (unfold E, fexp64; lia).
  assert (HEy: ey <= E).
  { rewrite <- Hcan. apply fexp64_mono. exact Hmag. }
  destruct (round_aux_cases sx M e l (Z.lt_le_incl _ _ HM) He)
    as (d' & Hd' & _ & Hcases).
  fold E in Hd', Hcases.
  set (n := E - e) in *. set (d := M / 2 ^ n) in *.
  assert (Hn: 0 <= n) by (unfold n; lia).
  pose proof (pow2_pos n Hn) as HN.
  pose proof (pow2_pos (e + K) HeK) as HP.
  pose proof (pow2_pos (ey + K) HyK) as HQ.
  assert (HEK: E + K = n + (e + K)) by (unfold n; lia).
  pose proof (Zdigits2_bounds M HM) as [HbM1 HbM2].
  pose proof (Zdigits2_pos M HM) as HdM.
  pose proof (digits2_bounds my) as [Hby1 Hby2].
  set (dg := Zdigits2 M) in *.
  set (dy := Zpos (digits2_pos my)) in *.
  assert (Hyd: Zpos my * 2 ^ (ey + K) <= d * 2 ^ (E + K)).
  { destruct (Z.eq_dec (dy + ey) (dg + e)) as [Heq|Hne].
    - (* same binade: both live on the grid of [E] *)
      assert (ey = E) by (unfold E; rewrite <- Heq; auto).
      subst ey. rewrite HEK in Hle |- *. rewrite (pow2_add n) in Hle |- * by lia.
      assert (Zpos my * 2 ^ n <= M) by nia.
      assert (Zpos my <= d).
      { unfold d. apply Z.div_le_lower_bound; lia. }
      nia.
    - (* a lower binade: the number is below the first one of the binade of [M] *)
      assert (Hlt: dy + ey <= dg + e - 1) by lia.
      assert (Hn1: n <= dg - 1) by (unfold n, E, fexp64 in *; lia).
      assert (2 ^ (dg - 1 - n) <= d) by (apply div_pow2_ge; lia).
      assert (Zpos my * 2 ^ (ey + K) <= 2 ^ (dy + (ey + K))).
      { rewrite (pow2_add dy) by lia. nia. }
      assert (2 ^ (dy + (ey + K)) <= 2 ^ ((dg - 1 - n) + (E + K))).
      { apply Z.pow_le_mono_r; lia. }
      rewrite (pow2_add (dg - 1 - n)) in H1 by lia.
      assert (0 < 2 ^ (E + K)) by (apply pow2_pos; lia). nia. }
  assert (Hdd': d <= d') by lia.
  assert (HEKpos: 0 < 2 ^ (E + K)) by (apply pow2_pos; lia).
  destruct Hcases as [[Hz0 Hz]|[(mr & er & Hr & Hbr & HEr & Hmr)|[Hinf _]]].
  - exfalso. assert (d = 0) by (assert (0 <= d) by (apply Z.div_pos; lia); lia).
    rewrite H in Hyd. lia.
  - right. exists mr, er. split; [exact Hr|]. split; [exact Hbr|].
    replace (er + K) with ((er - E) + (E + K)) by lia.
    rewrite (pow2_add (er - E)) by lia. rewrite Z.mul_assoc, Hmr. nia.
  - left. exact Hinf.
Qed.

(** Rounding keeps a number that is already on the grid. *)
Lemma round_aux_exact K sx M e :
  0 < M -> e <= fexp64 (Zdigits2 M + e) ->
  M mod 2 ^ (fexp64 (Zdigits2 M + e) - e) = 0 ->
  0 <= e + K ->
  binary_round_aux 53 1024 sx M e loc_Exact = S754_infinity sx \/
  exists mr er,
    binary_round_aux 53 1024 sx M e loc_Exact = S754_finite sx mr er /\
    bounded 53 1024 mr er = true /\
    Zpos mr * 2 ^ (er + K) = M * 2 ^ (e + K).
Proof.
  intros HM He Hmod HeK.
  destruct (round_aux_cases sx M e loc_Exact (Z.lt_le_incl _ _ HM) He)
    as (d' & _ & Hexact & Hcases).
  specialize (Hexact eq_refl Hmod).
  set (E := fexp64 (Zdigits2 M + e)) in *.
  set (n := E - e) in *.
  assert (Hn: 0 <= n) by (unfold n; lia).
  pose proof (pow2_pos n Hn) as HN.
  pose proof (Z.div_mod M (2 ^ n) ltac:(lia)) as Hdm. rewrite Hmod in Hdm.
  destruct Hcases as [[Hz0 _]|[(mr & er & Hr & Hbr & HEr & Hmr)|[Hinf _]]].
  - exfalso. rewrite Hexact in Hz0. rewrite Hz0 in Hdm. lia.
  - right. exists mr, er. split; [exact Hr|]. split; [exact Hbr|].
    replace (er + K) with ((er - E) + (n + (e + K))) by (unfold n; lia).
    rewrite (pow2_add (er - E)) by lia.
    rewrite (pow2_add n) by lia. rewrite Z.mul_assoc, Hmr, Hexact.
    rewrite Hdm at 2. ring.
  - left. exact Hinf.
Qed.

Lemma pos_iter_xO m d : Zpos (Pos.iter xO m d) = Zpos m * 2 ^ Zpos d.
Proof.
  induction d as [|d IH] using Pos.peano_ind.
  - cbn [Pos.iter]. rewrite Pos2Z.inj_xO. change (2 ^ 1) with 2. lia.
  - rewrite Pos.iter_succ. rewrite Pos2Z.inj_xO, IH.
    rewrite Pos2Z.inj_succ, Z.pow_succ_r by lia. ring.
Qed.

Lemma Zdigits2_mul_pow2 M k : 0 < M -> 0 <= k -> Zdigits2 (M * 2 ^ k) = Zdigits2 M + k.
Proof.
  intros HM Hk. pose proof (Zdigits2_bounds M HM) as [H1 H2].
  pose proof (Zdigits2_pos M HM). pose proof (pow2_pos k Hk).
  apply Zdigits2_unique; [|nia].
  replace (Zdigits2 M + k - 1) with ((Zdigits2 M - 1) + k) by lia.
  rewrite !pow2_add by lia. nia.
Qed.

(** [binary_round] first brings the mantissa down to the working exponent. *)
Lemma shl_align_spec m e : 
  let E := fexp64 (Zpos (digits2_pos m) + e) in
  exists m' e',
    shl_align m e E = (m', e') /\
    e' <= fexp64 (Zdigits2 (Zpos m') + e') /\
    e' <= e /\ Zpos m' = Zpos m * 2 ^ (e - e') /\
    fexp64 (Zdigits2 (Zpos m') + e') = E /\ e' = Z.min e E.
Proof.
  intros E. unfold shl_align.
  destruct (E - e) as [|p|p] eqn:Hp.
  - exists m, e. split; [reflexivity|]. simpl Zdigits2. fold E.
    replace (e - e) with 0 by lia. simpl. lia.
  - exists m, e. split; [reflexivity|]. simpl Zdigits2. fold E.
    replace (e - e) with 0 by lia. simpl. lia.
  - exists (Pos.iter xO m p), E. split; [reflexivity|].
    assert (Hm': Zpos (Pos.iter xO m p) = Zpos m * 2 ^ (e - E)).
    { rewrite pos_iter_xO. f_equal. f_equal. lia. }
    assert (Hd: Zdigits2 (Zpos (Pos.iter xO m p)) + E = Zpos (digits2_pos m) + e).
    { rewrite Hm'. rewrite Zdigits2_mul_pow2 by lia. simpl Zdigits2. lia. }
    rewrite Hd. fold E. lia.
Qed.

Ltac fsimpl := cbn [scaled posfin nonneg cond_Zopp] in *.

Lemma posfin_nonneg x : posfin x -> nonneg x.
Proof. destruct x as [| | |[] m e]; fsimpl; auto. Qed.

Lemma posfin_scaled_pos x : posfin x -> 0 < scaled x.
Proof.
  destruct x as [| | |[] m e]; fsimpl; try tauto. intros H.
  destruct (bounded_digits m e H) as (_ & He & _).
  pose proof (pow2_pos (e + 1074) ltac:(lia)). nia.
Qed.

Lemma nonneg_scaled x : nonneg x -> 0 <= scaled x.
Proof.
  destruct x as [| | |[] m e]; fsimpl; try tauto; lia.
Qed.

Lemma nonneg_cases x : nonneg x -> (exists b, x = S754_zero b) \/ posfin x.
Proof. destruct x as [b| | |[] m e]; fsimpl; try tauto; eauto. Qed.

Lemma nonneg_pos x : nonneg x -> 0 < scaled x -> posfin x.
Proof. destruct x as [b| | |[] m e]; fsimpl; try tauto; lia. Qed.

Lemma posfin_inv x :
  posfin x -> exists m e, x = S754_finite false m e /\ bounded 53 1024 m e = true /\
                          scaled x = Zpos m * 2 ^ (e + 1074) /\ -1074 <= e <= 971.
Proof.
  destruct x as [| | |[] m e]; fsimpl; try tauto. intros H.
  destruct (bounded_digits m e H) as (_ & He & _). eauto 10.
Qed.

(** A canonical double is determined by its value. *)
Lemma posfin_eq x y : posfin x -> posfin y -> scaled x = scaled y -> x = y.
Proof.
  destruct x as [| | |[] mx ex]; fsimpl; try tauto.
  destruct y as [| | |[] my ey]; fsimpl; try tauto.
  intros Hx Hy Heq.
  destruct (bounded_digits mx ex Hx) as (_ & Hex & Hcx & _).
  destruct (bounded_digits my ey Hy) as (_ & Hey & Hcy & _).
  assert (H1: Zdigits2 (Zpos mx) + ex <= Zpos (digits2_pos my) + ey).
  { apply (mag_le_of_le 1074); lia. }
  assert (H2: Zpos (digits2_pos my) + ey <= Zdigits2 (Zpos mx) + ex).
  { apply (mag_le_of_ge 1074); lia. }
  simpl Zdigits2 in *.
  assert (ex = ey) by (rewrite <- Hcx, <- Hcy; f_equal; lia).
  subst ey. assert (0 < 2 ^ (ex + 1074)) by (apply pow2_pos; lia).
  assert (Zpos mx = Zpos my) by nia. congruence.
Qed.

Lemma scale_shift K e m : 1074 <= K -> -1074 <= e ->
  Zpos m * 2 ^ (e + K) = Zpos m * 2 ^ (e + 1074) * 2 ^ (K - 1074).
Proof.
  intros. replace (e + K) with ((e + 1074) + (K - 1074)) by lia.
  rewrite pow2_add by lia. ring.
Qed.

Section Round.
Variables (K M e : Z) (l : location) (Y : spec_float).
Hypothesis HK : 1074 <= K.
Hypothesis HeK : 0 <= e + K.
Hypothesis He : e <= fexp64 (Zdigits2 M + e).
Hypothesis HY : posfin Y.

Let r := binary_round_aux 53 1024 false M e l.

Lemma round_le :
  0 <= M ->
  (l = loc_Exact -> M * 2 ^ (e + K) <= scaled Y * 2 ^ (K - 1074)) ->
  (l <> loc_Exact -> M * 2 ^ (e + K) < scaled Y * 2 ^ (K - 1074)) ->
  nonneg r /\ scaled r <= scaled Y.
Proof.
  intros HM H1 H2.
  destruct (posfin_inv Y HY) as (my & ey & -> & Hb & Hs & Hey).
  rewrite Hs in *. rewrite <- scale_shift in H1, H2 by lia.
  destruct (round_aux_le K false M e l my ey) as [Hz|(mr & er & Hr & Hbr & Hle)];
    try assumption; try lia.
  - subst r. rewrite Hz. fsimpl. split; [exact I|].
    pose proof (pow2_pos (ey + 1074) ltac:(lia)). nia.
  - subst r. rewrite Hr. fsimpl. split; [exact Hbr|].
    destruct (bounded_digits mr er Hbr) as (_ & Her & _).
    rewrite !(scale_shift K) in Hle by lia.
    pose proof (pow2_pos (K - 1074) ltac:(lia)). nia.
Qed.

Lemma round_ge :
  0 < M ->
  scaled Y * 2 ^ (K - 1074) <= M * 2 ^ (e + K) ->
  r = S754_infinity false \/ (posfin r /\ scaled Y <= scaled r).
Proof.
  intros HM H1.
  destruct (posfin_inv Y HY) as (my & ey & -> & Hb & Hs & Hey).
  rewrite Hs in *. rewrite <- scale_shift in H1 by lia.
  destruct (round_aux_ge K false M e l my ey) as [Hz|(mr & er & Hr & Hbr & Hle)];
    try assumption; try lia.
  - left. exact Hz.
  - right. subst r. rewrite Hr. fsimpl. split; [exact Hbr|].
    destruct (bounded_digits mr er Hbr) as (_ & Her & _).
    rewrite !(scale_shift K) in Hle by lia.
    pose proof (pow2_pos (K - 1074) ltac:(lia)). nia.
Qed.
End Round.

Lemma round_exact K M e :
  1074 <= K -> 0 <= e + K -> e <= fexp64 (Zdigits2 M + e) ->
  0 < M -> M mod 2 ^ (fexp64 (Zdigits2 M + e) - e) = 0 ->
  let r := binary_round_aux 53 1024 false M e loc_Exact in
  r = S754_infinity false \/
  (posfin r /\ scaled r * 2 ^ (K - 1074) = M * 2 ^ (e + K)).
Proof.
  intros HK HeK He HM Hmod r.
  destruct (round_aux_exact K false M e HM He Hmod HeK) as [Hi|(mr & er & Hr & Hbr & Hv)].
  - left. exact Hi.
  - right. subst r. rewrite Hr. fsimpl. split; [exact Hbr|].
    destruct (bounded_digits mr er Hbr) as (_ & Her & _).
    rewrite <- scale_shift by lia. exact Hv.
Qed.

Section BinaryRound.
Variables (K : Z) (m : positive) (e : Z).
Hypothesis HK : 1074 <= K.
Hypothesis HeK : 0 <= e + K.

Let r := binary_round 53 1024 false m e.

Lemma binary_round_aligned :
  exists m' e',
    r = binary_round_aux 53 1024 false (Zpos m') e' loc_Exact /\
    e' <= fexp64 (Zdigits2 (Zpos m') + e') /\ 0 <= e' + K /\
    Zpos m' * 2 ^ (e' + K) = Zpos m * 2 ^ (e + K) /\
    fexp64 (Zdigits2 (Zpos m') + e') = fexp64 (Zpos (digits2_pos m) + e) /\
    e' = Z.min e (fexp64 (Zpos (digits2_pos m) + e)) /\
    Zpos m' = Zpos m * 2 ^ (e - e').
Proof.
  subst r. unfold binary_round. rewrite fexp_eq.
  destruct (shl_align_spec m e) as (m' & e' & Hsh & He' & Hle' & Hm' & HE & Hmin).
  rewrite Hsh. exists m', e'. split; [reflexivity|].
  assert (He'K: 0 <= e' + K) by (unfold fexp64 in Hmin; lia).
  repeat split; auto.
  rewrite Hm'. replace (e + K) with ((e - e') + (e' + K)) by lia.
  rewrite (pow2_add (e - e')) by lia. ring.
Qed.

Lemma binary_round_le Y :
  posfin Y ->
  Zpos m * 2 ^ (e + K) <= scaled Y * 2 ^ (K - 1074) ->
  nonneg r /\ scaled r <= scaled Y.
Proof.
  intros HY Hle.
  destruct binary_round_aligned as (m' & e' & -> & He' & He'K & Hv & _).
  apply (round_le K); auto; try lia. intros H; congruence.
Qed.

Lemma binary_round_ge Y :
  posfin Y ->
  scaled Y * 2 ^ (K - 1074) <= Zpos m * 2 ^ (e + K) ->
  r = S754_infinity false \/ (posfin r /\ scaled Y <= scaled r).
Proof.
  intros HY Hle.
  destruct binary_round_aligned as (m' & e' & -> & He' & He'K & Hv & _).
  apply (round_ge K); auto; lia.
Qed.

Lemma binary_round_exact :
  (e < fexp64 (Zpos (digits2_pos m) + e) ->
   Zpos m mod 2 ^ (fexp64 (Zpos (digits2_pos m) + e) - e) = 0) ->
  r = S754_infinity false \/
  (posfin r /\ scaled r * 2 ^ (K - 1074) = Zpos m * 2 ^ (e + K)).
Proof.
  intros Hgrid.
  destruct binary_round_aligned as (m' & e' & -> & He' & He'K & Hv & HE & Hmin & Hm').
  rewrite <- Hv. apply round_exact; auto; try lia.
  rewrite HE. set (E := fexp64 (Zpos (digits2_pos m) + e)) in *.
  destruct (Z_lt_le_dec e E) as [Hlt|Hge].
  - assert (He'e: e' = e) by lia. rewrite He'e in *.
    replace (e - e) with 0 in Hm' by lia.
    rewrite Z.pow_0_r, Z.mul_1_r in Hm'. rewrite Hm'. auto.
  - assert (He'E: e' = E) by lia. rewrite He'E.
    replace (E - E) with 0 by lia.
    rewrite Z.pow_0_r. apply Z.mod_1_r.
Qed.
End BinaryRound.

Lemma U_pos : 0 < U.
Proof. unfold U. apply pow2_pos. lia. Qed.

Lemma pow2_U e : -1074 <= e <= 0 -> 2 ^ (e + 1074) * 2 ^ (- e) = U.
Proof.
  intros. unfold U. rewrite <- pow2_add by lia. f_equal. lia.
Qed.

Lemma Zdigits2_mono a b : 0 < a <= b -> Zdigits2 a <= Zdigits2 b.
Proof.
  intros [Ha Hab].
  pose proof (Zdigits2_bounds a Ha) as [H1 _].
  pose proof (Zdigits2_bounds b ltac:(lia)) as [_ H2].
  pose proof (Zdigits2_pos b ltac:(lia)).
  assert (Zdigits2 a - 1 < Zdigits2 b); [|lia].
  apply pow2_lt_inv; lia.
Qed.

Lemma normalize_pos m e s : normalize (Zpos m) e s = binary_round 53 1024 false m e.
Proof. reflexivity. Qed.

Lemma normalize_zero e s : normalize 0 e s = S754_zero s.
Proof. reflexivity. Qed.

Lemma not_nonneg_inf s : ~ nonneg (S754_infinity s).
Proof. simpl. tauto. Qed.

(** Rounding a positive integer mantissa at an exponent no double goes below. *)
Section NormalizeFine.
Variables (D : Z) (e : Z).
Hypothesis HD : 0 < D.
Hypothesis He : -1074 <= e.

Lemma normalize_le Y s :
  posfin Y -> D * 2 ^ (e + 1074) <= scaled Y ->
  nonneg (normalize D e s) /\ scaled (normalize D e s) <= scaled Y.
Proof.
  intros HY Hle. destruct D as [|m|m]; try lia. rewrite normalize_pos.
  apply (binary_round_le 1074); auto; lia.
Qed.

Lemma normalize_ge Y s :
  posfin Y -> scaled Y <= D * 2 ^ (e + 1074) ->
  normalize D e s = S754_infinity false \/
  (posfin (normalize D e s) /\ scaled Y <= scaled (normalize D e s)).
Proof.
  intros HY Hle. destruct D as [|m|m]; try lia. rewrite normalize_pos.
  apply (binary_round_ge 1074); auto; lia.
Qed.

Lemma normalize_exact s :
  (e < fexp64 (Zdigits2 D + e) -> D mod 2 ^ (fexp64 (Zdigits2 D + e) - e) = 0) ->
  normalize D e s = S754_infinity false \/
  (posfin (normalize D e s) /\ scaled (normalize D e s) = D * 2 ^ (e + 1074)).
Proof.
  intros Hg. destruct D as [|m|m]; try lia. rewrite normalize_pos.
  destruct (binary_round_exact 1074 m e) as [Hi|[Hp Hv]]; auto; try lia.
  right. split; [exact Hp|].
  replace (1074 - 1074) with 0 in Hv by lia. rewrite Z.pow_0_r in Hv. lia.
Qed.

(** Exact and below a double: the result is that value. *)
Lemma normalize_exact_le Y s :
  (e < fexp64 (Zdigits2 D + e) -> D mod 2 ^ (fexp64 (Zdigits2 D + e) - e) = 0) ->
  posfin Y -> D * 2 ^ (e + 1074) <= scaled Y ->
  posfin (normalize D e s) /\ scaled (normalize D e s) = D * 2 ^ (e + 1074).
Proof.
  intros Hg HY Hle.
  destruct (normalize_le Y s HY Hle) as [Hn _].
  destruct (normalize_exact s Hg) as [Hi|H]; [|exact H].
  rewrite Hi in Hn. destruct Hn.
Qed.
End NormalizeFine.

Lemma fmod_spec x w :
  nonneg x -> posfin w ->
  nonneg (fmod x w) /\ scaled (fmod x w) = scaled x mod scaled w.
Proof.
  intros Hx Hw.
  destruct (posfin_inv w Hw) as (my & ey & -> & Hbw & Hsw & Hey).
  destruct (nonneg_cases x Hx) as [[b ->]|Hpx].
  { simpl. split; [exact I|]. rewrite Z.mod_0_l; [reflexivity|].
    pose proof (pow2_pos (ey + 1074) ltac:(lia)). nia. }
  destruct (posfin_inv x Hpx) as (mx & ex & -> & Hbx & Hsx & Hex).
  rewrite Hsx, Hsw. cbn [fmod cond_Zopp].
  set (e := Z.min ex ey).
  set (X := Zpos mx * 2 ^ (ex - e)). set (W := Zpos my * 2 ^ (ey - e)).
  assert (HX: 0 < X) by (unfold X; pose proof (pow2_pos (ex - e) ltac:(lia)); nia).
  assert (HW: 0 < W) by (unfold W; pose proof (pow2_pos (ey - e) ltac:(lia)); nia).
  assert (HXs: Zpos mx * 2 ^ (ex + 1074) = X * 2 ^ (e + 1074)).
  { unfold X. replace (ex + 1074) with ((ex - e) + (e + 1074)) by lia.
    rewrite pow2_add by lia. ring. }
  assert (HWs: Zpos my * 2 ^ (ey + 1074) = W * 2 ^ (e + 1074)).
  { unfold W. replace (ey + 1074) with ((ey - e) + (e + 1074)) by lia.
    rewrite pow2_add by lia. ring. }
  pose proof (pow2_pos (e + 1074) ltac:(lia)) as HP.
  rewrite HXs, HWs. rewrite Z.mul_mod_distr_r by lia.
  pose proof (Z.mod_pos_bound X W HW) as Hr.
  pose proof (Z.mod_le X W ltac:(lia) HW) as HrX.
  destruct (Z.eq_dec (X mod W) 0) as [Hz|Hnz].
  { rewrite Hz. rewrite normalize_zero. simpl. split; [exact I|reflexivity]. }
  assert (Hrpos: 0 < X mod W) by lia.
  destruct (normalize_exact_le (X mod W) e Hrpos ltac:(lia)
              (S754_finite false mx ex) false) as [Hp Hv].
  - (* the remainder sits on the grid of the finer operand *)
    intros Hlt. exfalso.
    destruct (bounded_digits mx ex Hbx) as (_ & _ & Hcx & _).
    destruct (bounded_digits my ey Hbw) as (_ & _ & Hcy & _).
    destruct (Z.min_spec ex ey) as [[Hm He]|[Hm He]]; fold e in He.
    + assert (X = Zpos mx).
      { unfold X. rewrite He. replace (ex - ex) with 0 by lia.
        rewrite Z.pow_0_r. lia. }
      assert (Zdigits2 (X mod W) <= Zdigits2 (Zpos mx)) by (apply Zdigits2_mono; lia).
      assert (fexp64 (Zdigits2 (X mod W) + e) <= fexp64 (Zdigits2 (Zpos mx) + ex)).
      { apply fexp64_mono. lia. }
      simpl Zdigits2 in H1 at 2. lia.
    + assert (W = Zpos my).
      { unfold W. rewrite He. replace (ey - ey) with 0 by lia.
        rewrite Z.pow_0_r. lia. }
      assert (Zdigits2 (X mod W) <= Zdigits2 (Zpos my)) by (apply Zdigits2_mono; lia).
      assert (fexp64 (Zdigits2 (X mod W) + e) <= fexp64 (Zdigits2 (Zpos my) + ey)).
      { apply fexp64_mono. lia. }
      simpl Zdigits2 in H1 at 2. lia.
  - exact Hbx.
  - cbn [scaled cond_Zopp]. rewrite HXs. nia.
  - split; [apply posfin_nonneg; exact Hp|exact Hv].
Qed.

Lemma shl_align_fst m e ez :
  ez <= e -> Zpos (fst (shl_align m e ez)) = Zpos m * 2 ^ (e - ez).
Proof.
  intros H. unfold shl_align.
  destruct (ez - e) as [|p|p] eqn:Hd; try lia; cbn [fst].
  - replace (e - ez) with 0 by lia. rewrite Z.pow_0_r. lia.
  - rewrite pos_iter_xO. f_equal. f_equal. lia.
Qed.

Lemma sub_finite mx ex my ey :
  sub (S754_finite false mx ex) (S754_finite false my ey) =
  normalize (Zpos mx * 2 ^ (ex - Z.min ex ey) - Zpos my * 2 ^ (ey - Z.min ex ey))
            (Z.min ex ey) false.
Proof.
  unfold sub, SFsub, normalize. cbn [cond_Zopp].
  rewrite !shl_align_fst by lia. reflexivity.
Qed.

Lemma add_finite mx ex my ey :
  add (S754_finite false mx ex) (S754_finite false my ey) =
  normalize (Zpos mx * 2 ^ (ex - Z.min ex ey) + Zpos my * 2 ^ (ey - Z.min ex ey))
            (Z.min ex ey) false.
Proof.
  unfold add, SFadd, normalize. cbn [cond_Zopp].
  rewrite !shl_align_fst by lia. reflexivity.
Qed.

Lemma scaled_align m e ez :
  -1074 <= ez <= e ->
  Zpos m * 2 ^ (e + 1074) = Zpos m * 2 ^ (e - ez) * 2 ^ (ez + 1074).
Proof.
  intros. replace (e + 1074) with ((e - ez) + (ez + 1074)) by lia.
  rewrite pow2_add by lia. ring.
Qed.

Section Sub.
Variables x y : spec_float.
Hypothesis Hx : nonneg x.
Hypothesis Hy : nonneg y.
Hypothesis Hyx : scaled y <= scaled x.

Lemma sub_cases :
  (scaled x - scaled y = 0 /\ exists b, sub x y = S754_zero b) \/
  (sub x y = x /\ scaled y = 0) \/
  (exists D e, 0 < D /\ -1074 <= e /\ sub x y = normalize D e false /\
               D * 2 ^ (e + 1074) = scaled x - scaled y).
Proof.
  destruct (nonneg_cases y Hy) as [[b ->]|Hpy].
  { destruct (nonneg_cases x Hx) as [[b' ->]|Hpx].
    - left. split; [reflexivity|]. destruct b, b'; simpl; eauto.
    - right. left. destruct (posfin_inv x Hpx) as (mx & ex & -> & _).
      split; reflexivity. }
  pose proof (posfin_scaled_pos y Hpy) as Hy0.
  destruct (nonneg_cases x Hx) as [[b' Hxz]|Hpx].
  { exfalso. subst x. simpl in Hyx. lia. }
  destruct (posfin_inv x Hpx) as (mx & ex & -> & Hbx & Hsx & Hex).
  destruct (posfin_inv y Hpy) as (my & ey & -> & Hby & Hsy & Hey).
  rewrite sub_finite. rewrite Hsx, Hsy in *.
  set (ez := Z.min ex ey) in *.
  rewrite (scaled_align mx ex ez), (scaled_align my ey ez) in * by lia.
  set (X := Zpos mx * 2 ^ (ex - ez)) in *.
  set (W := Zpos my * 2 ^ (ey - ez)) in *.
  pose proof (pow2_pos (ez + 1074) ltac:(lia)) as HP.
  destruct (Z.eq_dec (X - W) 0) as [Hz|Hnz].
  - left. rewrite Hz. split; [nia|]. exists false. reflexivity.
  - right. right. exists (X - W), ez. split; [nia|]. split; [lia|].
    split; [reflexivity|]. ring.
Qed.

Lemma sub_le Y :
  posfin Y -> scaled x - scaled y <= scaled Y ->
  nonneg (sub x y) /\ scaled (sub x y) <= scaled Y.
Proof.
  intros HY Hle. pose proof (posfin_scaled_pos Y HY).
  destruct sub_cases as [[Hz [b ->]]|[[-> Hz]|(D & e & HD & He & -> & Hv)]].
  - simpl. split; [exact I|lia].
  - split; [exact Hx|lia].
  - apply normalize_le; auto. lia.
Qed.

Lemma sub_ge Y :
  posfin Y -> scaled Y <= scaled x - scaled y ->
  sub x y = S754_infinity false \/
  (posfin (sub x y) /\ scaled Y <= scaled (sub x y)).
Proof.
  intros HY Hle. pose proof (posfin_scaled_pos Y HY).
  destruct sub_cases as [[Hz _]|[[-> Hz]|(D & e & HD & He & -> & Hv)]].
  - lia.
  - right. split; [|lia]. apply nonneg_pos; [exact Hx|lia].
  - apply normalize_ge; auto. lia.
Qed.

(** A difference that is a double is computed without error. *)
Lemma sub_exact z :
  nonneg z -> scaled z = scaled x - scaled y ->
  nonneg (sub x y) /\ scaled (sub x y) = scaled z.
Proof.
  intros Hz Hv.
  destruct (nonneg_cases z Hz) as [[b ->]|Hpz].
  - simpl in Hv. cbn [scaled].
    destruct sub_cases as [[_ [b' ->]]|[[-> Hz']|(D & e & HD & He & _ & Hv')]].
    + simpl. auto.
    + split; [exact Hx|lia].
    + pose proof (pow2_pos (e + 1074) ltac:(lia)). nia.
  - destruct (sub_le z Hpz ltac:(lia)) as [Hn Hle].
    destruct (sub_ge z Hpz ltac:(lia)) as [Hi|[_ Hge]].
    + rewrite Hi in Hn. destruct Hn.
    + split; [exact Hn|lia].
Qed.

Lemma sub_nonneg : nonneg (sub x y).
Proof.
  destruct (nonneg_cases x Hx) as [[b Hxz]|Hpx].
  - destruct sub_cases as [[_ [b' ->]]|[[-> _]|(D & e & HD & He & _ & Hv')]].
    + exact I.
    + exact Hx.
    + subst x. simpl in *. pose proof (nonneg_scaled y Hy).
      pose proof (pow2_pos (e + 1074) ltac:(lia)). nia.
  - apply (sub_le x Hpx). pose proof (nonneg_scaled y Hy). lia.
Qed.
End Sub.

Section Add.
Variables x y : spec_float.
Hypothesis Hx : posfin x.
Hypothesis Hy : posfin y.

Lemma add_cases :
  exists D e, 0 < D /\ -1074 <= e /\ add x y = normalize D e false /\
              D * 2 ^ (e + 1074) = scaled x + scaled y.
Proof.
  destruct (posfin_inv x Hx) as (mx & ex & -> & Hbx & Hsx & Hex).
  destruct (posfin_inv y Hy) as (my & ey & -> & Hby & Hsy & Hey).
  rewrite add_finite. rewrite Hsx, Hsy in *.
  set (ez := Z.min ex ey) in *.
  rewrite (scaled_align mx ex ez), (scaled_align my ey ez) in * by lia.
  set (X := Zpos mx * 2 ^ (ex - ez)) in *.
  set (W := Zpos my * 2 ^ (ey - ez)) in *.
  pose proof (pow2_pos (ez + 1074) ltac:(lia)) as HP.
  assert (0 < X) by (unfold X; pose proof (pow2_pos (ex - ez) ltac:(lia)); nia).
  assert (0 < W) by (unfold W; pose proof (pow2_pos (ey - ez) ltac:(lia)); nia).
  exists (X + W), ez. split; [lia|]. split; [lia|]. split; [reflexivity|]. ring.
Qed.

Lemma add_le Y :
  posfin Y -> scaled x + scaled y <= scaled Y ->
  nonneg (add x y) /\ scaled (add x y) <= scaled Y.
Proof.
  intros HY Hle. destruct add_cases as (D & e & HD & He & -> & Hv).
  apply normalize_le; auto. lia.
Qed.

Lemma add_ge Y :
  posfin Y -> scaled Y <= scaled x + scaled y ->
  add x y = S754_infinity false \/
  (posfin (add x y) /\ scaled Y <= scaled (add x y)).
Proof.
  intros HY Hle. destruct add_cases as (D & e & HD & He & -> & Hv).
  apply normalize_ge; auto. lia.
Qed.
End Add.

Lemma two53_posfin : posfin two53.
Proof. reflexivity. Qed.

Lemma two53_scaled : scaled two53 = 2 ^ 53 * U.
Proof.
  unfold two53, U. cbn [scaled cond_Zopp].
  change (Zpos (2 ^ 52)) with (2 ^ 52). rewrite <- !pow2_add by lia. reflexivity.
Qed.

(** Integers below [2^53] are doubles. *)
Lemma of_Z_exact N :
  0 <= N < 2 ^ 53 -> nonneg (of_Z N) /\ scaled (of_Z N) = N * U.
Proof.
  intros [H0 H1]. destruct (Z.eq_dec N 0) as [->|Hnz]; [split; [exact I|reflexivity]|].
  assert (HN: 0 < N) by lia.
  destruct (normalize_exact_le N 0 HN ltac:(lia) two53 false) as [Hp Hv].
  - intros Hlt. exfalso.
    pose proof (Zdigits2_bounds N HN) as [Hb _].
    assert (Zdigits2 N - 1 < 53) by (apply pow2_lt_inv; lia).
    unfold fexp64 in Hlt. lia.
  - exact two53_posfin.
  - rewrite two53_scaled. change (2 ^ (0 + 1074)) with U. pose proof U_pos. nia.
  - split; [apply posfin_nonneg; exact Hp|exact Hv].
Qed.

Lemma trunc_spec x : nonneg x -> trunc x = scaled x / U.
Proof.
  intros Hx. destruct (nonneg_cases x Hx) as [[b ->]|Hpx]; [reflexivity|].
  destruct (posfin_inv x Hpx) as (m & e & -> & Hb & Hs & He).
  rewrite Hs. cbn [trunc cond_Zopp].
  destruct (Z.leb_spec 0 e).
  - unfold U. replace (e + 1074) with (e + 1074) by lia.
    rewrite pow2_add by lia. rewrite Z.mul_assoc.
    rewrite Z.div_mul; [reflexivity|]. apply Z.pow_nonzero; lia.
  - rewrite <- (pow2_U e) by lia. rewrite (Z.mul_comm (Zpos m)).
    rewrite Z.div_mul_cancel_l; [reflexivity| |]; apply Z.pow_nonzero; lia.
Qed.

Lemma trunc_bounds x : nonneg x -> 0 <= trunc x /\ trunc x * U <= scaled x < (trunc x + 1) * U.
Proof.
  intros Hx. rewrite trunc_spec by assumption.
  pose proof (nonneg_scaled x Hx). pose proof U_pos.
  pose proof (Z.div_mod (scaled x) U ltac:(lia)).
  pose proof (Z.mod_pos_bound (scaled x) U ltac:(lia)).
  split; [apply Z.div_pos; lia|nia].
Qed.

(** [float(int(x))] and [floor(x)] give the integer part back exactly. *)
Lemma of_Z_trunc x :
  nonneg x -> nonneg (of_Z (trunc x)) /\ scaled (of_Z (trunc x)) = trunc x * U.
Proof.
  intros Hx. destruct (nonneg_cases x Hx) as [[b ->]|Hpx]; [split; [exact I|reflexivity]|].
  destruct (posfin_inv x Hpx) as (m & e & Hxe & Hb & Hs & He).
  destruct (bounded_digits m e Hb) as (Hd & _ & Hcan & Hm53).
  destruct (Z.leb_spec 0 e) as [Hpos|Hneg].
  - assert (Ht: trunc x = Zpos m * 2 ^ e).
    { subst x. cbn [trunc cond_Zopp]. destruct (Z.leb_spec 0 e); [reflexivity|lia]. }
    rewrite Ht. pose proof (pow2_pos e Hpos).
    assert (HN: 0 < Zpos m * 2 ^ e) by nia.
    destruct (normalize_exact_le (Zpos m * 2 ^ e) 0 HN ltac:(lia) x false) as [Hp Hv].
    + intros _. rewrite Zdigits2_mul_pow2 by lia. simpl Zdigits2.
      replace (Zpos (digits2_pos m) + e + 0) with (Zpos (digits2_pos m) + e) by lia.
      rewrite Hcan. replace (e - 0) with e by lia.
      apply Z_mod_mult.
    + exact Hpx.
    + rewrite Hs. change (0 + 1074) with 1074. rewrite (pow2_add e 1074) by lia.
      rewrite Z.mul_assoc. lia.
    + split; [apply posfin_nonneg; exact Hp|]. exact Hv.
  - apply of_Z_exact. rewrite trunc_spec by assumption. rewrite Hs.
    rewrite <- (pow2_U e) by lia. rewrite (Z.mul_comm (Zpos m)).
    rewrite Z.div_mul_cancel_l by (apply Z.pow_nonzero; lia).
    split; [apply Z.div_pos; [lia|apply pow2_pos; lia]|].
    apply Z.le_lt_trans with (Zpos m); [|lia].
    apply Z.div_le_upper_bound; [apply pow2_pos; lia|].
    pose proof (pow2_pos (- e) ltac:(lia)). nia.
Qed.

Lemma floor_spec x :
  nonneg x -> nonneg (floor x) /\ scaled (floor x) = trunc x * U.
Proof.
  intros Hx. destruct (nonneg_cases x Hx) as [[b ->]|Hpx]; [split; [exact I|reflexivity]|].
  destruct (posfin_inv x Hpx) as (m & e & Hxe & Hb & Hs & He).
  destruct (Z.leb_spec 0 e) as [Hpos|Hneg].
  - assert (floor x = x).
    { subst x. cbn [floor]. destruct (Z.leb_spec 0 e); [reflexivity|lia]. }
    rewrite H. split; [exact Hx|].
    rewrite trunc_spec by assumption. rewrite Hs.
    unfold U. rewrite pow2_add by lia. rewrite Z.mul_assoc.
    rewrite Z.div_mul by (apply Z.pow_nonzero; lia). reflexivity.
  - assert (floor x = of_Z (trunc x)).
    { subst x. cbn [floor trunc cond_Zopp]. destruct (Z.leb_spec 0 e); [lia|]. reflexivity. }
    rewrite H. apply of_Z_trunc. exact Hx.
Qed.

Lemma Zdigits2_mul_ge a b :
  0 < a -> 0 < b -> Zdigits2 a + Zdigits2 b - 1 <= Zdigits2 (a * b).
Proof.
  intros Ha Hb.
  pose proof (Zdigits2_bounds a Ha) as [Ha1 _].
  pose proof (Zdigits2_bounds b Hb) as [Hb1 _].
  pose proof (Zdigits2_pos a Ha). pose proof (Zdigits2_pos b Hb).
  assert (Hab: 0 < a * b) by nia.
  pose proof (Zdigits2_bounds (a * b) Hab) as [_ Hc].
  pose proof (Zdigits2_pos (a * b) Hab).
  assert (2 ^ ((Zdigits2 a - 1) + (Zdigits2 b - 1)) <= a * b).
  { rewrite pow2_add by lia.
    pose proof (pow2_pos (Zdigits2 a - 1) ltac:(lia)).
    pose proof (pow2_pos (Zdigits2 b - 1) ltac:(lia)). nia. }
  assert ((Zdigits2 a - 1) + (Zdigits2 b - 1) < Zdigits2 (a * b)).
  { apply pow2_lt_inv; lia. }
  lia.
Qed.

Lemma U_sq : U * U = 2 ^ 2148.
Proof. unfold U. rewrite <- pow2_add by lia. reflexivity. Qed.

Section Mul.
Variables x y : spec_float.
Hypothesis Hx : posfin x.
Hypothesis Hy : posfin y.

Lemma mul_shape :
  exists M e,
    mul x y = binary_round_aux 53 1024 false M e loc_Exact /\
    0 < M /\ 0 <= e + 2148 /\ e <= fexp64 (Zdigits2 M + e) /\
    M * 2 ^ (e + 2148) = scaled x * scaled y.
Proof.
  destruct (posfin_inv x Hx) as (mx & ex & -> & Hbx & Hsx & Hex).
  destruct (posfin_inv y Hy) as (my & ey & -> & Hby & Hsy & Hey).
  destruct (bounded_digits mx ex Hbx) as (Hdx & _ & Hcx & _).
  destruct (bounded_digits my ey Hby) as (Hdy & _ & Hcy & _).
  exists (Zpos mx * Zpos my), (ex + ey).
  split; [reflexivity|]. split; [lia|]. split; [lia|]. split.
  - pose proof (Zdigits2_mul_ge (Zpos mx) (Zpos my) ltac:(lia) ltac:(lia)) as Hd.
    simpl Zdigits2 in Hd at 1 2.
    pose proof (Pos2Z.is_pos (digits2_pos mx)).
    pose proof (Pos2Z.is_pos (digits2_pos my)).
    unfold fexp64 in *. lia.
  - rewrite Hsx, Hsy.
    replace (ex + ey + 2148) with ((ex + 1074) + (ey + 1074)) by lia.
    rewrite pow2_add by lia. ring.
Qed.

Lemma mul_le Y :
  posfin Y -> scaled x * scaled y <= scaled Y * U ->
  nonneg (mul x y) /\ scaled (mul x y) <= scaled Y.
Proof.
  intros HY Hle. destruct mul_shape as (M & e & -> & HM & HeK & He & Hv).
  apply (round_le 2148); auto; try lia.
  - intros _. rewrite Hv. exact Hle.
  - intros H. congruence.
Qed.

Lemma mul_ge Y :
  posfin Y -> scaled Y * U <= scaled x * scaled y ->
  mul x y = S754_infinity false \/
  (posfin (mul x y) /\ scaled Y <= scaled (mul x y)).
Proof.
  intros HY Hle. destruct mul_shape as (M & e & -> & HM & HeK & He & Hv).
  apply (round_ge 2148); auto; try lia.
  rewrite Hv. exact Hle.
Qed.
End Mul.

Lemma new_location_exact n k :
  (new_location n k = loc_Exact <-> k = 0).
Proof.
  unfold new_location, new_location_even, new_location_odd.
  destruct (Z.even n); destruct (Z.eqb_spec k 0); split; intros; try congruence; auto;
    try discriminate.
  all: destruct (_ ?= _); discriminate.
Qed.

Lemma shift_match m s :
  0 <= s ->
  match s with
  | 0 => m
  | Zpos _ => Z.shiftl m s
  | Zneg _ => 0
  end = m * 2 ^ s.
Proof.
  intros Hs. destruct s as [|p|p]; try lia.
  rewrite Z.shiftl_mul_pow2 by lia. reflexivity.
Qed.

Section Div.
Variables x w : spec_float.
Hypothesis Hx : posfin x.
Hypothesis Hw : posfin w.

Lemma div_shape :
  exists q e l mw m',
    div x w = binary_round_aux 53 1024 false q e l /\
    0 < mw /\ 0 <= m' /\ q = m' / mw /\
    (l = loc_Exact <-> m' mod mw = 0) /\
    0 <= e + 2148 /\ e <= fexp64 (Zdigits2 q + e) /\
    (e <= -1074 \/ 2 ^ 52 <= q) /\
    m' * 2 ^ (e + 2148) * scaled w = scaled x * U * mw * U.
Proof.
  destruct (posfin_inv x Hx) as (mx & ex & -> & Hbx & Hsx & Hex).
  destruct (posfin_inv w Hw) as (my & ey & -> & Hby & Hsy & Hey).
  destruct (bounded_digits mx ex Hbx) as (Hdx & _ & Hcx & _).
  destruct (bounded_digits my ey Hby) as (Hdy & _ & Hcy & _).
  unfold div, SFdiv, SFdiv_core_binary. cbn [xorb]. rewrite fexp_eq.
  simpl Zdigits2.
  set (dx := Zpos (digits2_pos mx)) in *. set (dy := Zpos (digits2_pos my)) in *.
  assert (Hdx0: 0 < dx) by (unfold dx; lia).
  assert (Hdy0: 0 < dy) by (unfold dy; lia).
  set (e' := Z.min (fexp64 (dx + ex - (dy + ey))) (ex - ey)).
  set (s := ex - ey - e').
  assert (Hs: 0 <= s) by (unfold s, e'; lia).
  set (m' := match s with
             | 0 => Zpos mx
             | Zpos _ => Z.shiftl (Zpos mx) s
             | Zneg _ => 0
             end).
  assert (Hm': m' = Zpos mx * 2 ^ s).
  { unfold m'. apply shift_match. exact Hs. }
  pose proof (pow2_pos s Hs) as H2s.
  assert (Hm'pos: 0 < m') by nia.
  unfold Z.div_eucl at 1. fold (Z.div_eucl m' (Zpos my)).
  assert (Hde: Z.div_eucl m' (Zpos my) = (m' / Zpos my, m' mod Zpos my)).
  { unfold Z.div, Z.modulo. destruct (Z.div_eucl m' (Zpos my)); reflexivity. }
  rewrite Hde.
  exists (m' / Zpos my), e', (new_location (Zpos my) (m' mod Zpos my)), (Zpos my), m'.
  split; [reflexivity|]. split; [lia|]. split; [lia|]. split; [reflexivity|].
  split; [apply new_location_exact|].
  assert (He'lo: -2148 <= e') by (unfold e', fexp64; lia).
  split; [lia|].
  assert (Hq: e' <= -1074 \/ 2 ^ 52 <= m' / Zpos my).
  { destruct (Z_le_gt_dec e' (-1074)) as [Hle|Hgt]; [left; exact Hle|right].
    assert (He'eq: e' = dx + ex - (dy + ey) - 53) by (unfold e', fexp64 in *; lia).
    assert (Hseq: s = 53 - dx + dy) by (unfold s; lia).
    pose proof (digits2_bounds mx) as [Hbx1 _]. fold dx in Hbx1.
    pose proof (digits2_bounds my) as [_ Hby2]. fold dy in Hby2.
    apply Z.div_le_lower_bound; [lia|].
    assert (2 ^ (52 + dy) <= m').
    { rewrite Hm'. replace (52 + dy) with ((dx - 1) + s) by lia.
      rewrite pow2_add by lia. nia. }
    rewrite pow2_add in H by lia. pose proof (pow2_pos 52 ltac:(lia)). nia. }
  split; [|split; [exact Hq|]].
  - destruct Hq as [Hq|Hq]; [unfold fexp64; lia|].
    assert (52 < Zdigits2 (m' / Zpos my)).
    { pose proof (Zdigits2_bounds (m' / Zpos my) ltac:(pose proof (pow2_pos 52); lia)) as [_ Hb].
      apply pow2_lt_inv; [|lia].
      pose proof (Zdigits2_pos (m' / Zpos my) ltac:(pose proof (pow2_pos 52); lia)). lia. }
    unfold fexp64. lia.
  - rewrite Hsx, Hsy, Hm'.
    assert (Hpow: 2 ^ s * 2 ^ (e' + 2148) * 2 ^ (ey + 1074) = 2 ^ (ex + 1074) * (U * U)).
    { rewrite U_sq. rewrite <- !pow2_add by lia. f_equal. unfold s. lia. }
    transitivity (Zpos mx * Zpos my * (2 ^ s * 2 ^ (e' + 2148) * 2 ^ (ey + 1074))); [ring|].
    rewrite Hpow. ring.
Qed.

Lemma div_le Y :
  posfin Y -> scaled x * U <= scaled Y * scaled w ->
  nonneg (div x w) /\ scaled (div x w) <= scaled Y.
Proof.
  intros HY Hle.
  destruct div_shape as (q & e & l & mw & m' & -> & Hmw & Hm' & Hq & Hl & HeK & He & _ & Hv).
  pose proof (posfin_scaled_pos w Hw) as Hw0. pose proof U_pos as HU.
  pose proof (pow2_pos (e + 2148) HeK) as HA.
  pose proof (Z.div_mod m' mw ltac:(lia)) as Hdm. rewrite <- Hq in Hdm.
  pose proof (Z.mod_pos_bound m' mw Hmw) as Hr.
  assert (Hq0: 0 <= q) by (subst q; apply Z.div_pos; lia).
  assert (Hmain: m' * 2 ^ (e + 2148) <= scaled Y * U * mw).
  { apply Z.mul_le_mono_pos_r with (p := scaled w); [lia|].
    rewrite Hv.
    assert (Hstep: scaled x * U * (mw * U) <= scaled Y * scaled w * (mw * U)).
    { apply Z.mul_le_mono_nonneg_r; [nia|exact Hle]. }
    replace (scaled x * U * mw * U) with (scaled x * U * (mw * U)) by ring.
    replace (scaled Y * U * mw * scaled w) with (scaled Y * scaled w * (mw * U)) by ring.
    exact Hstep. }
  replace (2148 - 1074) with 1074 by lia. fold U.
  apply (round_le 2148); auto; try lia;
    replace (2148 - 1074) with 1074 by lia; fold U.
  - intros Hex. apply Hl in Hex. rewrite Hex in Hdm.
    apply Z.mul_le_mono_pos_r with (p := mw); [lia|]. nia.
  - intros Hin. assert (m' mod mw <> 0) by (intros H0; apply Hin, Hl, H0).
    apply Z.mul_lt_mono_pos_r with (p := mw); [lia|]. nia.
Qed.

Lemma div_ge Y :
  posfin Y -> scaled Y * scaled w <= scaled x * U ->
  div x w = S754_infinity false \/
  (posfin (div x w) /\ scaled Y <= scaled (div x w)).
Proof.
  intros HY Hle.
  destruct div_shape as (q & e & l & mw & m' & -> & Hmw & Hm' & Hq & Hl & HeK & He & Hbig & Hv).
  pose proof (posfin_scaled_pos w Hw) as Hw0. pose proof U_pos as HU.
  pose proof (pow2_pos (e + 2148) HeK) as HA.
  pose proof (Z.div_mod m' mw ltac:(lia)) as Hdm. rewrite <- Hq in Hdm.
  pose proof (Z.mod_pos_bound m' mw Hmw) as Hr.
  assert (Hq0: 0 <= q) by (subst q; apply Z.div_pos; lia).
  assert (Hmain: scaled Y * U * mw <= m' * 2 ^ (e + 2148)).
  { apply Z.mul_le_mono_pos_r with (p := scaled w); [lia|].
    rewrite Hv.
    assert (Hstep: scaled Y * scaled w * (mw * U) <= scaled x * U * (mw * U)).
    { apply Z.mul_le_mono_nonneg_r; [nia|exact Hle]. }
    replace (scaled x * U * mw * U) with (scaled x * U * (mw * U)) by ring.
    replace (scaled Y * U * mw * scaled w) with (scaled Y * scaled w * (mw * U)) by ring.
    exact Hstep. }
  destruct (posfin_inv Y HY) as (mY & eY & HYe & HbY & HsY & HeY).
  destruct (bounded_digits mY eY HbY) as (_ & _ & _ & HmY).
  assert (Hgoal: scaled Y * U <= q * 2 ^ (e + 2148) /\ 0 < q).
  { assert (HYU: scaled Y * U = Zpos mY * 2 ^ (eY + 2148)).
    { rewrite HsY. unfold U. rewrite <- Z.mul_assoc, <- pow2_add by lia.
      f_equal. f_equal. lia. }
    rewrite HYU in *.
    destruct (Z_le_gt_dec e eY) as [HeY'|HeY'].
    - (* the bound lies on the grid of the quotient *)
      pose proof (pow2_pos (eY - e) ltac:(lia)).
      set (k := Zpos mY * 2 ^ (eY - e)).
      assert (Hk: Zpos mY * 2 ^ (eY + 2148) = k * 2 ^ (e + 2148)).
      { unfold k. replace (eY + 2148) with ((eY - e) + (e + 2148)) by lia.
        rewrite pow2_add by lia. ring. }
      rewrite Hk in *.
      assert (0 < k) by (unfold k; apply Z.mul_pos_pos; lia).
      assert (k * mw <= m').
      { apply Z.mul_le_mono_pos_r with (p := 2 ^ (e + 2148)); [lia|].
        replace (k * mw * 2 ^ (e + 2148)) with (k * 2 ^ (e + 2148) * mw) by ring.
        exact Hmain. }
      assert (k <= q) by (rewrite Hq; apply Z.div_le_lower_bound; lia).
      split; [|lia]. apply Z.mul_le_mono_nonneg_r; lia.
    - (* the bound is below the binade of the quotient *)
      assert (H52: 2 ^ 52 <= q) by lia.
      pose proof (pow2_pos 52 ltac:(lia)).
      split; [|lia].
      assert (2 ^ (eY + 2148) * 2 <= 2 ^ (e + 2148)).
      { replace (e + 2148) with ((eY + 2148) + (e - eY)) by lia.
        rewrite (pow2_add (eY + 2148) (e - eY)) by lia.
        assert (2 ^ 1 <= 2 ^ (e - eY)) by (apply Z.pow_le_mono_r; lia).
        pose proof (pow2_pos (eY + 2148) ltac:(lia)). change (2 ^ 1) with 2 in *.
        apply Z.mul_le_mono_nonneg_l; lia. }
      pose proof (pow2_pos (eY + 2148) ltac:(lia)).
      change (2 ^ 53) with (2 ^ 52 * 2) in HmY.
      apply Z.le_trans with (2 ^ 52 * 2 * 2 ^ (eY + 2148)).
      + apply Z.mul_le_mono_nonneg_r; lia.
      + apply Z.le_trans with (2 ^ 52 * 2 ^ (e + 2148)).
        * rewrite <- Z.mul_assoc. apply Z.mul_le_mono_nonneg_l; lia.
        * apply Z.mul_le_mono_nonneg_r; lia. }
  destruct Hgoal as [Hg1 Hg2].
  apply (round_ge 2148); auto; try lia.
Qed.
End Div.

Lemma nonneg_zero_iff x : nonneg x -> (is_zero x = true <-> scaled x = 0).
Proof.
  intros Hx. destruct (nonneg_cases x Hx) as [[b ->]|Hp].
  - simpl. tauto.
  - pose proof (posfin_scaled_pos x Hp).
    destruct (posfin_inv x Hp) as (m & e & -> & _). simpl is_zero.
    split; [discriminate|lia].
Qed.

Lemma nonneg_is_zero x : nonneg x -> scaled x = 0 -> exists b, x = S754_zero b.
Proof.
  intros Hx Hs. destruct (nonneg_cases x Hx) as [H|Hp]; [exact H|].
  pose proof (posfin_scaled_pos x Hp). lia.
Qed.

Lemma ltb_nonneg_zero x : nonneg x -> ltb x zero = false.
Proof.
  intros Hx. destruct (nonneg_cases x Hx) as [[b ->]|Hp]; [reflexivity|].
  destruct (posfin_inv x Hp) as (m & e & -> & _). reflexivity.
Qed.

Lemma ltb_half_zero b : ltb half (S754_zero b) = false.
Proof. reflexivity. Qed.

Lemma max_float_posfin : posfin max_float.
Proof. reflexivity. Qed.

Lemma nonneg_le_max x : nonneg x -> scaled x <= scaled max_float.
Proof.
  intros Hx. destruct (nonneg_cases x Hx) as [[b ->]|Hp].
  - simpl. lia.
  - destruct (posfin_inv x Hp) as (m & e & -> & Hb & Hs & He).
    destruct (bounded_digits m e Hb) as (_ & _ & _ & Hm).
    cbn [scaled cond_Zopp max_float].
    replace (971 + 1074) with ((971 - e) + (e + 1074)) by lia.
    rewrite (pow2_add (971 - e) (e + 1074)) by lia.
    pose proof (pow2_pos (e + 1074) ltac:(lia)).
    pose proof (pow2_pos (971 - e) ltac:(lia)).
    change (2 ^ 53) with 9007199254740992 in Hm.
    set (A := 2 ^ (e + 1074)) in *. set (B := 2 ^ (971 - e)) in *.
    apply Z.le_trans with (9007199254740991 * A).
    + apply Z.mul_le_mono_nonneg_r; lia.
    + rewrite Z.mul_assoc. apply Z.mul_le_mono_nonneg_r; [lia|]. nia.
Qed.

Lemma max_float_lt : scaled max_float < 2 ^ 1024 * U.
Proof. vm_compute. reflexivity. Qed.

Lemma one_posfin : posfin one.
Proof. reflexivity. Qed.

Lemma one_scaled : scaled one = U.
Proof. reflexivity. Qed.

Lemma two1023_posfin : posfin two1023.
Proof. reflexivity. Qed.

Lemma two1023_scaled : scaled two1023 = 2 ^ 1023 * U.
Proof. vm_compute. reflexivity. Qed.

Lemma two1023_succ : 2 ^ 1023 * U + U <= scaled max_float.
Proof. vm_compute. discriminate. Qed.

(** ** [x // w] and [x % w] for a non-negative [x] and an integer divisor *)
Section DivMod.
Variables (x w : spec_float) (c : Z).
Hypothesis Hx : nonneg x.
Hypothesis Hw : posfin w.
Hypothesis Hc : 2 <= c < 2 ^ 53.
Hypothesis Hwc : scaled w = c * U.

Let v := scaled x.
Let q := v / (c * U).

Lemma q_bounds : 0 <= q /\ q * (c * U) <= v < (q + 1) * (c * U).
Proof.
  pose proof U_pos. pose proof (nonneg_scaled x Hx). fold v in H0.
  assert (0 < c * U) by nia.
  pose proof (Z.div_mod v (c * U) ltac:(lia)). fold q in H2.
  pose proof (Z.mod_pos_bound v (c * U) H1).
  split; [apply Z.div_pos; lia|nia].
Qed.

Lemma fmod_w : nonneg (fmod x w) /\ scaled (fmod x w) = v mod (c * U).
Proof. rewrite <- Hwc. apply fmod_spec; assumption. Qed.

Lemma float_rem_spec :
  nonneg (float_rem x w) /\ scaled (float_rem x w) = v mod (c * U).
Proof.
  unfold float_rem. destruct fmod_w as [Hn Hs].
  destruct (is_zero (fmod x w)) eqn:Hz; cbn [negb].
  - apply (nonneg_zero_iff _ Hn) in Hz. rewrite <- Hs, Hz.
    split; [exact I|reflexivity].
  - rewrite (ltb_nonneg_zero w (posfin_nonneg w Hw)), (ltb_nonneg_zero _ Hn).
    cbn [xorb]. split; assumption.
Qed.

(** The dividend minus the remainder, as computed. *)
Let t := sub x (fmod x w).

Lemma t_diff : scaled (fmod x w) <= v /\ v - scaled (fmod x w) = q * (c * U).
Proof.
  destruct fmod_w as [Hn Hs]. rewrite Hs.
  pose proof U_pos. pose proof (nonneg_scaled x Hx) as Hv0. fold v in Hv0.
  assert (Hcu: 0 < c * U) by nia.
  pose proof (Z.div_mod v (c * U) ltac:(lia)) as Hdm. fold q in Hdm.
  split; [apply Z.mod_le; lia|lia].
Qed.

Lemma t_nonneg : nonneg t /\ scaled t <= v.
Proof.
  destruct fmod_w as [Hn Hs]. destruct t_diff as [Hle Hd].
  assert (Hnt: nonneg t) by (apply sub_nonneg; auto).
  split; [exact Hnt|].
  destruct (nonneg_cases x Hx) as [[b Hxz]|Hpx].
  - destruct (nonneg_is_zero (fmod x w) Hn) as [b' Hf].
    { pose proof (nonneg_scaled _ Hn). unfold v in Hle.
      assert (scaled x = 0) by (rewrite Hxz; reflexivity). lia. }
    unfold t, v. rewrite Hf, Hxz. destruct b, b'; cbv; discriminate.
  - apply (sub_le x (fmod x w) Hx Hn Hle x Hpx).
    pose proof (nonneg_scaled _ Hn). lia.
Qed.

Lemma t_ge Y : posfin Y -> scaled Y <= q * (c * U) -> posfin t /\ scaled Y <= scaled t.
Proof.
  intros HY HYq. destruct fmod_w as [Hn Hs]. destruct t_diff as [Hle Hd].
  destruct t_nonneg as [Hnt _].
  destruct (sub_ge x (fmod x w) Hx Hn Hle Y HY) as [Hi|H']; [fold v; lia| |exact H'].
  fold t in Hi. rewrite Hi in Hnt. destruct Hnt.
Qed.

Lemma t_exact : c * q < 2 ^ 53 -> scaled t = q * (c * U).
Proof.
  intros Hq. destruct fmod_w as [Hn Hs]. destruct t_diff as [Hle Hd].
  destruct (of_Z_exact (c * q)) as [Hzn Hzs]; [destruct q_bounds; nia|].
  replace (q * (c * U)) with (c * q * U) by ring. rewrite <- Hzs.
  apply (sub_exact x (fmod x w) Hx Hn Hle _ Hzn). fold v. rewrite Hzs. lia.
Qed.

Let d := div t w.

Lemma d_zero : scaled t = 0 -> exists b, d = S754_zero b.
Proof.
  intros Ht. destruct t_nonneg as [Hnt _].
  destruct (nonneg_is_zero t Hnt Ht) as [b Hb].
  unfold d. rewrite Hb. destruct (posfin_inv w Hw) as (mw & ew & -> & _).
  eexists. reflexivity.
Qed.

Lemma d_nonneg : nonneg d /\ scaled d <= 2 ^ 1023 * U.
Proof.
  destruct t_nonneg as [Hnt Htv]. pose proof U_pos.
  destruct (nonneg_cases t Hnt) as [[b Htz]|Hpt].
  - destruct (d_zero ltac:(rewrite Htz; reflexivity)) as [b' ->].
    cbn [nonneg scaled]. split; [exact I|]. pose proof (pow2_pos 1023 ltac:(lia)). nia.
  - rewrite <- two1023_scaled.
    apply (div_le t w Hpt Hw two1023 two1023_posfin).
    rewrite Hwc, two1023_scaled.
    pose proof (nonneg_le_max t Hnt). pose proof max_float_lt.
    assert (scaled t < 2 ^ 1024 * U) by lia.
    change (2 ^ 1024) with (2 ^ 1023 * 2) in H2.
    pose proof (pow2_pos 1023 ltac:(lia)).
    apply Z.le_trans with (2 ^ 1023 * 2 * U * U).
    + apply Z.mul_le_mono_nonneg_r; lia.
    + replace (2 ^ 1023 * U * (c * U)) with (2 ^ 1023 * c * U * U) by ring.
      repeat apply Z.mul_le_mono_nonneg_r; lia.
Qed.

Lemma d_ge Y : posfin Y -> scaled Y * c <= scaled t -> posfin d /\ scaled Y <= scaled d.
Proof.
  intros HY HYt. destruct t_nonneg as [Hnt _]. destruct d_nonneg as [Hdn _].
  pose proof (posfin_scaled_pos Y HY). pose proof U_pos.
  assert (Hpt: posfin t) by (apply nonneg_pos; [exact Hnt|nia]).
  destruct (div_ge t w Hpt Hw Y HY) as [Hi|H']; [|fold d in Hi; rewrite Hi in Hdn; destruct Hdn|exact H'].
  rewrite Hwc. replace (scaled Y * (c * U)) with (scaled Y * c * U) by ring.
  apply Z.mul_le_mono_nonneg_r; lia.
Qed.

Lemma d_le Y : posfin Y -> scaled t <= scaled Y * c -> scaled d <= scaled Y.
Proof.
  intros HY HYt. destruct t_nonneg as [Hnt _]. pose proof U_pos.
  destruct (nonneg_cases t Hnt) as [[b Htz]|Hpt].
  - destruct (d_zero ltac:(rewrite Htz; reflexivity)) as [b' ->].
    cbn [scaled]. pose proof (posfin_scaled_pos Y HY). lia.
  - apply (div_le t w Hpt Hw Y HY).
    rewrite Hwc. replace (scaled Y * (c * U)) with (scaled Y * c * U) by ring.
    apply Z.mul_le_mono_nonneg_r; lia.
Qed.

Lemma d_exact : c * q < 2 ^ 53 -> scaled d = q * U.
Proof.
  intros Hq. pose proof (t_exact Hq) as Ht. pose proof U_pos.
  destruct q_bounds as [Hq0 _].
  destruct (Z.eq_dec q 0) as [Hz|Hnz].
  - rewrite Hz in *. destruct (d_zero ltac:(lia)) as [b ->]. reflexivity.
  - destruct (of_Z_exact q) as [Hzn Hzs]; [nia|].
    assert (Hzp: posfin (of_Z q)) by (apply nonneg_pos; [exact Hzn|nia]).
    destruct (d_ge (of_Z q) Hzp) as [_ Hge]; [rewrite Hzs, Ht; lia|].
    pose proof (d_le (of_Z q) Hzp ltac:(rewrite Hzs, Ht; lia)) as Hle.
    lia.
Qed.

(** The quotient of [_float_div_mod]. *)
Let fd := fst (float_div_mod x w).

Lemma fd_eq :
  fd = if negb (is_zero d) then
         if ltb half (sub d (floor d)) then add (floor d) one else floor d
       else copysign_zero (div x w).
Proof.
  unfold fd, float_div_mod. fold t. fold d.
  destruct fmod_w as [Hn _].
  rewrite (ltb_nonneg_zero w (posfin_nonneg w Hw)), (ltb_nonneg_zero _ Hn).
  cbn [xorb]. destruct (negb (is_zero (fmod x w))); reflexivity.
Qed.

Lemma floor_d : nonneg (floor d) /\ scaled (floor d) = (scaled d / U) * U /\
                scaled (floor d) <= scaled d.
Proof.
  destruct d_nonneg as [Hdn _].
  destruct (floor_spec d Hdn) as [Hfn Hfs]. rewrite trunc_spec in Hfs by assumption.
  split; [exact Hfn|]. split; [exact Hfs|].
  rewrite Hfs. pose proof U_pos. pose proof (nonneg_scaled d Hdn).
  pose proof (Z.div_mod (scaled d) U ltac:(lia)).
  pose proof (Z.mod_pos_bound (scaled d) U ltac:(lia)). nia.
Qed.

Lemma fd_nonneg : nonneg fd.
Proof.
  rewrite fd_eq. destruct d_nonneg as [Hdn Hdb].
  destruct floor_d as (Hfn & Hfs & Hfd).
  destruct (is_zero d); cbn [negb]; [exact I|].
  destruct (ltb half (sub d (floor d))); [|exact Hfn].
  destruct (nonneg_cases _ Hfn) as [[b ->]|Hpf].
  - exact one_posfin.
  - apply (add_le (floor d) one Hpf one_posfin max_float max_float_posfin).
    rewrite one_scaled. pose proof two1023_succ. lia.
Qed.

Lemma trunc_fd_ge n :
  1 <= n -> c * n < 2 ^ 53 -> n <= q -> n <= trunc fd.
Proof.
  intros Hn1 Hn53 Hnq. pose proof U_pos as HU.
  pose proof fd_nonneg as Hfdn.
  rewrite (trunc_spec fd Hfdn).
  destruct (of_Z_exact (c * n)) as [Hz1 Hs1]; [nia|].
  assert (Hp1: posfin (of_Z (c * n))) by (apply nonneg_pos; [exact Hz1|nia]).
  destruct (t_ge _ Hp1) as [Hpt Htn]; [rewrite Hs1; nia|].
  destruct (of_Z_exact n) as [Hz2 Hs2]; [nia|].
  assert (Hp2: posfin (of_Z n)) by (apply nonneg_pos; [exact Hz2|nia]).
  destruct (d_ge _ Hp2) as [Hpd Hdn]; [rewrite Hs2, Hs1 in *; nia|].
  rewrite Hs2 in Hdn.
  destruct floor_d as (Hfn & Hfs & Hfd).
  assert (Hfl: n * U <= scaled (floor d)).
  { rewrite Hfs. apply Z.mul_le_mono_nonneg_r; [lia|].
    apply Z.div_le_lower_bound; lia. }
  assert (Hgoal: n * U <= scaled fd).
  { revert Hfdn. rewrite fd_eq.
    assert (Hiz: is_zero d = false).
    { destruct (posfin_inv d Hpd) as (md & ed & Hde & _). rewrite Hde. reflexivity. }
    rewrite Hiz. cbn [negb].
    destruct (ltb half (sub d (floor d))); [|intros; exact Hfl].
    intros Hadd.
    assert (Hpf: posfin (floor d)) by (apply nonneg_pos; [exact Hfn|nia]).
    destruct (add_ge (floor d) one Hpf one_posfin (floor d) Hpf) as [Hi|[_ H']].
    - rewrite one_scaled. lia.
    - rewrite Hi in Hadd. destruct Hadd.
    - lia. }
  apply Z.div_le_lower_bound; lia.
Qed.

Lemma trunc_fd_exact : c * q < 2 ^ 53 -> trunc fd = q.
Proof.
  intros Hq. pose proof (d_exact Hq) as Hd. pose proof U_pos as HU.
  destruct d_nonneg as [Hdn _]. destruct q_bounds as [Hq0 _].
  rewrite fd_eq.
  destruct (Z.eq_dec q 0) as [Hz|Hnz].
  - rewrite Hz in *. destruct (nonneg_is_zero d Hdn ltac:(lia)) as [b ->].
    reflexivity.
  - assert (Hpd: posfin d) by (apply nonneg_pos; [exact Hdn|nia]).
    assert (Hiz: is_zero d = false).
    { destruct (posfin_inv d Hpd) as (md & ed & Hde & _). rewrite Hde. reflexivity. }
    rewrite Hiz. cbn [negb].
    destruct floor_d as (Hfn & Hfs & Hfd).
    rewrite Hd in Hfs. rewrite Z.div_mul in Hfs by lia.
    destruct (sub_exact d (floor d) Hdn Hfn Hfd (S754_zero false) I) as [Hsn Hss].
    { cbn [scaled]. lia. }
    destruct (nonneg_is_zero _ Hsn Hss) as [b ->].
    rewrite ltb_half_zero.
    rewrite (trunc_spec _ Hfn), Hfs. apply Z.div_mul. lia.
Qed.
End DivMod.

Lemma int_nonneg f : nonneg f -> Num.int (Float f) = Ok (trunc f).
Proof.
  intros H. destruct (nonneg_cases f H) as [[b ->]|Hp]; [reflexivity|].
  destruct (posfin_inv f Hp) as (m & e & -> & _). reflexivity.
Qed.

Lemma int_to_float_nonneg n :
  nonneg (of_Z n) -> Num.int_to_float n = Ok (of_Z n).
Proof.
  unfold Num.int_to_float. destruct (of_Z n); simpl; try tauto; reflexivity.
Qed.

Section Constant.
Variable c : Z.
Hypothesis Hc : 2 <= c < 2 ^ 53.

Lemma const_posfin : posfin (of_Z c) /\ scaled (of_Z c) = c * U.
Proof.
  destruct (of_Z_exact c ltac:(lia)) as [Hn Hs]. split; [|exact Hs].
  apply nonneg_pos; [exact Hn|]. pose proof U_pos. nia.
Qed.

Lemma const_to_float : Num.int_to_float c = Ok (of_Z c).
Proof. apply int_to_float_nonneg, posfin_nonneg, const_posfin. Qed.

Lemma const_nonzero : is_zero (of_Z c) = false.
Proof.
  destruct const_posfin as [Hp _].
  destruct (posfin_inv _ Hp) as (m & e & -> & _). reflexivity.
Qed.

Lemma floordiv_float f :
  Num.floordiv (Float f) (Int c) = Ok (Float (fst (float_div_mod f (of_Z c)))).
Proof.
  unfold Num.floordiv, Num.to_float. rewrite const_to_float.
  cbn [rbind]. rewrite const_nonzero. reflexivity.
Qed.

Lemma modulo_float f :
  Num.modulo (Float f) (Int c) = Ok (Float (float_rem f (of_Z c))).
Proof.
  unfold Num.modulo, Num.to_float. rewrite const_to_float.
  cbn [rbind]. rewrite const_nonzero. reflexivity.
Qed.

Lemma mul_float f :
  Num.mul (Float f) (Int c) = Ok (Float (mul f (of_Z c))).
Proof.
  unfold Num.mul, Num.to_float. rewrite const_to_float. reflexivity.
Qed.
End Constant.

Lemma sub_float_whole f :
  nonneg f ->
  Num.sub (Float f) (Int (trunc f)) = Ok (Float (sub f (of_Z (trunc f)))).
Proof.
  intros H. unfold Num.sub, Num.to_float.
  rewrite int_to_float_nonneg by (apply of_Z_trunc; exact H). reflexivity.
Qed.

(** The fractional part is a double and the subtraction finds it. *)
Lemma frac_spec f :
  nonneg f ->
  nonneg (sub f (of_Z (trunc f))) /\ scaled (sub f (of_Z (trunc f))) = scaled f mod U.
Proof.
  intros H. destruct (of_Z_trunc f H) as [Hn Hs].
  destruct (trunc_bounds f H) as (Ht0 & Ht1 & Ht2).
  destruct (fmod_spec f one H one_posfin) as [Hfn Hfs]. rewrite one_scaled in Hfs.
  rewrite <- Hfs.
  apply sub_exact; auto; try lia.
  rewrite Hfs, Hs. rewrite trunc_spec by assumption.
  pose proof U_pos. pose proof (Z.div_mod (scaled f) U ltac:(lia)). lia.
Qed.

Lemma pred_one_posfin : posfin pred_one.
Proof. reflexivity. Qed.

Lemma pred_one_scaled : scaled pred_one = U - 2 ^ 1021.
Proof. vm_compute. reflexivity. Qed.

Lemma frac_small f :
  nonneg f -> scaled f mod U = U - 2 ^ 1021 \/ scaled f mod U <= U - 2 ^ 1022.
Proof.
  intros H. pose proof U_pos as HU.
  assert (HU22: 2 ^ 1022 <= U) by (vm_compute; discriminate).
  destruct (nonneg_cases f H) as [[b ->]|Hp].
  { right. cbn [scaled]. rewrite Z.mod_0_l by lia. lia. }
  destruct (posfin_inv f Hp) as (m & e & -> & Hb & Hs & He).
  destruct (bounded_digits m e Hb) as (_ & _ & _ & Hm).
  rewrite Hs. clear Hs.
  destruct (Z_le_gt_dec 0 e) as [He0|He0].
  - right. unfold U at 1. rewrite pow2_add by lia. rewrite Z.mul_assoc.
    rewrite Z_mod_mult. lia.
  - set (g := 2 ^ (e + 1074)).
    assert (Hg: 0 < g) by (apply pow2_pos; lia).
    assert (HUg: U = 2 ^ (- e) * g).
    { unfold g, U. rewrite <- pow2_add by lia. f_equal. lia. }
    pose proof (pow2_pos (- e) ltac:(lia)) as Hne.
    assert (Hmod: (Zpos m * g) mod U = (Zpos m mod 2 ^ (- e)) * g).
    { rewrite HUg. apply Z.mul_mod_distr_r; lia. }
    rewrite Hmod.
    pose proof (Z.mod_pos_bound (Zpos m) (2 ^ (- e)) Hne) as Hr.
    destruct (Z_le_gt_dec (-52) e) as [He52|He52].
    + right.
      assert (2 ^ 1022 <= g) by (apply Z.pow_le_mono_r; lia).
      assert ((Zpos m mod 2 ^ (- e)) * g <= U - g) by (rewrite HUg; nia).
      lia.
    + destruct (Z.eq_dec e (-53)) as [He53|He53].
      * subst e. change (- -53) with 53 in *.
        rewrite Z.mod_small by lia.
        assert (Hg21: g = 2 ^ 1021) by reflexivity.
        assert (HU53: U = 2 ^ 53 * 2 ^ 1021) by (vm_compute; reflexivity).
        assert (H22: 2 ^ 1022 = 2 * 2 ^ 1021) by (vm_compute; reflexivity).
        rewrite Hg21. destruct (Z.eq_dec (Zpos m) (2 ^ 53 - 1)) as [Heq|Hne'].
        -- left. rewrite Heq, HU53. ring.
        -- right. rewrite HU53, H22. pose proof (pow2_pos 1021 ltac:(lia)). nia.
      * right.
        assert (g <= 2 ^ 1020) by (apply Z.pow_le_mono_r; lia).
        assert (HU20: U = 2 ^ 54 * 2 ^ 1020) by (vm_compute; reflexivity).
        assert (H22: 2 ^ 1022 = 4 * 2 ^ 1020) by (vm_compute; reflexivity).
        pose proof (Z.mod_le (Zpos m) (2 ^ (- e)) ltac:(lia) Hne).
        pose proof (pow2_pos 1020 ltac:(lia)).
        assert ((Zpos m mod 2 ^ (- e)) * g <= 2 ^ 53 * 2 ^ 1020).
        { apply Z.mul_le_mono_nonneg; lia. }
        rewrite HU20, H22. change (2 ^ 54) with (2 * 2 ^ 53).
        change (2 ^ 53) with 9007199254740992 in *. nia.
Qed.

Lemma pred_1000_posfin : posfin pred_1000.
Proof. reflexivity. Qed.

Lemma pred_1000_scaled : scaled pred_1000 = 1000 * U - 2 ^ 1031.
Proof. vm_compute. reflexivity. Qed.

Lemma c1000 : posfin (of_Z 1000) /\ scaled (of_Z 1000) = 1000 * U.
Proof. apply const_posfin. vm_compute. split; discriminate || reflexivity. Qed.

(** [int(frac * 1000)] stays below a thousand. *)
Lemma millis_spec x :
  nonneg x -> scaled x < U ->
  (scaled x = U - 2 ^ 1021 \/ scaled x <= U - 2 ^ 1022) ->
  nonneg (mul x (of_Z 1000)) /\ 0 <= trunc (mul x (of_Z 1000)) <= 999.
Proof.
  intros Hx Hlt Hsmall. destruct c1000 as [Hp1000 Hs1000]. pose proof U_pos as HU.
  assert (Hres: nonneg (mul x (of_Z 1000)) /\ scaled (mul x (of_Z 1000)) < 1000 * U).
  { destruct (nonneg_cases x Hx) as [[b ->]|Hp].
    - destruct (posfin_inv _ Hp1000) as (m & e & -> & _). cbn [mul SFmul nonneg scaled].
      split; [exact I|lia].
    - destruct Hsmall as [Heq|Hle].
      + assert (x = pred_one).
        { apply posfin_eq; [exact Hp|exact pred_one_posfin|].
          rewrite pred_one_scaled. exact Heq. }
        subst x. vm_compute. split; reflexivity.
      + destruct (mul_le x (of_Z 1000) Hp Hp1000 pred_1000 pred_1000_posfin) as [Hn Hb].
        * rewrite Hs1000, pred_1000_scaled.
          assert (H31: 2 ^ 1031 <= 1000 * 2 ^ 1022) by (vm_compute; discriminate).
          replace (scaled x * (1000 * U)) with (1000 * scaled x * U) by ring.
          apply Z.mul_le_mono_nonneg_r; lia.
        * split; [exact Hn|]. rewrite pred_1000_scaled in Hb.
          pose proof (pow2_pos 1031 ltac:(lia)). lia. }
  destruct Hres as [Hn Hb]. split; [exact Hn|].
  rewrite trunc_spec by assumption.
  pose proof (nonneg_scaled _ Hn).
  split; [apply Z.div_pos; lia|].
  assert (scaled (mul x (of_Z 1000)) / U < 1000); [|lia].
  apply Z.div_lt_upper_bound; lia.
Qed.

Lemma mod_div_units v a b :
  0 <= v -> 0 < a -> 0 < b ->
  (v mod (a * b * U)) / (b * U) = ((v / U) mod (a * b)) / b.
Proof.
  intros Hv Ha Hb. pose proof U_pos as HU.
  replace (a * b * U) with (U * (a * b)) by ring.
  rewrite Z.rem_mul_r by nia.
  replace (b * U) with (U * b) by ring.
  rewrite <- Z.div_div by lia.
  f_equal. rewrite Z.add_comm, Z.mul_comm.
  rewrite Z.div_add_l by lia.
  rewrite (Z.div_small (v mod U)); [lia|]. apply Z.mod_pos_bound. lia.
Qed.

Lemma mod_units v a :
  0 <= v -> 0 < a -> (v mod (a * U)) / U = (v / U) mod a.
Proof.
  intros Hv Ha. pose proof U_pos as HU.
  replace (a * U) with (U * a) by ring.
  rewrite Z.rem_mul_r by nia.
  rewrite Z.add_comm, Z.mul_comm.
  rewrite Z.div_add_l by lia.
  rewrite (Z.div_small (v mod U)); [lia|]. apply Z.mod_pos_bound. lia.
Qed.

Lemma c3600 : 2 <= 3600 < 2 ^ 53. Proof. vm_compute. split; discriminate || reflexivity. Qed.
Lemma c60 : 2 <= 60 < 2 ^ 53. Proof. vm_compute. split; discriminate || reflexivity. Qed.
Lemma c1000' : 2 <= 1000 < 2 ^ 53. Proof. vm_compute. split; discriminate || reflexivity. Qed.

Section FloatTimestamp.
Variable f : spec_float.
Hypothesis Hf : nonneg f.

Let v := scaled f.

Lemma hours_float :
  exists fd, Num.floordiv (Float f) (Int 3600) = Ok (Float fd) /\
             Num.int (Float fd) = Ok (Num.hours (Float f)) /\
             0 <= Num.hours (Float f) /\
             (v < 2 ^ 53 * U -> Num.hours (Float f) = v / U / 3600) /\
             (360000 * U <= v -> 100 <= Num.hours (Float f)).
Proof.
  destruct (const_posfin 3600 c3600) as [Hp Hs].
  pose proof (fd_nonneg f (of_Z 3600) 3600 Hf Hp c3600 Hs) as Hn.
  exists (fst (float_div_mod f (of_Z 3600))).
  split; [apply floordiv_float, c3600|].
  split; [apply int_nonneg, Hn|].
  pose proof U_pos as HU. pose proof (nonneg_scaled f Hf) as Hv0. fold v in Hv0.
  cbn [Num.hours]. split; [|split].
  - rewrite trunc_spec by assumption. apply Z.div_pos; [apply nonneg_scaled|]; assumption.
  - intros Hlt.
    rewrite (trunc_fd_exact f (of_Z 3600) 3600 Hf Hp c3600 Hs).
    + fold v. rewrite Z.div_div by lia. f_equal; ring.
    + fold v. destruct (q_bounds f 3600 Hf c3600) as [Hq0 [Hq1 _]]. fold v in Hq0, Hq1.
      set (q := v / (3600 * U)) in *. nia.
  - intros Hge.
    apply (trunc_fd_ge f (of_Z 3600) 3600 Hf Hp c3600 Hs); [lia|vm_compute; reflexivity|].
    fold v. apply Z.div_le_lower_bound; nia.
Qed.

Lemma minutes_float :
  exists r fd, Num.modulo (Float f) (Int 3600) = Ok (Float r) /\
               Num.floordiv (Float r) (Int 60) = Ok (Float fd) /\
               Num.int (Float fd) = Ok ((v / U) mod 3600 / 60).
Proof.
  destruct (const_posfin 3600 c3600) as [Hp Hs].
  destruct (const_posfin 60 c60) as [Hp60 Hs60].
  destruct (float_rem_spec f (of_Z 3600) 3600 Hf Hp Hs) as [Hrn Hrs]. fold v in Hrs.
  set (r := float_rem f (of_Z 3600)) in *.
  exists r, (fst (float_div_mod r (of_Z 60))).
  split; [apply modulo_float, c3600|]. split; [apply floordiv_float, c60|].
  pose proof (fd_nonneg r (of_Z 60) 60 Hrn Hp60 c60 Hs60) as Hn.
  rewrite int_nonneg by exact Hn. f_equal.
  pose proof U_pos as HU. pose proof (nonneg_scaled f Hf) as Hv0. fold v in Hv0.
  assert (Hrlt: scaled r < 3600 * U).
  { rewrite Hrs. apply Z.mod_pos_bound. lia. }
  pose proof (nonneg_scaled r Hrn) as Hr0.
  rewrite (trunc_fd_exact r (of_Z 60) 60 Hrn Hp60 c60 Hs60).
  - rewrite Hrs. apply (mod_div_units v 60 60); lia.
  - assert (scaled r / (60 * U) < 60).
    { apply Z.div_lt_upper_bound; lia. }
    assert (0 <= scaled r / (60 * U)) by (apply Z.div_pos; lia).
    change (2 ^ 53) with 9007199254740992. lia.
Qed.

Lemma secs_float :
  exists r, Num.modulo (Float f) (Int 60) = Ok (Float r) /\
            Num.int (Float r) = Ok ((v / U) mod 60).
Proof.
  destruct (const_posfin 60 c60) as [Hp60 Hs60].
  destruct (float_rem_spec f (of_Z 60) 60 Hf Hp60 Hs60) as [Hrn Hrs]. fold v in Hrs.
  exists (float_rem f (of_Z 60)).
  split; [apply modulo_float, c60|].
  rewrite int_nonneg by exact Hrn. f_equal.
  rewrite trunc_spec by exact Hrn. rewrite Hrs.
  apply mod_units; [apply nonneg_scaled; exact Hf|lia].
Qed.

Lemma millis_float :
  exists fr p, Num.int (Float f) = Ok (trunc f) /\
               Num.sub (Float f) (Int (trunc f)) = Ok (Float fr) /\
               Num.mul (Float fr) (Int 1000) = Ok (Float p) /\
               Num.int (Float p) = Ok (Num.millis (Float f)) /\
               0 <= Num.millis (Float f) <= 999.
Proof.
  destruct (frac_spec f Hf) as [Hfn Hfs].
  set (fr := sub f (of_Z (trunc f))) in *.
  pose proof U_pos as HU.
  assert (Hlt: scaled fr < U) by (rewrite Hfs; apply Z.mod_pos_bound; lia).
  assert (Hsm: scaled fr = U - 2 ^ 1021 \/ scaled fr <= U - 2 ^ 1022).
  { rewrite Hfs. apply frac_small. exact Hf. }
  destruct (millis_spec fr Hfn Hlt Hsm) as [Hpn Hpb].
  exists fr, (mul fr (of_Z 1000)).
  split; [apply int_nonneg, Hf|]. split; [apply sub_float_whole, Hf|].
  split; [apply mul_float, c1000'|].
  split; [apply int_nonneg, Hpn|exact Hpb].
Qed.

Lemma format_timestamp_float :
  format_timestamp (Float f) =
  Ok (Str.format_int 2 (Num.hours (Float f)) +:+ ":"
      +:+ Str.format_int 2 (Num.whole (Float f) mod 3600 / 60) +:+ ":"
      +:+ Str.format_int 2 (Num.whole (Float f) mod 60) +:+ ","
      +:+ Str.format_int 3 (Num.millis (Float f))).
Proof.
  destruct hours_float as (fd & H1 & H2 & _).
  destruct minutes_float as (r & fd2 & H3 & H4 & H5).
  destruct secs_float as (r2 & H6 & H7).
  destruct millis_float as (fr & p & H8 & H9 & H10 & H11 & _).
  unfold format_timestamp.
  rewrite H1; cbn [rbind]. rewrite H2; cbn [rbind].
  rewrite H3; cbn [rbind]. rewrite H4; cbn [rbind]. rewrite H5; cbn [rbind].
  rewrite H6; cbn [rbind]. rewrite H7; cbn [rbind].
  rewrite H8; cbn [rbind]. rewrite H9; cbn [rbind].
  rewrite H10; cbn [rbind]. rewrite H11; cbn [rbind].
  reflexivity.
Qed.
End FloatTimestamp.

Lemma whole_int z : Num.whole (Int z) = z.
Proof. unfold Num.whole, Num.scaled. apply Z.div_mul. pose proof U_pos. lia. Qed.

Lemma format_timestamp_int z :
  format_timestamp (Int z) =
  Ok (Str.format_int 2 (Num.hours (Int z)) +:+ ":"
      +:+ Str.format_int 2 (Num.whole (Int z) mod 3600 / 60) +:+ ":"
      +:+ Str.format_int 2 (Num.whole (Int z) mod 60) +:+ ","
      +:+ Str.format_int 3 (Num.millis (Int z))).
Proof.
  rewrite whole_int. unfold format_timestamp.
  change (Num.floordiv (Int z) (Int 3600)) with (Ok (Int (z / 3600))).
  change (Num.modulo (Int z) (Int 3600)) with (Ok (Int (z mod 3600))).
  change (Num.modulo (Int z) (Int 60)) with (Ok (Int (z mod 60))).
  cbn [rbind Num.int].
  change (Num.floordiv (Int (z mod 3600)) (Int 60)) with (Ok (Int (z mod 3600 / 60))).
  change (Num.sub (Int z) (Int z)) with (Ok (Int (z - z))).
  cbn [rbind Num.int].
  change (Num.mul (Int (z - z)) (Int 1000)) with (Ok (Int ((z - z) * 1000))).
  cbn [rbind Num.int Num.hours Num.millis].
  replace ((z - z) * 1000) with 0 by lia. reflexivity.
Qed.

End B64.

(** ** Decimal text *)

Module StrFacts.
Import Str.

Lemma app_cons c s1 s2 : String c s1 +:+ s2 = String c (s1 +:+ s2).
Proof. reflexivity. Qed.

Lemma app_nil s : "" +:+ s = s.
Proof. reflexivity. Qed.

Lemma parse_digits_app acc s1 s2 :
  parse_digits acc (s1 +:+ s2) =
  match parse_digits acc s1 with
  | Some a => parse_digits a s2
  | None => None
  end.
Proof.
  revert acc. induction s1 as [|c s1 IH]; intros acc; [reflexivity|].
  rewrite app_cons. cbn [parse_digits]. destruct (is_digit c); [apply IH|reflexivity].
Qed.

Lemma digit_char d :
  0 <= d <= 9 -> is_digit (chr (48 + d)) = true /\ ord (chr (48 + d)) - 48 = d.
Proof.
  intros H.
  assert (d = 0 \/ d = 1 \/ d = 2 \/ d = 3 \/ d = 4 \/
          d = 5 \/ d = 6 \/ d = 7 \/ d = 8 \/ d = 9) as Hd by lia.
  repeat (destruct Hd as [->|Hd]; [split; reflexivity|]). subst d. split; reflexivity.
Qed.

Lemma length_app s1 s2 :
  String.length (s1 +:+ s2) = (String.length s1 + String.length s2)%nat.
Proof.
  induction s1 as [|c s1 IH]; [reflexivity|].
  rewrite app_cons. cbn [String.length]. rewrite IH. reflexivity.
Qed.

Lemma dec_spec fuel n acc :
  0 <= n < 10 ^ Z.of_nat fuel ->
  let L := Z.of_nat (String.length (dec fuel n)) in
  parse_digits acc (dec fuel n) = Some (acc * 10 ^ L + n) /\
  n < 10 ^ L /\ (1 <= n -> 1 <= L /\ 10 ^ (L - 1) <= n) /\
  ((0 < fuel)%nat -> 1 <= L).
Proof.
  revert n acc. induction fuel as [|fuel IH]; intros n acc Hn L.
  - subst L. cbn [dec String.length parse_digits]. change (10 ^ Z.of_nat 0) with 1 in *.
    assert (n = 0) by lia. subst n. 
    split; [f_equal; lia|]. split; [lia|]. split; [lia|lia].
  - rewrite Nat2Z.inj_succ, Z.pow_succ_r in Hn by lia.
    pose proof (Z.div_mod n 10 ltac:(lia)) as Hdm.
    pose proof (Z.mod_pos_bound n 10 ltac:(lia)) as Hm.
    destruct (digit_char (n mod 10) ltac:(lia)) as [Hd1 Hd2].
    subst L. cbn [dec]. destruct (Z.ltb_spec n 10) as [Hlt|Hge].
    + rewrite app_nil. cbn [String.length parse_digits]. rewrite Hd1, Hd2.
      rewrite Z.mod_small by lia. change (10 ^ Z.of_nat 1) with 10.
      split; [f_equal; lia|]. split; [lia|]. split; [|lia].
      intros. change (10 ^ (Z.of_nat 1 - 1)) with 1. lia.
    + assert (Hq: 0 <= n / 10 < 10 ^ Z.of_nat fuel).
      { split; [apply Z.div_pos; lia|]. apply Z.div_lt_upper_bound; lia. }
      destruct (IH (n / 10) acc Hq) as (Hp & Hlt' & Hge' & _).
      set (L' := Z.of_nat (String.length (dec fuel (n / 10)))) in *.
      assert (Hq1: 1 <= n / 10) by (apply Z.div_le_lower_bound; lia).
      destruct (Hge' Hq1) as [HL1 Hlow].
      rewrite parse_digits_app, Hp. cbn [parse_digits]. rewrite Hd1, Hd2.
      rewrite length_app. cbn [String.length].
      replace (Z.of_nat (String.length (dec fuel (n / 10)) + 1)) with (L' + 1) by (unfold L'; lia).
      rewrite Z.pow_add_r by lia. change (10 ^ 1) with 10.
      split; [f_equal; lia|]. split; [lia|]. split; [|lia].
      intros _. split; [lia|]. replace (L' + 1 - 1) with ((L' - 1) + 1) by lia.
      rewrite Z.pow_add_r by lia. change (10 ^ 1) with 10. lia.
Qed.

Lemma fuel_enough n : 0 <= n -> n < 10 ^ Z.of_nat (S (Z.to_nat (Z.log2 n))).
Proof.
  intros Hn. destruct (Z.eq_dec n 0) as [->|Hnz]; [reflexivity|].
  pose proof (Z.log2_spec n ltac:(lia)) as [_ Hlog].
  pose proof (Z.log2_nonneg n) as Hl0.
  rewrite Nat2Z.inj_succ, Z2Nat.id by lia.
  apply Z.lt_le_trans with (2 ^ Z.succ (Z.log2 n)); [exact Hlog|].
  apply Z.pow_le_mono_l. lia.
Qed.

Lemma digits_spec n acc :
  0 <= n ->
  let L := Z.of_nat (String.length (digits n)) in
  parse_digits acc (digits n) = Some (acc * 10 ^ L + n) /\
  1 <= L /\ n < 10 ^ L /\ (1 <= n -> 10 ^ (L - 1) <= n).
Proof.
  intros Hn L. unfold digits in *.
  destruct (dec_spec (S (Z.to_nat (Z.log2 n))) n acc) as (H1 & H2 & H3 & H4).
  { split; [exact Hn|apply fuel_enough; exact Hn]. }
  fold L in H1, H2, H3, H4 |- *.
  split; [exact H1|]. split; [lia|]. split; [exact H2|]. intros H. apply H3, H.
Qed.

Lemma parse_int_digits n : 0 <= n -> parse_int (digits n) = Some n.
Proof.
  intros Hn. destruct (digits_spec n 0 Hn) as (H1 & H2 & _).
  unfold parse_int. destruct (digits n) eqn:E; [simpl in H2; lia|].
  rewrite H1. f_equal; lia.
Qed.

Lemma parse_digits_zeros k s : parse_digits 0 (zeros k +:+ s) = parse_digits 0 s.
Proof.
  induction k as [|k IH]; [reflexivity|].
  cbn [zeros]. rewrite app_cons. exact IH.
Qed.

Lemma length_zeros k : String.length (zeros k) = k.
Proof. induction k; cbn; congruence. Qed.

(** [format(n, '0w')] of a non-negative integer: at least [w] characters,
    all of the digits kept, and the number read back by [int]. *)
Lemma format_int_spec w n :
  0 <= n ->
  format_int w n = zeros (w - String.length (digits n)) +:+ digits n /\
  String.length (format_int w n) = Nat.max w (String.length (digits n)) /\
  parse_int (format_int w n) = Some n.
Proof.
  intros Hn. unfold format_int. destruct (Z.ltb_spec n 0); [lia|].
  split; [reflexivity|]. split.
  - rewrite length_app, length_zeros. lia.
  - destruct (digits_spec n 0 Hn) as (H1 & H2 & _).
    unfold parse_int.
    destruct (zeros _ +:+ digits n) eqn:E.
    + apply (f_equal String.length) in E. rewrite length_app in E. simpl in E. lia.
    + rewrite <- E. rewrite parse_digits_zeros, H1. f_equal; lia.
Qed.

Lemma digits_length_le n k :
  0 <= n < 10 ^ Z.of_nat k -> (0 < k)%nat -> (String.length (digits n) <= k)%nat.
Proof.
  intros [Hn Hlt] Hk. destruct (digits_spec n 0 Hn) as (_ & H2 & H3 & H4).
  destruct (Z.eq_dec n 0) as [->|Hnz].
  - change (String.length (digits 0)) with 1%nat. lia.
  - specialize (H4 ltac:(lia)).
    set (L := Z.of_nat (String.length (digits n))) in *.
    assert (10 ^ (L - 1) < 10 ^ Z.of_nat k) by lia.
    apply Z.pow_lt_mono_r_iff in H; lia.
Qed.

Lemma digits_length_ge n k :
  10 ^ Z.of_nat k <= n -> (k < String.length (digits n))%nat.
Proof.
  intros Hge. assert (Hn: 0 <= n) by (pose proof (Z.pow_nonneg 10 (Z.of_nat k)); lia).
  destruct (digits_spec n 0 Hn) as (_ & H2 & H3 & _).
  set (L := Z.of_nat (String.length (digits n))) in *.
  assert (10 ^ Z.of_nat k < 10 ^ L) by lia.
  apply Z.pow_lt_mono_r_iff in H; lia.
Qed.

Lemma format_int_width w n :
  (0 < w)%nat -> 0 <= n < 10 ^ Z.of_nat w -> String.length (format_int w n) = w.
Proof.
  intros Hw Hn. destruct (format_int_spec w n ltac:(lia)) as (_ & H & _).
  rewrite H. pose proof (digits_length_le n w Hn Hw). lia.
Qed.

Lemma format_int_wide w n :
  10 ^ Z.of_nat w <= n -> (w < String.length (format_int w n))%nat.
Proof.
  intros Hn. assert (Hn0: 0 <= n) by (pose proof (Z.pow_nonneg 10 (Z.of_nat w)); lia).
  destruct (format_int_spec w n Hn0) as (_ & H & _).
  rewrite H. pose proof (digits_length_ge n w Hn). lia.
Qed.

End StrFacts.

Lemma format_timestamp_value s :
  Num.nonneg s ->
  format_timestamp s =
  Ok (Str.format_int 2 (Num.hours s) +:+ ":"
      +:+ Str.format_int 2 (Num.whole s mod 3600 / 60) +:+ ":"
      +:+ Str.format_int 2 (Num.whole s mod 60) +:+ ","
      +:+ Str.format_int 3 (Num.millis s)).
Proof.
  destruct s as [z|f]; intros H.
  - apply B64.format_timestamp_int.
  - apply B64.format_timestamp_float. exact H.
Qed.

Lemma format_timestamp_text s :
  Num.nonneg s -> format_timestamp s = Ok (timestamp_text s).
Proof.
  intros H. unfold timestamp_text. rewrite (format_timestamp_value s H). reflexivity.
Qed.

(** Outside those numbers the function need not return: infinity has no
    integer part. *)
Example format_timestamp_infinity :
  format_timestamp (Float (S754_infinity false))
  = Raise (ValueError "cannot convert float NaN to integer").
Proof. reflexivity. Qed.

Module SrtFacts.
Import Srt StrFacts.

Lemma srt_block_ok i sg :
  segment_ok sg ->
  srt_block i sg = Ok (firstn 3 (srt_lines i [sg])).
Proof.
  intros [H1 H2]. unfold srt_block.
  rewrite (format_timestamp_text _ H1), (format_timestamp_text _ H2). reflexivity.
Qed.

Lemma srt_loop_ok segs : forall i acc,
  Forall segment_ok segs ->
  srt_loop i segs acc = Ok (acc ++ srt_lines i segs)%list.
Proof.
  induction segs as [|sg rest IH]; intros i acc Hall.
  - cbn [srt_loop srt_lines]. rewrite app_nil_r. reflexivity.
  - inversion Hall as [|? ? Hsg Hrest]; subst.
    cbn [srt_loop]. rewrite (srt_block_ok i sg Hsg). cbn [rbind].
    rewrite (IH (i + 1) _ Hrest). cbn [srt_lines firstn].
    rewrite <- app_assoc. reflexivity.
Qed.

Lemma str_app_assoc a b c : (a +:+ b) +:+ c = a +:+ (b +:+ c).
Proof.
  induction a as [|x a IH]; [reflexivity|].
  rewrite !app_cons. rewrite IH. reflexivity.
Qed.

Lemma join_cons2 sep a b l :
  Str.join sep (a :: b :: l) = a +:+ sep +:+ Str.join sep (b :: l).
Proof. reflexivity. Qed.

Lemma join_lines_blocks segs : forall i,
  Str.join Str.newline (srt_lines i segs) = Str.join Str.newline (srt_blocks i segs).
Proof.
  induction segs as [|sg rest IH]; intros i; [reflexivity|].
  cbn [srt_lines srt_blocks]. specialize (IH (i + 1)).
  rewrite 2!join_cons2.
  destruct rest as [|sg' rest'].
  - cbn [srt_lines srt_blocks Str.join]. unfold srt_block_text.
    rewrite !str_app_assoc. reflexivity.
  - remember (srt_lines (i + 1) (sg' :: rest')) as L eqn:HL.
    remember (srt_blocks (i + 1) (sg' :: rest')) as Bs eqn:HB.
    destruct L as [|h t]; [discriminate|].
    destruct Bs as [|h' t']; [discriminate|].
    rewrite 2!join_cons2. rewrite IH.
    unfold srt_block_text. rewrite !str_app_assoc. reflexivity.
Qed.



(** What [save_srt_file] does to the world, in every case. *)
Lemma save_srt_file_empty res p w :
  default [] (segments res) = [] ->
  save_srt_file res p w =
  (Ok tt, set_stdout (fun out => out ++ ["Нет сегментов для сохранения в формате SRT."])%list w).
Proof. intros H. unfold save_srt_file. rewrite H. reflexivity. Qed.

Lemma save_srt_file_writable res p w segs :
  default [] (segments res) = segs -> segs <> [] -> Forall segment_ok segs ->
  writable w p ->
  save_srt_file res p w =
  (Ok tt,
   set_stdout (fun out => out ++ ["SRT транскрипция сохранена в " +:+ p +:+ Str.newline])%list
     (set_files (fun fs => <[p := srt_document segs]> fs)
        (set_dirs (fun ds => {[Path.dirname p]} ∪ ds) w))).
Proof.
  intros Hs Hne Hall (Hd1 & Hd2 & Hd3 & Hp1 & Hp2 & Hp3).
  unfold save_srt_file. rewrite Hs.
  destruct segs as [|sg rest]; [congruence|].
  unfold bind, lift. rewrite (srt_loop_ok _ 1 [] Hall). cbn [app].
  unfold OS.makedirs.
  rewrite (proj2 (String.eqb_neq _ _) Hd1).
  rewrite (bool_decide_eq_false_2 _ Hd2).
  rewrite (bool_decide_eq_false_2 _ Hd3).
  unfold OS.write_text. cbn [dirs denied set_dirs].
  rewrite bool_decide_eq_false_2.
  2:{ intros Hin. apply elem_of_union in Hin. destruct Hin as [Hin|Hin]; [|exact (Hp1 Hin)].
      apply elem_of_singleton in Hin. exact (Hp2 Hin). }
  rewrite (bool_decide_eq_false_2 _ Hp3).
  rewrite (proj2 (String.eqb_neq _ _) Hd1). cbn [negb andb].
  rewrite bool_decide_eq_true_2 by set_solver. cbn [negb].
  unfold OS.print. rewrite join_lines_blocks. reflexivity.
Qed.

(** Whatever the OS answers, the files afterwards are the files before,
    with at most the subtitle file replaced. *)
Lemma save_srt_file_files res p w :
  let '(r, w') := save_srt_file res p w in
  (files w' = files w \/
   (r = Ok tt /\ default [] (segments res) <> [] /\
    exists c, files w' = <[p := c]> (files w) /\
              (Forall segment_ok (default [] (segments res)) ->
               c = srt_document (default [] (segments res))))) /\
  denied w' = denied w /\ transcribed w' = transcribed w /\
  (r <> Ok tt -> files w' = files w).
Proof.
  unfold save_srt_file.
  destruct (default [] (segments res)) as [|sg rest] eqn:Hs.
  - cbn. split; [left; reflexivity|]. repeat split; auto.
  - unfold bind, lift.
    destruct (srt_loop 1 (sg :: rest) []) as [lines|e] eqn:Hloop.
    2:{ cbn. split; [left; reflexivity|]. repeat split; auto. }
    unfold OS.makedirs.
    destruct (String.eqb (Path.dirname p) "");
      [cbn; split; [left; reflexivity|]; repeat split; auto|].
    destruct (bool_decide _);
      [cbn; split; [left; reflexivity|]; repeat split; auto|].
    destruct (bool_decide _);
      [cbn; split; [left; reflexivity|]; repeat split; auto|].
    unfold OS.write_text.
    destruct (bool_decide _);
      [cbn; split; [left; reflexivity|]; repeat split; auto|].
    destruct (bool_decide _);
      [cbn; split; [left; reflexivity|]; repeat split; auto|].
    destruct (_ && _);
      [cbn; split; [left; reflexivity|]; repeat split; auto|].
    cbn. split; [|repeat split; auto; congruence].
    right. split; [reflexivity|]. split; [discriminate|].
    eexists. split; [reflexivity|].
    intros Hall. rewrite (srt_loop_ok _ 1 [] Hall) in Hloop.
    inversion Hloop; subst. exact (join_lines_blocks (sg :: rest) 1).
Qed.
End SrtFacts.

(** ** The world after the OS calls *)
Module OSFacts.
Import OS.

(** The components an OS call leaves alone. *)
Lemma print_effect s w :
  print s w = (Ok tt, set_stdout (fun out => out ++ [s])%list w).
Proof. reflexivity. Qed.

Lemma makedirs_effect d w :
  let '(r, w') := makedirs d w in
  files w' = files w /\ denied w' = denied w /\ transcribed w' = transcribed w /\
  stdout w' = stdout w /\
  (r = Ok tt -> dirs w' = {[d]} ∪ dirs w) /\ (r <> Ok tt -> w' = w).
Proof.
  unfold makedirs. repeat (destruct (String.eqb _ _) || destruct (bool_decide _));
    cbn; repeat split; auto; congruence.
Qed.

Lemma write_text_effect p s w :
  let '(r, w') := write_text p s w in
  dirs w' = dirs w /\ denied w' = denied w /\ transcribed w' = transcribed w /\
  stdout w' = stdout w /\
  (r = Ok tt -> files w' = <[p := s]> (files w)) /\ (r <> Ok tt -> w' = w).
Proof.
  unfold write_text. repeat (destruct (bool_decide _) || destruct (_ && _));
    cbn; repeat split; auto; congruence.
Qed.

Lemma remove_effect p w :
  let '(r, w') := remove p w in
  dirs w' = dirs w /\ denied w' = denied w /\ transcribed w' = transcribed w /\
  stdout w' = stdout w /\
  (r = Ok tt -> files w' = delete p (files w)) /\ (r <> Ok tt -> w' = w).
Proof.
  unfold remove. repeat (destruct (bool_decide _) || destruct (negb _));
    cbn; repeat split; auto; congruence.
Qed.

Lemma remove_refused p w :
  p ∈ denied w \/ p ∉ dom (files w) -> exists e, remove p w = (Raise e, w).
Proof.
  intros H. unfold remove.
  destruct (bool_decide (p ∈ dom (files w))) eqn:Hd; cbn [negb]; [|eauto].
  apply bool_decide_eq_true_1 in Hd.
  destruct H as [H|H]; [|contradiction].
  rewrite bool_decide_eq_true_2 by exact H. eauto.
Qed.

End OSFacts.

(** Running the monad: the equations of [bind] and [try_except]. *)
Lemma bind_ok {A B} (m : M A) (k : A -> M B) w a w1 :
  m w = (Ok a, w1) -> bind m k w = k a w1.
Proof. intros H. unfold bind. rewrite H. reflexivity. Qed.

Lemma bind_raise {A B} (m : M A) (k : A -> M B) w e w1 :
  m w = (Raise e, w1) -> bind m k w = (Raise e, w1).
Proof. intros H. unfold bind. rewrite H. reflexivity. Qed.

Lemma try_ok {A} (m : M A) h w a w1 :
  m w = (Ok a, w1) -> try_except m h w = (Ok a, w1).
Proof. intros H. unfold try_except. rewrite H. reflexivity. Qed.

Lemma try_raise {A} (m : M A) h w e w1 :
  m w = (Raise e, w1) -> try_except m h w = h e w1.
Proof. intros H. unfold try_except. rewrite H. reflexivity. Qed.

Section Ensures.
Variable R : world -> world -> Prop.
Hypothesis R_refl : forall w, R w w.
Hypothesis R_trans : forall w1 w2 w3, R w1 w2 -> R w2 w3 -> R w1 w3.

Lemma ensures_ret {A} (a : A) : ensures (ret a) R.
Proof. intros w. apply R_refl. Qed.

Lemma ensures_raise {A} e : ensures (@raise A e) R.
Proof. intros w. apply R_refl. Qed.

Lemma ensures_lift {A} (r : result A) : ensures (lift r) R.
Proof. intros w. apply R_refl. Qed.

Lemma ensures_bind {A B} (m : M A) (k : A -> M B) :
  ensures m R -> (forall a, ensures (k a) R) -> ensures (bind m k) R.
Proof.
  intros Hm Hk w. unfold bind. specialize (Hm w).
  destruct (m w) as [[a|e] w1]; cbn [snd] in *; [|exact Hm].
  eapply R_trans; [exact Hm|apply Hk].
Qed.

Lemma ensures_try {A} (m : M A) h :
  ensures m R -> (forall e, ensures (h e) R) -> ensures (try_except m h) R.
Proof.
  intros Hm Hh w. unfold try_except. specialize (Hm w).
  destruct (m w) as [[a|e] w1]; cbn [snd] in *; [exact Hm|].
  eapply R_trans; [exact Hm|apply Hh].
Qed.

Lemma ensures_for_each {A} (l : list A) body :
  (forall x, In x l -> ensures (body x) R) -> ensures (for_each l body) R.
Proof.
  induction l as [|x l IH]; intros H; cbn [for_each].
  - apply ensures_ret.
  - apply ensures_bind; [apply H; left; reflexivity|].
    intros _. apply IH. intros y Hy. apply H. right. exact Hy.
Qed.
End Ensures.

Lemma keeps_refl gone w : keeps gone w w.
Proof. split; auto. Qed.

Lemma keeps_trans gone w1 w2 w3 : keeps gone w1 w2 -> keeps gone w2 w3 -> keeps gone w1 w3.
Proof. intros [H1 H2] [H3 H4]. split; [congruence|]. auto. Qed.







Section KeepsRules.
Variable gone : string -> Prop.






Lemma kfor {A} (l : list A) body :
  (forall x, In x l -> ensures (body x) (keeps gone)) ->
  ensures (for_each l body) (keeps gone).
Proof. apply ensures_for_each; [apply keeps_refl|apply keeps_trans]. Qed.
End KeepsRules.





(** ** One job *)

Module JobFacts.



(** A job is its outputs followed by the removal of its input. *)
Lemma srt_job_split md i o l w :
  Srt.transcribe_audio_to_text md i o l w =
  bind (Srt.write_outputs md i o l) (fun _ => Srt.delete_input i) w.
Proof.
  unfold Srt.transcribe_audio_to_text, Srt.write_outputs, Srt.delete_input, bind.
  destruct (try_except _ _ w) as [[res|e] w1]; [|reflexivity].
  destruct (OS.print _ w1) as [[u|e] w2]; [|reflexivity].
  destruct (OS.makedirs _ w2) as [[u'|e] w3]; [|reflexivity].
  destruct (OS.write_text _ _ w3) as [[u''|e] w4]; [|reflexivity].
  destruct (OS.print _ w4) as [[u3|e] w5]; [|reflexivity].
  destruct (Srt.save_srt_file _ _ w5) as [[u4|e] w6]; reflexivity.
Qed.

Lemma txt_job_split md i o l w :
  Txt.transcribe_audio_to_text md i o l w =
  bind (Txt.write_outputs md i o l) (fun _ => Txt.delete_input i) w.
Proof.
  unfold Txt.transcribe_audio_to_text, Txt.write_outputs, Txt.delete_input, bind.
  destruct (try_except _ _ w) as [[res|e] w1]; [|reflexivity].
  destruct (OS.print _ w1) as [[u|e] w2]; [|reflexivity].
  destruct (OS.makedirs _ w2) as [[u'|e] w3]; [|reflexivity].
  destruct (OS.write_text _ _ w3) as [[u''|e] w4]; [|reflexivity].
  destruct (OS.print _ w4) as [[u3|e] w5]; reflexivity.
Qed.

(** The removal step never raises. *)
Lemma delete_input_refused i w e :
  OS.remove i w = (Raise e, w) ->
  Srt.delete_input i w = (Ok tt, set_stdout (fun out => out ++ [deletion_report i e])%list w).
Proof.
  intros H. unfold Srt.delete_input, try_except, bind. rewrite H. reflexivity.
Qed.

Lemma delete_input_done i w :
  i ∈ dom (files w) -> i ∉ denied w ->
  exists w', Srt.delete_input i w = (Ok tt, w') /\ files w' = delete i (files w) /\
             dirs w' = dirs w.
Proof.
  intros H1 H2. unfold Srt.delete_input, try_except, bind, OS.remove.
  rewrite bool_decide_eq_true_2 by exact H1. cbn [negb].
  rewrite bool_decide_eq_false_2 by exact H2.
  eexists. split; [reflexivity|]. split; reflexivity.
Qed.


Lemma txt_delete_input i : Txt.delete_input i = Srt.delete_input i.
Proof. reflexivity. Qed.

(** What the outputs step leaves on disk when it succeeds. *)
Lemma txt_outputs_ok md i o l w w1 :
  Txt.write_outputs md i o l w = (Ok tt, w1) ->
  exists res, md i l w = Ok res /\ files w1 = <[o := text_document res]> (files w) /\
              denied w1 = denied w.
Proof.
  unfold Txt.write_outputs, bind, try_except, OS.transcribe.
  destruct (md i l w) as [res|e] eqn:Hmd; [|discriminate].
  rewrite OSFacts.print_effect.
  match goal with |- context [OS.makedirs ?d ?w0] =>
    pose proof (OSFacts.makedirs_effect d w0) as Hmk;
    destruct (OS.makedirs d w0) as [[[]|e] w3] end; [|discriminate].
  match goal with |- context [OS.write_text ?p ?s ?w0] =>
    pose proof (OSFacts.write_text_effect p s w0) as Hwr;
    destruct (OS.write_text p s w0) as [[[]|e] w4] end; [|discriminate].
  rewrite OSFacts.print_effect. intros Heq. inversion Heq; subst. clear Heq.
  destruct Hmk as (Hf3 & Hd3 & _). destruct Hwr as (_ & Hd4 & _ & _ & Hf4 & _).
  exists res. split; [reflexivity|]. cbn [files denied set_stdout].
  rewrite (Hf4 eq_refl), Hf3, Hd4, Hd3. split; reflexivity.
Qed.

Lemma srt_outputs_ok md i o l w w1 :
  Srt.write_outputs md i o l w = (Ok tt, w1) ->
  exists res, md i l w = Ok res /\ denied w1 = denied w /\
    let srt := fst (Path.splitext o) +:+ ".srt" in
    (files w1 = <[o := text_document res]> (files w) \/
     (default [] (segments res) <> [] /\
      exists c, files w1 = <[srt := c]> (<[o := text_document res]> (files w)) /\
                (Forall segment_ok (default [] (segments res)) ->
                 c = srt_document (default [] (segments res))))).
Proof.
  unfold Srt.write_outputs, bind, try_except, OS.transcribe.
  destruct (md i l w) as [res|e] eqn:Hmd; [|discriminate].
  rewrite OSFacts.print_effect.
  match goal with |- context [OS.makedirs ?d ?w0] =>
    pose proof (OSFacts.makedirs_effect d w0) as Hmk;
    destruct (OS.makedirs d w0) as [[[]|e] w3] end; [|discriminate].
  match goal with |- context [OS.write_text ?p ?s ?w0] =>
    pose proof (OSFacts.write_text_effect p s w0) as Hwr;
    destruct (OS.write_text p s w0) as [[[]|e] w4] end; [|discriminate].
  rewrite OSFacts.print_effect.
  match goal with |- context [Srt.save_srt_file ?r ?p ?w0] =>
    pose proof (SrtFacts.save_srt_file_files r p w0) as Hsv;
    destruct (Srt.save_srt_file r p w0) as [rs w5] end.
  intros Heq. inversion Heq; subst. clear Heq.
  destruct Hmk as (Hf3 & Hd3 & _). destruct Hwr as (_ & Hd4 & _ & _ & Hf4 & _).
  destruct Hsv as (Hfiles & Hd5 & _).
  cbn [files denied set_stdout set_transcribed] in *.
  exists res. split; [reflexivity|]. split; [rewrite Hd5, Hd4, Hd3; reflexivity|].
  rewrite (Hf4 eq_refl), Hf3 in Hfiles.
  destruct Hfiles as [Hsame|(_ & Hne & c & Hc & Hdoc)].
  - left. exact Hsame.
  - right. split; [exact Hne|]. exists c. split; [exact Hc|exact Hdoc].
Qed.

End JobFacts.

(** ** Lines of text *)
Module LineFacts.
Import Str.

Lemma contains_app c a b : contains c (a +:+ b) = contains c a || contains c b.
Proof.
  induction a as [|x a IH]; [reflexivity|].
  rewrite StrFacts.app_cons. cbn [contains]. rewrite IH. apply orb_assoc.
Qed.










End LineFacts.



Lemma job_split sc md i o l w :
  job sc md i o l w = bind (outputs sc md i o l) (fun _ => Srt.delete_input i) w.
Proof. destruct sc; [apply JobFacts.srt_job_split|apply JobFacts.txt_job_split]. Qed.

Lemma batch_file_unfold sc E md inf outf l root file :
  batch_file sc E md inf outf l root file =
  if matches_filter file then
    bind (lift (Path.relpath (getcwd E) root inf)) (fun relative_path =>
      try_except
        (job sc md (Path.join root file)
           (Path.join (Path.join outf relative_path) (fst (Path.splitext file) +:+ ".txt")) l)
        (fun e => OS.print ("Не удалось транскрибировать " +:+ Path.join root file +:+ ": "
                            +:+ exn_str e +:+ Str.newline)))
  else ret tt.
Proof. destruct sc; reflexivity. Qed.

Lemma bool_decide_union_idem (p d : string) (D : gset string) :
  bool_decide (p ∈ {[d]} ∪ ({[d]} ∪ D)) = bool_decide (p ∈ {[d]} ∪ D).
Proof.
  apply bool_decide_ext. rewrite !elem_of_union. tauto.
Qed.

Ltac run := cbv beta iota; cbn [files dirs denied set_dirs set_files set_stdout].

Lemma delete_input_files i w w' r :
  Srt.delete_input i w = (r, w') ->
  r = Ok tt /\ (files w' = files w \/ files w' = delete i (files w)).
Proof.
  unfold Srt.delete_input, try_except, bind.
  pose proof (OSFacts.remove_effect i w) as H.
  destruct (OS.remove i w) as [[[]|e] w1]; destruct H as (_ & _ & _ & _ & Hok & Hbad).
  - rewrite OSFacts.print_effect. intros Heq. inversion Heq; subst.
    split; [reflexivity|]. right. exact (Hok eq_refl).
  - rewrite OSFacts.print_effect. intros Heq. inversion Heq; subst.
    split; [reflexivity|]. left.
    assert (Hr : @Raise unit e <> Ok tt) by (intros Hx; inversion Hx).
    rewrite (Hbad Hr). reflexivity.
Qed.

Lemma outputs_text sc md i o l w w1 :
  outputs sc md i o l w = (Ok tt, w1) ->
  (sc = SrtScript -> srt_path o <> o) ->
  exists res, md i l w = Ok res /\ files w1 !! o = Some (text_document res).
Proof.
  intros H Hsrt. destruct sc; cbn [outputs] in H.
  - destruct (JobFacts.srt_outputs_ok _ _ _ _ _ _ H) as (res & Hmd & _ & Hf).
    exists res. split; [exact Hmd|]. cbv zeta in Hf.
    destruct Hf as [Hf|(_ & c & Hf & _)]; rewrite Hf.
    + apply lookup_insert_eq.
    + rewrite lookup_insert_ne by exact (Hsrt eq_refl). apply lookup_insert_eq.
  - destruct (JobFacts.txt_outputs_ok _ _ _ _ _ _ H) as (res & Hmd & Hf & _).
    exists res. split; [exact Hmd|]. rewrite Hf. apply lookup_insert_eq.
Qed.

(** ** The milliseconds against the exact fraction *)
Module MillisFacts.
Import Binary64 B64.

Lemma whole_posfin n : 1 <= n < 2 ^ 53 -> posfin (of_Z n) /\ scaled (of_Z n) = n * U.
Proof.
  intros Hn. destruct (of_Z_exact n ltac:(lia)) as [H1 H2]. split; [|exact H2].
  apply nonneg_pos; [exact H1|]. pose proof U_pos. nia.
Qed.

(** The product [frac * 1000.0], rounded, lies between the two whole
    numbers around the exact product. *)
Lemma product_between x n :
  nonneg x -> 0 <= n < 1000 ->
  n * U <= 1000 * scaled x < (n + 1) * U ->
  nonneg (mul x (of_Z 1000)) /\
  n * U <= scaled (mul x (of_Z 1000)) <= (n + 1) * U.
Proof.
  intros Hx Hn [Hlo Hhi]. destruct c1000 as [Hp1000 Hs1000]. pose proof U_pos as HU.
  assert (H53 : 1000 < 2 ^ 53) by (vm_compute; reflexivity).
  destruct (nonneg_cases x Hx) as [[b ->]|Hp].
  - destruct (posfin_inv _ Hp1000) as (m & e & -> & _). cbn [mul SFmul nonneg scaled].
    cbn [scaled] in Hlo, Hhi. split; [exact I|]. nia.
  - destruct (whole_posfin (n + 1) ltac:(lia)) as [Hq Hqs].
    destruct (mul_le x (of_Z 1000) Hp Hp1000 (of_Z (n + 1)) Hq) as [Hnn Hle].
    { rewrite Hs1000, Hqs.
      replace (scaled x * (1000 * U)) with (1000 * scaled x * U) by ring.
      apply Z.mul_le_mono_nonneg_r; lia. }
    split; [exact Hnn|]. rewrite Hqs in Hle. split; [|exact Hle].
    destruct (Z.eq_dec n 0) as [->|Hn0].
    + pose proof (nonneg_scaled _ Hnn). lia.
    + destruct (whole_posfin n ltac:(lia)) as [Hr Hrs].
      destruct (mul_ge x (of_Z 1000) Hp Hp1000 (of_Z n) Hr) as [Hinf|[_ Hge]].
      { rewrite Hs1000, Hrs.
        replace (scaled x * (1000 * U)) with (1000 * scaled x * U) by ring.
        apply Z.mul_le_mono_nonneg_r; lia. }
      * rewrite Hinf in Hnn. destruct (not_nonneg_inf _ Hnn).
      * rewrite Hrs in Hge. exact Hge.
Qed.

Lemma millis_close s :
  Num.nonneg s -> exact_millis s <= Num.millis s <= exact_millis s + 1.
Proof.
  pose proof U_pos as HU. destruct s as [z|f]; intros Hs.
  - unfold exact_millis. cbn [Num.scaled Num.millis].
    rewrite Z.mod_mul by lia. rewrite Z.mul_0_r, Z.div_0_l by lia. lia.
  - cbn [Num.nonneg] in Hs. destruct (frac_spec f Hs) as [Hfn Hfs].
    unfold exact_millis. cbn [Num.scaled Num.millis].
    set (fr := sub f (of_Z (trunc f))) in *.
    set (phi := scaled f mod U) in *.
    assert (Hphi : 0 <= phi < U) by (apply Z.mod_pos_bound; lia).
    set (n := 1000 * phi / U).
    assert (Hn : n * U <= 1000 * phi < (n + 1) * U).
    { unfold n. pose proof (Z.mul_div_le (1000 * phi) U HU).
      pose proof (Z.mul_succ_div_gt (1000 * phi) U HU). lia. }
    assert (Hn' : 0 <= n < 1000).
    { unfold n. split; [apply Z.div_pos; lia|apply Z.div_lt_upper_bound; lia]. }
    rewrite <- Hfs in Hn.
    destruct (product_between fr n Hfn Hn' Hn) as [Hpn [Hlo Hhi]].
    rewrite trunc_spec by exact Hpn. split.
    + apply Z.div_le_lower_bound; lia.
    + apply Z.div_le_upper_bound; [lia|]. nia.
Qed.

End MillisFacts.

(** ** The fields of a time *)
Module FieldFacts.
Import Str StrFacts.

Lemma all_digits_app a b : all_digits (a +:+ b) = all_digits a && all_digits b.
Proof.
  induction a as [|x a IH]; [reflexivity|].
  rewrite app_cons. cbn [all_digits]. rewrite IH. apply andb_assoc.
Qed.

Lemma all_digits_zeros n : all_digits (zeros n) = true.
Proof. induction n as [|n IH]; [reflexivity|]. cbn [zeros all_digits]. exact IH. Qed.

Lemma all_digits_dec fuel : forall n, 0 <= n -> all_digits (dec fuel n) = true.
Proof.
  induction fuel as [|fuel IH]; intros n Hn; [reflexivity|].
  cbn [dec]. rewrite all_digits_app.
  assert (Hd : all_digits (String (chr (48 + n mod 10)) "") = true).
  { cbn [all_digits]. rewrite andb_true_r. apply digit_char.
    pose proof (Z.mod_pos_bound n 10 ltac:(lia)). lia. }
  rewrite Hd, andb_true_r.
  destruct (n <? 10); [reflexivity|]. apply IH. apply Z.div_pos; lia.
Qed.

Lemma all_digits_format_int w n : 0 <= n -> all_digits (format_int w n) = true.
Proof.
  intros Hn. destruct (format_int_spec w n Hn) as [-> _].
  rewrite all_digits_app, all_digits_zeros. apply all_digits_dec. exact Hn.
Qed.

Lemma all_digits_contains c s :
  is_digit c = false -> all_digits s = true -> contains c s = false.
Proof.
  intros Hc. induction s as [|x s IH]; [reflexivity|].
  cbn [all_digits contains]. intros H. apply andb_prop in H. destruct H as [Hx Hs].
  rewrite (IH Hs), orb_false_r.
  destruct (Ascii.eqb x c) eqn:Hxc; [|reflexivity].
  apply Ascii.eqb_eq in Hxc. subst x. congruence.
Qed.

Lemma split_whole c s : contains c s = false -> split c s = [s].
Proof.
  induction s as [|x s IH]; [reflexivity|].
  cbn [contains split]. intros H. apply orb_false_elim in H. destruct H as [Hx Hs].
  rewrite Hx, (IH Hs). reflexivity.
Qed.

Lemma split_first c a b :
  contains c a = false -> split c (a +:+ String c b) = a :: split c b.
Proof.
  induction a as [|x a IH]; intros H.
  - rewrite app_nil. cbn [split]. rewrite Ascii.eqb_refl. reflexivity.
  - cbn [contains] in H. apply orb_false_elim in H. destruct H as [Hx Ha].
    rewrite app_cons. cbn [split]. rewrite Hx, (IH Ha). reflexivity.
Qed.

(** A text of four digit fields is cut back into them. *)
Lemma split_time h m s ms :
  all_digits h = true -> all_digits m = true -> all_digits s = true ->
  all_digits ms = true ->
  split ":" (h +:+ ":" +:+ m +:+ ":" +:+ s +:+ "," +:+ ms) = [h; m; s +:+ "," +:+ ms] /\
  split "," (s +:+ "," +:+ ms) = [s; ms].
Proof.
  intros Hh Hm Hs Hms.
  assert (Hc : is_digit ":" = false) by reflexivity.
  assert (Hk : is_digit "," = false) by reflexivity.
  split.
  - change (":" +:+ m +:+ ":" +:+ s +:+ "," +:+ ms)
      with (String ":" (m +:+ String ":" (s +:+ "," +:+ ms))).
    rewrite (split_first ":" h) by (apply all_digits_contains; assumption).
    rewrite (split_first ":" m) by (apply all_digits_contains; assumption).
    rewrite split_whole; [reflexivity|].
    rewrite LineFacts.contains_app.
    rewrite (all_digits_contains ":" s Hc Hs).
    change ("," +:+ ms) with (String "," ms). cbn [contains orb Ascii.eqb].
    cbn. apply all_digits_contains; assumption.
  - change ("," +:+ ms) with (String "," ms).
    rewrite (split_first "," s) by (apply all_digits_contains; assumption).
    rewrite split_whole by (apply all_digits_contains; assumption). reflexivity.
Qed.

Lemma parse_time h m s ms :
  0 <= h -> 0 <= m -> 0 <= s -> 0 <= ms ->
  parse_timestamp (format_int 2 h +:+ ":" +:+ format_int 2 m +:+ ":"
                   +:+ format_int 2 s +:+ "," +:+ format_int 3 ms)
  = Some (h, m, s, ms).
Proof.
  intros Hh Hm Hs Hms. unfold parse_timestamp.
  destruct (split_time (format_int 2 h) (format_int 2 m) (format_int 2 s) (format_int 3 ms))
    as [H1 H2]; try (apply all_digits_format_int; assumption).
  rewrite H1, H2.
  destruct (format_int_spec 2 h Hh) as (_ & _ & ->).
  destruct (format_int_spec 2 m Hm) as (_ & _ & ->).
  destruct (format_int_spec 2 s Hs) as (_ & _ & ->).
  destruct (format_int_spec 3 ms Hms) as (_ & _ & ->).
  reflexivity.
Qed.

Lemma shape_time h m s ms :
  0 <= h < 100 -> 0 <= m < 100 -> 0 <= s < 100 -> 0 <= ms < 1000 ->
  timestamp_shape (format_int 2 h +:+ ":" +:+ format_int 2 m +:+ ":"
                   +:+ format_int 2 s +:+ "," +:+ format_int 3 ms) = true.
Proof.
  intros Hh Hm Hs Hms. unfold timestamp_shape.
  destruct (split_time (format_int 2 h) (format_int 2 m) (format_int 2 s) (format_int 3 ms))
    as [H1 H2]; try (apply all_digits_format_int; lia).
  rewrite H1, H2. rewrite !all_digits_app.
  rewrite !all_digits_format_int by lia.
  rewrite !format_int_width by (try (cbn; lia); lia).
  reflexivity.
Qed.

End FieldFacts.

Lemma whole_nonneg s : Num.nonneg s -> 0 <= Num.whole s.
Proof.
  intros H. unfold Num.whole. apply Z.div_pos; [|apply B64.U_pos].
  destruct s as [z|f]; cbn [Num.scaled Num.nonneg] in *.
  - pose proof B64.U_pos. nia.
  - apply B64.nonneg_scaled. exact H.
Qed.

Lemma hours_facts s :
  Num.nonneg s ->
  0 <= Num.hours s /\
  (Num.scaled s < 2 ^ 53 * Binary64.U -> Num.hours s = Num.whole s / 3600) /\
  (360000 * Binary64.U <= Num.scaled s -> 100 <= Num.hours s).
Proof.
  pose proof B64.U_pos as HU. destruct s as [z|f]; intros H.
  - rewrite B64.whole_int. cbn [Num.hours Num.scaled Num.nonneg] in *.
    split; [apply Z.div_pos; lia|]. split; [reflexivity|].
    intros Hz. assert (360000 <= z) by nia.
    apply Z.div_le_lower_bound; lia.
  - destruct (B64.hours_float f H) as (fd & _ & _ & H0 & H1 & H2).
    split; [exact H0|]. split; [exact H1|exact H2].
Qed.

Lemma millis_bounds s : Num.nonneg s -> 0 <= Num.millis s <= 999.
Proof.
  destruct s as [z|f]; intros H.
  - cbn [Num.millis]. lia.
  - destruct (B64.millis_float f H) as (fr & p & _ & _ & _ & _ & Hb). exact Hb.
Qed.

Lemma whole_lt s k :
  Num.nonneg s -> Num.scaled s < k * Binary64.U -> Num.whole s < k.
Proof.
  intros H Hk. unfold Num.whole. apply Z.div_lt_upper_bound; [apply B64.U_pos|].
  rewrite Z.mul_comm. exact Hk.
Qed.

(** ** Suffixes and the extension filter *)
Module SuffixFacts.
Import Str StrFacts.

Lemma app_empty_r (a : string) : a +:+ "" = a.
Proof. induction a as [|x a IH]; [reflexivity|]. rewrite app_cons, IH. reflexivity. Qed.

Lemma rev_app_acc s : forall acc, String.rev_app s acc = String.rev s +:+ acc.
Proof.
  unfold String.rev. induction s as [|x s IH]; intros acc; [reflexivity|].
  cbn [String.rev_app]. rewrite (IH (String x acc)), (IH (String x "")).
  rewrite SrtFacts.str_app_assoc. reflexivity.
Qed.

Lemma rev_cons x s : String.rev (String x s) = String.rev s +:+ String x "".
Proof. unfold String.rev at 1. cbn [String.rev_app]. apply rev_app_acc. Qed.

Lemma rev_app a b : String.rev (a +:+ b) = String.rev b +:+ String.rev a.
Proof.
  induction a as [|x a IH].
  - rewrite app_nil. change (String.rev "") with "". rewrite app_empty_r. reflexivity.
  - rewrite app_cons, !rev_cons, IH, SrtFacts.str_app_assoc. reflexivity.
Qed.

Lemma rev_rev s : String.rev (String.rev s) = s.
Proof.
  induction s as [|x s IH]; [reflexivity|].
  rewrite rev_cons, rev_app, IH. reflexivity.
Qed.

Lemma startswith_app s t p : startswith s p = true -> startswith (s +:+ t) p = true.
Proof.
  revert s. induction p as [|a p IH]; intros s H; [destruct (s +:+ t); reflexivity|].
  destruct s as [|b s]; [discriminate|].
  rewrite app_cons. cbn [startswith] in *.
  apply andb_prop in H. destruct H as [H1 H2]. rewrite H1, (IH s H2). reflexivity.
Qed.

Lemma endswith_app a b p : endswith b p = true -> endswith (a +:+ b) p = true.
Proof. unfold endswith. rewrite rev_app. apply startswith_app. Qed.

Lemma lower_app a b : lower (a +:+ b) = lower a +:+ lower b.
Proof.
  induction a as [|x a IH]; [reflexivity|].
  rewrite app_cons. cbn [lower]. rewrite IH, app_cons. reflexivity.
Qed.

Lemma join_suffix a b : exists pre, Path.join a b = pre +:+ b.
Proof.
  unfold Path.join. destruct (startswith b "/"); [exists ""; reflexivity|].
  destruct (_ || _); [exists a; reflexivity|].
  exists (a +:+ "/"). rewrite SrtFacts.str_app_assoc. reflexivity.
Qed.

Lemma matches_app pre file :
  matches_filter file = true -> matches_filter (pre +:+ file) = true.
Proof. unfold matches_filter. rewrite lower_app. apply endswith_app. Qed.

Lemma matches_join root file :
  matches_filter file = true -> matches_filter (Path.join root file) = true.
Proof.
  intros H. destruct (join_suffix root file) as [pre ->]. apply matches_app. exact H.
Qed.

(** The filter looks at the last four characters, whatever their case. *)
Lemma matches_ext stem ext :
  lower ext = ".mp3" -> matches_filter (stem +:+ ext) = true.
Proof.
  intros H. apply matches_app. unfold matches_filter. rewrite H. reflexivity.
Qed.

Lemma join_nonempty a b : a <> "" -> Path.join a b <> "".
Proof.
  intros Ha. unfold Path.join.
  destruct b as [|y b]; cbn [startswith].
  - destruct (_ || _); [rewrite app_empty_r; exact Ha|].
    destruct a; [congruence|]. rewrite app_cons. discriminate.
  - destruct (Ascii.eqb _ _ && _); [discriminate|].
    destruct (_ || _); destruct a; try congruence; rewrite app_cons; discriminate.
Qed.

End SuffixFacts.

(** ** Which files reach the model *)



















Lemma tree_induction (P : tree -> Prop) :
  (forall n subs fs, Forall P subs -> P (Dir n subs fs)) -> forall t, P t.
Proof.
  intros H. fix IH 1. intros [n subs fs]. apply H.
  induction subs as [|s subs IHs]; constructor; [apply IH|exact IHs].
Qed.






(** ** Paths *)
Module PathFacts.
Import Str StrFacts SuffixFacts.

Lemma split_nonempty c s : split c s <> [].
Proof.
  destruct s as [|x s]; [discriminate|]. cbn [split].
  destruct (Ascii.eqb x c); [discriminate|]. destruct (split c s); discriminate.
Qed.

Lemma split_app_sep c a b : split c (a +:+ String c b) = (split c a ++ split c b)%list.
Proof.
  induction a as [|x a IH].
  - rewrite app_nil. cbn [split]. rewrite Ascii.eqb_refl. reflexivity.
  - rewrite app_cons. cbn [split]. destruct (Ascii.eqb x c); [rewrite IH; reflexivity|].
    rewrite IH. pose proof (split_nonempty c a) as Hne.
    destruct (split c a); [congruence|reflexivity].
Qed.

Lemma split_slash_free c s : Forall (fun x => contains c x = false) (split c s).
Proof.
  induction s as [|x s IH]; [repeat constructor|].
  cbn [split]. destruct (Ascii.eqb x c) eqn:Hx; [constructor; [reflexivity|exact IH]|].
  destruct (split c s) as [|p ps]; [repeat constructor; cbn [contains]; rewrite Hx; reflexivity|].
  inversion IH; subst. constructor; [|assumption].
  cbn [contains]. rewrite Hx. assumption.
Qed.

Lemma split_join c comps :
  comps <> [] -> Forall (fun x => contains c x = false) comps ->
  split c (Str.join (String c "") comps) = comps.
Proof.
  induction comps as [|x rest IH]; intros Hne Hall; [congruence|].
  inversion Hall as [|y l' Hx Hrest]; subst.
  destruct rest as [|y rest].
  - cbn [Str.join]. apply FieldFacts.split_whole. exact Hx.
  - change (Str.join (String c "") (x :: y :: rest))
      with (x +:+ String c "" +:+ Str.join (String c "") (y :: rest)).
    rewrite app_cons, app_nil, split_app_sep, IH by (congruence || assumption).
    rewrite (FieldFacts.split_whole c x Hx). reflexivity.
Qed.

Lemma startswith_empty s : startswith s "" = true.
Proof. destruct s; reflexivity. Qed.

Lemma endswith_inv x : endswith x "/" = true -> exists x', x = x' +:+ "/".
Proof.
  unfold endswith. change (String.rev "/") with "/". intros H.
  destruct (String.rev x) as [|y r] eqn:Hr; [discriminate|].
  cbn [startswith] in H. rewrite startswith_empty, andb_true_r in H.
  apply Ascii.eqb_eq in H. subst y.
  exists (String.rev r). rewrite <- (rev_rev x), Hr, rev_cons. reflexivity.
Qed.

Lemma rev_nonempty b : b <> "" -> String.rev b <> "".
Proof.
  destruct b as [|x b]; [congruence|]. intros _. rewrite rev_cons.
  destruct (String.rev b); discriminate.
Qed.

Lemma endswith_app_r a b : b <> "" -> endswith (a +:+ b) "/" = endswith b "/".
Proof.
  intros Hb. unfold endswith. rewrite rev_app. change (String.rev "/") with "/".
  pose proof (rev_nonempty b Hb) as Hr. destruct (String.rev b); [congruence|].
  rewrite app_cons. cbn [startswith]. rewrite !startswith_empty. reflexivity.
Qed.

Lemma endswith_slash_free b : contains "/" b = false -> endswith b "/" = false.
Proof.
  intros H. destruct (endswith b "/") eqn:He; [|reflexivity].
  destruct (endswith_inv b He) as [x' ->].
  rewrite LineFacts.contains_app in H. cbn in H. rewrite orb_true_r in H. discriminate.
Qed.

Lemma proper_name_inv n :
  proper_name n = true ->
  n <> "" /\ n <> "." /\ n <> ".." /\ contains "/" n = false /\ startswith n "/" = false.
Proof.
  unfold proper_name. intros H.
  apply andb_prop in H. destruct H as [H H4].
  apply andb_prop in H. destruct H as [H H3].
  apply andb_prop in H. destruct H as [H1 H2].
  apply negb_true_iff in H1, H2, H3, H4.
  apply String.eqb_neq in H1, H2, H3. change Path.sep with "/"%char in H4.
  repeat (split; [assumption|]).
  destruct n as [|x n]; [reflexivity|]. cbn [contains] in H4. cbn [startswith].
  apply orb_false_elim in H4. destruct H4 as [Hx _].
  rewrite Ascii.eqb_sym, Hx. reflexivity.
Qed.

(** [join] with a proper name appends it, after a separator if needed. *)
Lemma join_proper a n :
  proper_name n = true ->
  Path.join a n = if String.eqb a "" || endswith a "/" then a +:+ n else a +:+ "/" +:+ n.
Proof.
  intros H. destruct (proper_name_inv n H) as (_ & _ & _ & _ & Hs).
  unfold Path.join. rewrite Hs. reflexivity.
Qed.

Lemma join_startswith a n :
  a <> "" -> proper_name n = true ->
  startswith (Path.join a n) "/" = startswith a "/".
Proof.
  intros Ha H. rewrite (join_proper a n H).
  destruct a as [|x a]; [congruence|].
  destruct (_ || _); rewrite app_cons; cbn [startswith]; rewrite !startswith_empty; reflexivity.
Qed.

Lemma norm_comps_app b l1 : forall acc l2,
  Path.norm_comps b acc (l1 ++ l2) = Path.norm_comps b (Path.norm_comps b acc l1) l2.
Proof.
  induction l1 as [|x l1 IH]; intros acc l2; [reflexivity|].
  cbn [app Path.norm_comps].
  destruct (String.eqb x "" || String.eqb x "."); [apply IH|].
  destruct (_ || _ || _); apply IH.
Qed.

Lemma norm_comps_skip b acc : Path.norm_comps b acc [""] = acc.
Proof. reflexivity. Qed.

Lemma norm_comps_name b acc n :
  proper_name n = true -> Path.norm_comps b acc [n] = (acc ++ [n])%list.
Proof.
  intros H. destruct (proper_name_inv n H) as (H1 & H2 & H3 & _).
  cbn [Path.norm_comps].
  rewrite (proj2 (String.eqb_neq _ _) H1), (proj2 (String.eqb_neq _ _) H2),
          (proj2 (String.eqb_neq _ _) H3).
  reflexivity.
Qed.

Lemma Forall_removelast {A} (P : A -> Prop) l : Forall P l -> Forall P (removelast l).
Proof.
  induction l as [|x l IH]; intros H; [constructor|].
  inversion H; subst. cbn [removelast]. destruct l; [constructor|].
  constructor; [assumption|]. apply IH. assumption.
Qed.

Lemma norm_comps_clean b l : forall acc,
  Forall clean acc -> Forall (fun x => contains "/" x = false) l ->
  Forall clean (Path.norm_comps b acc l).
Proof.
  induction l as [|x l IH]; intros acc Hacc Hl; [exact Hacc|].
  inversion Hl as [|y l' Hx Hrest]; subst. cbn [Path.norm_comps].
  destruct (String.eqb x "") eqn:Hx0; [apply IH; assumption|].
  destruct (String.eqb x "."); cbn [orb]; [apply IH; assumption|].
  destruct (_ || _ || _).
  - apply IH; [|assumption]. apply Forall_app. split; [assumption|].
    constructor; [|constructor]. split; [apply String.eqb_neq; exact Hx0|exact Hx].
  - apply IH; [|assumption]. apply Forall_removelast. assumption.
Qed.

Lemma nonempty_clean l : Forall clean l -> Path.nonempty l = l.
Proof.
  induction l as [|x l IH]; intros H; [reflexivity|].
  inversion H as [|y l' [Hx _] Hrest]; subst. unfold Path.nonempty in *.
  cbn [List.filter]. rewrite (proj2 (String.eqb_neq _ _) Hx). cbn [negb].
  rewrite IH by assumption. reflexivity.
Qed.

(** The components [relpath] takes from an absolute path are those the
    loop of [normpath] keeps. *)
Lemma abs_components p :
  startswith p "/" = true ->
  Path.nonempty (split "/" (Path.normpath p)) = Path.norm_comps true [] (split "/" p).
Proof.
  intros Hp. unfold Path.normpath.
  destruct p as [|x p]; [discriminate|]. cbn [String.eqb]. rewrite Hp.
  set (comps := Path.norm_comps _ [] _).
  assert (Hcl : Forall clean (Path.norm_comps true [] (split "/" (String x p)))).
  { apply norm_comps_clean; [constructor|apply split_slash_free]. }
  assert (Hj : Path.nonempty (split "/" (Str.join "/" (Path.norm_comps true []
                 (split "/" (String x p)))))
               = Path.norm_comps true [] (split "/" (String x p))).
  { destruct (Path.norm_comps true [] (split "/" (String x p))) as [|c cs] eqn:Hc.
    - reflexivity.
    - rewrite split_join; [apply nonempty_clean; exact Hcl|discriminate|].
      eapply Forall_impl; [exact Hcl|]. intros y [_ Hy]. exact Hy. }
  destruct (startswith (String x p) "//" && negb (startswith (String x p) "///"));
    subst comps; cbn [Nat.eqb negb].
  - change ("//" +:+ ?s) with (String "/" (String "/" s)). cbn [String.eqb].
    cbn [split Ascii.eqb Bool.eqb]. exact Hj.
  - change ("/" +:+ ?s) with (String "/" s). cbn [String.eqb].
    cbn [split Ascii.eqb Bool.eqb]. exact Hj.
Qed.

Lemma abspath_arg cwd p : Path.abspath cwd p = Path.normpath (abs_arg cwd p).
Proof. reflexivity. Qed.

Lemma join_plain cwd p :
  startswith p "/" = false ->
  Path.join cwd p = if String.eqb cwd "" || endswith cwd "/" then cwd +:+ p else cwd +:+ "/" +:+ p.
Proof. intros H. unfold Path.join. rewrite H. reflexivity. Qed.

Lemma app_nonempty a b : b <> "" -> a +:+ b <> "".
Proof.
  intros Hb. destruct a as [|x a]; [rewrite app_nil; exact Hb|].
  rewrite app_cons. discriminate.
Qed.

Lemma abs_arg_abs cwd p : startswith cwd "/" = true -> startswith (abs_arg cwd p) "/" = true.
Proof.
  intros Hc. unfold abs_arg. destruct (startswith p "/") eqn:Hp; [exact Hp|].
  rewrite (join_plain cwd p Hp). destruct (_ || _); apply startswith_app; exact Hc.
Qed.

Lemma abs_arg_join cwd a n :
  a <> "" -> proper_name n = true ->
  abs_arg cwd (Path.join a n) = Path.join (abs_arg cwd a) n.
Proof.
  intros Ha Hn. unfold abs_arg. rewrite (join_startswith a n Ha Hn).
  destruct (startswith a "/") eqn:Hs; [reflexivity|].
  assert (Hs' : startswith (Path.join a n) "/" = false)
    by (rewrite (join_startswith a n Ha Hn); exact Hs).
  rewrite (join_plain cwd _ Hs'), (join_plain cwd a Hs), !(join_proper _ n Hn).
  rewrite (proj2 (String.eqb_neq _ _) Ha). cbn [orb].
  destruct (String.eqb cwd "" || endswith cwd "/").
  - rewrite (proj2 (String.eqb_neq _ _) (app_nonempty cwd a Ha)). cbn [orb].
    rewrite (endswith_app_r cwd a Ha).
    destruct (endswith a "/"); rewrite !SrtFacts.str_app_assoc; reflexivity.
  - assert (Hne : cwd +:+ "/" +:+ a <> "") by (apply app_nonempty, app_nonempty; exact Ha).
    rewrite (proj2 (String.eqb_neq _ _) Hne). cbn [orb].
    rewrite <- (SrtFacts.str_app_assoc cwd "/" a) at 1.
    rewrite (endswith_app_r (cwd +:+ "/") a Ha).
    destruct (endswith a "/"); rewrite !SrtFacts.str_app_assoc; reflexivity.
Qed.

Lemma comps_join x n :
  x <> "" -> proper_name n = true ->
  Path.norm_comps true [] (split "/" (Path.join x n)) =
  (Path.norm_comps true [] (split "/" x) ++ [n])%list.
Proof.
  intros Hx Hn. destruct (proper_name_inv n Hn) as (_ & _ & _ & Hsl & _).
  rewrite (join_proper x n Hn), (proj2 (String.eqb_neq _ _) Hx). cbn [orb].
  destruct (endswith x "/") eqn:He.
  - destruct (endswith_inv x He) as [x' ->].
    rewrite SrtFacts.str_app_assoc.
    change ("/" +:+ n) with (String "/" n). change (x' +:+ "/") with (x' +:+ String "/" "").
    rewrite !split_app_sep, (FieldFacts.split_whole "/" n Hsl).
    change (split "/" "") with [""].
    rewrite !norm_comps_app, norm_comps_skip, (norm_comps_name _ _ n Hn). reflexivity.
  - change ("/" +:+ n) with (String "/" n).
    rewrite split_app_sep, (FieldFacts.split_whole "/" n Hsl).
    rewrite norm_comps_app, (norm_comps_name _ _ n Hn). reflexivity.
Qed.

Lemma join_all_cons a n names :
  Path.join_all a (n :: names) = Path.join_all (Path.join a n) names.
Proof. reflexivity. Qed.

Lemma join_all_facts cwd names : forall a,
  a <> "" -> forallb proper_name names = true ->
  Path.join_all a names <> "" /\
  abs_arg cwd (Path.join_all a names) = Path.join_all (abs_arg cwd a) names /\
  Path.norm_comps true [] (split "/" (Path.join_all a names)) =
  (Path.norm_comps true [] (split "/" a) ++ names)%list.
Proof.
  induction names as [|n names IH]; intros a Ha Hall.
  - cbn [Path.join_all fold_left]. rewrite app_nil_r. auto.
  - cbn [forallb] in Hall. apply andb_prop in Hall. destruct Hall as [Hn Hall].
    rewrite !join_all_cons.
    destruct (IH (Path.join a n) (join_nonempty a n Ha) Hall) as (H1 & H2 & H3).
    split; [exact H1|]. split.
    + rewrite H2, (abs_arg_join cwd a n Ha Hn). reflexivity.
    + rewrite H3, (comps_join a n Ha Hn), <- app_assoc. reflexivity.
Qed.

Lemma commonprefix_app l m : Path.commonprefix l (l ++ m) = l.
Proof.
  induction l as [|x l IH]; [destruct m; reflexivity|].
  cbn [app Path.commonprefix]. rewrite String.eqb_refl, IH. reflexivity.
Qed.

Lemma join_names p : forall pre n,
  proper_name n = true -> forallb proper_name p = true ->
  fold_left Path.join p (pre +:+ n) = pre +:+ Str.join "/" (n :: p).
Proof.
  induction p as [|q p IH]; intros pre n Hn Hp; [reflexivity|].
  cbn [forallb] in Hp. apply andb_prop in Hp. destruct Hp as [Hq Hp].
  destruct (proper_name_inv n Hn) as (Hn0 & _ & _ & Hsl & _).
  cbn [fold_left]. rewrite (join_proper _ q Hq).
  rewrite (proj2 (String.eqb_neq _ _) (app_nonempty pre n Hn0)). cbn [orb].
  rewrite (endswith_app_r pre n Hn0), (endswith_slash_free n Hsl).
  replace ((pre +:+ n) +:+ "/" +:+ q) with ((pre +:+ n +:+ "/") +:+ q)
    by (rewrite !SrtFacts.str_app_assoc; reflexivity).
  rewrite (IH _ q Hq Hp).
  change (Str.join "/" (n :: q :: p)) with (n +:+ "/" +:+ Str.join "/" (q :: p)).
  rewrite !SrtFacts.str_app_assoc. reflexivity.
Qed.

(** The directory the walk has reached, seen from where it started. *)
Lemma relpath_mirror cwd inf names :
  startswith cwd "/" = true -> inf <> "" -> forallb proper_name names = true ->
  Path.relpath cwd (Path.join_all inf names) inf = Ok (relative names).
Proof.
  intros Hc Hi Hn. unfold Path.relpath.
  destruct (join_all_facts cwd names inf Hi Hn) as (H1 & H2 & _).
  rewrite (proj2 (String.eqb_neq _ _) H1), !abspath_arg.
  rewrite !abs_components by (apply abs_arg_abs; exact Hc).
  assert (Hx : abs_arg cwd inf <> "").
  { pose proof (abs_arg_abs cwd inf Hc) as Hs. destruct (abs_arg cwd inf); [discriminate|].
    discriminate. }
  destruct (join_all_facts cwd names (abs_arg cwd inf) Hx Hn) as (_ & _ & H3).
  rewrite H2, H3, commonprefix_app, Nat.sub_diag. cbn [replicate app].
  rewrite drop_app_length.
  destruct names as [|n p]; [reflexivity|]. cbn [relative].
  cbn [forallb] in Hn. apply andb_prop in Hn. destruct Hn as [Hn Hp].
  unfold Path.join_all. exact (f_equal Ok (join_names p "" n Hn Hp)).
Qed.

End PathFacts.

(** ** Extensions *)
Module ExtFacts.
Import Str StrFacts SuffixFacts PathFacts.

Lemma rsplit_none c s : contains c s = false -> Path.rsplit c s = None.
Proof.
  induction s as [|x s IH]; [reflexivity|].
  cbn [contains Path.rsplit]. intros H. apply orb_false_elim in H. destruct H as [Hx Hs].
  rewrite (IH Hs), Hx. reflexivity.
Qed.

Lemma rsplit_last c a e :
  contains c e = false -> Path.rsplit c (a +:+ String c e) = Some (a, e).
Proof.
  intros He. induction a as [|x a IH].
  - rewrite app_nil. cbn [Path.rsplit]. rewrite (rsplit_none c e He), Ascii.eqb_refl.
    reflexivity.
  - rewrite app_cons. cbn [Path.rsplit]. rewrite IH. reflexivity.
Qed.

Lemma splitext_path d stem e :
  proper_stem stem = true -> contains "." e = false -> contains "/" e = false ->
  Path.splitext (d +:+ "/" +:+ stem +:+ String "." e) = (d +:+ "/" +:+ stem, String "." e).
Proof.
  unfold proper_stem. intros Hs He1 He2.
  apply andb_prop in Hs. destruct Hs as [Hs1 Hs2]. apply negb_true_iff in Hs1, Hs2.
  change Path.sep with "/"%char in Hs1. change Path.extsep with "."%char in Hs2.
  unfold Path.splitext. change Path.sep with "/"%char. change Path.extsep with "."%char.
  change ("/" +:+ stem +:+ String "." e) with (String "/" (stem +:+ String "." e)).
  rewrite rsplit_last.
  2:{ rewrite LineFacts.contains_app, Hs1. cbn [contains orb]. exact He2. }
  rewrite (rsplit_last "." stem e He1), Hs2, !SrtFacts.str_app_assoc. reflexivity.
Qed.

Lemma splitext_name stem e :
  proper_stem stem = true -> contains "." e = false -> contains "/" e = false ->
  Path.splitext (stem +:+ String "." e) = (stem, String "." e).
Proof.
  unfold proper_stem. intros Hs He1 He2.
  apply andb_prop in Hs. destruct Hs as [Hs1 Hs2]. apply negb_true_iff in Hs1, Hs2.
  change Path.sep with "/"%char in Hs1. change Path.extsep with "."%char in Hs2.
  unfold Path.splitext. change Path.sep with "/"%char. change Path.extsep with "."%char.
  rewrite rsplit_none.
  2:{ rewrite LineFacts.contains_app, Hs1. cbn [contains orb]. exact He2. }
  rewrite (rsplit_last "." stem e He1), Hs2. reflexivity.
Qed.

(** A character that lower-cases to a dot or a digit is that character;
    one that lower-cases to a letter is neither a dot nor a separator. *)
Lemma lower_char_dot c : lower_char c = "."%char -> c = "."%char.
Proof.
  unfold lower_char. destruct ((65 <=? ord c) && (ord c <=? 90)) eqn:Hr; [|auto].
  apply andb_prop in Hr. destruct Hr as [H1 H2]. apply Z.leb_le in H1, H2.
  intros H. apply (f_equal ord) in H.
  assert (Ho : ord (chr (ord c + 32)) = ord c + 32).
  { unfold chr. unfold ord at 1. rewrite N_ascii_embedding.
    - rewrite Z2N.id; lia.
    - apply N2Z.inj_lt. rewrite Z2N.id by lia. change (Z.of_N 256) with 256. lia. }
  rewrite Ho in H. change (ord ".") with 46 in H. lia.
Qed.

Lemma lower_char_other c x :
  lower_char c = x -> x <> "."%char -> x <> "/"%char ->
  Ascii.eqb c "." = false /\ Ascii.eqb c "/" = false.
Proof.
  intros H Hd Hs. split; apply Ascii.eqb_neq; intros ->; vm_compute in H; congruence.
Qed.

Lemma lower_ext_inv ext :
  lower ext = ".mp3" ->
  exists e, ext = String "." e /\ contains "." e = false /\ contains "/" e = false.
Proof.
  destruct ext as [|c0 [|c1 [|c2 [|c3 [|c4 r]]]]]; try discriminate.
  cbn [lower]. intros H. inversion H as [[H0 H1 H2 H3]].
  apply lower_char_dot in H0. subst c0.
  exists (String c1 (String c2 (String c3 ""))). split; [reflexivity|].
  destruct (lower_char_other c1 _ H1) as [A1 B1]; try discriminate.
  destruct (lower_char_other c2 _ H2) as [A2 B2]; try discriminate.
  destruct (lower_char_other c3 _ H3) as [A3 B3]; try discriminate.
  cbn [contains]. change (lower_char ".") with "."%char.
  rewrite A1, A2, A3, B1, B2, B3. split; reflexivity.
Qed.

End ExtFacts.

(** ** The output paths of the driver *)
Module MirrorFacts.
Import Str StrFacts SuffixFacts PathFacts ExtFacts.

Lemma join_names_end p : forall n,
  proper_name n = true -> forallb proper_name p = true ->
  Str.join "/" (n :: p) <> "" /\
  startswith (Str.join "/" (n :: p)) "/" = false /\
  endswith (Str.join "/" (n :: p)) "/" = false.
Proof.
  induction p as [|q p IH]; intros n Hn Hp;
    destruct (proper_name_inv n Hn) as (Hn0 & _ & _ & Hsl & Hst).
  - cbn [Str.join]. split; [exact Hn0|]. split; [exact Hst|].
    apply endswith_slash_free. exact Hsl.
  - cbn [forallb] in Hp. apply andb_prop in Hp. destruct Hp as [Hq Hp].
    destruct (IH q Hq Hp) as (H1 & _ & H3).
    change (Str.join "/" (n :: q :: p)) with (n +:+ "/" +:+ Str.join "/" (q :: p)).
    split; [apply app_nonempty, app_nonempty; exact H1|]. split.
    + destruct n as [|x n]; [congruence|]. rewrite app_cons.
      cbn [startswith] in Hst |- *. rewrite startswith_empty in *. exact Hst.
    + rewrite endswith_app_r by (apply app_nonempty; exact H1).
      rewrite endswith_app_r by exact H1. exact H3.
Qed.

Lemma relative_facts names :
  forallb proper_name names = true ->
  relative names <> "" /\ startswith (relative names) "/" = false /\
  endswith (relative names) "/" = false.
Proof.
  destruct names as [|n p]; intros H.
  - cbn. repeat split; discriminate.
  - cbn [forallb] in H. apply andb_prop in H. destruct H as [Hn Hp].
    apply join_names_end; assumption.
Qed.

(** The directory of the outputs, and a file in it. *)
Lemma out_dir_facts outf names :
  forallb proper_name names = true ->
  Path.join outf (relative names) <> "" /\
  endswith (Path.join outf (relative names)) "/" = false.
Proof.
  intros H. destruct (relative_facts names H) as (H1 & H2 & H3).
  rewrite (join_plain outf _ H2). destruct (_ || _).
  - split; [apply app_nonempty; exact H1|]. rewrite endswith_app_r by exact H1. exact H3.
  - split; [apply app_nonempty, app_nonempty; exact H1|].
    rewrite endswith_app_r by (apply app_nonempty; exact H1).
    rewrite endswith_app_r by exact H1. exact H3.
Qed.

Lemma proper_stem_start stem x :
  proper_stem stem = true -> startswith (stem +:+ x) "/" = false.
Proof.
  unfold proper_stem. intros H. apply andb_prop in H. destruct H as [H1 H2].
  apply negb_true_iff in H1, H2. destruct stem as [|c stem]; [discriminate|].
  rewrite app_cons. cbn [startswith contains] in *. rewrite startswith_empty.
  apply orb_false_elim in H1. destruct H1 as [H1 _].
  change Path.sep with "/"%char in H1. rewrite Ascii.eqb_sym, H1. reflexivity.
Qed.

Lemma out_file d stem x :
  d <> "" -> endswith d "/" = false -> proper_stem stem = true ->
  Path.join d (stem +:+ x) = d +:+ "/" +:+ stem +:+ x.
Proof.
  intros Hd He Hs. rewrite (join_plain d _ (proper_stem_start stem x Hs)).
  rewrite (proj2 (String.eqb_neq _ _) Hd), He. reflexivity.
Qed.

Lemma app_inv_head (a b c : string) : a +:+ b = a +:+ c -> b = c.
Proof.
  induction a as [|x a IH]; [rewrite !app_nil; auto|].
  rewrite !app_cons. intros H. inversion H. auto.
Qed.

Lemma matches_txt a : matches_filter (a +:+ ".txt") = false.
Proof.
  unfold matches_filter, endswith. rewrite lower_app, rev_app.
  change (String.rev (lower ".txt")) with "txt.". rewrite !app_cons. reflexivity.
Qed.

Lemma matches_srt a : matches_filter (a +:+ ".srt") = false.
Proof.
  unfold matches_filter, endswith. rewrite lower_app, rev_app.
  change (String.rev (lower ".srt")) with "trs.". rewrite !app_cons. reflexivity.
Qed.

Lemma tree_names t : forall top root ds fnames,
  proper_tree t = true -> In (root, ds, fnames) (Walk.walk top t) ->
  exists names, forallb proper_name names = true /\ root = Path.join_all top names.
Proof.
  induction t as [n subs fs IH] using tree_induction.
  intros top root ds fnames Hp Hin. cbn [Walk.walk] in Hin. cbn [proper_tree] in Hp.
  destruct Hin as [Heq|Hin].
  - inversion Heq; subst. exists []. split; reflexivity.
  - apply in_flat_map in Hin. destruct Hin as (s & Hs & Hin).
    rewrite forallb_forall in Hp. specialize (Hp s Hs).
    apply andb_prop in Hp. destruct Hp as [Hn Hps].
    rewrite Forall_forall in IH.
    destruct (IH s (proj2 (list_elem_of_In _ _) Hs) _ _ _ _ Hps Hin) as (names & Hnames & ->).
    exists (tree_name s :: names). split; [|reflexivity].
    cbn [forallb]. rewrite Hn, Hnames. reflexivity.
Qed.

End MirrorFacts.

Lemma save_srt_file_ok res p w w' :
  Srt.save_srt_file res p w = (Ok tt, w') ->
  denied w' = denied w /\
  (default [] (segments res) = [] -> files w' = files w) /\
  (default [] (segments res) <> [] -> exists c, files w' = <[p := c]> (files w)).
Proof.
  unfold Srt.save_srt_file.
  destruct (default [] (segments res)) as [|sg rest].
  - rewrite OSFacts.print_effect. intros H. inversion H; subst.
    split; [reflexivity|]. split; [reflexivity|congruence].
  - unfold bind, lift. destruct (Srt.srt_loop 1 (sg :: rest) []) as [lines|e]; [|discriminate].
    match goal with |- context [OS.makedirs ?d ?w0] =>
      pose proof (OSFacts.makedirs_effect d w0) as Hmk;
      destruct (OS.makedirs d w0) as [[[]|e] w3] end; [|discriminate].
    match goal with |- context [OS.write_text ?q ?s ?w0] =>
      pose proof (OSFacts.write_text_effect q s w0) as Hwr;
      destruct (OS.write_text q s w0) as [[[]|e] w4] end; [|discriminate].
    rewrite OSFacts.print_effect. intros H. inversion H; subst.
    destruct Hmk as (Hf3 & Hd3 & _). destruct Hwr as (_ & Hd4 & _ & _ & Hf4 & _).
    cbn [files denied set_stdout].
    split; [congruence|]. split; [discriminate|]. intros _.
    eexists. rewrite (Hf4 eq_refl), Hf3. reflexivity.
Qed.

(** The disk after a job of the subtitle script that returned normally. *)
Lemma srt_job_ok md i o l w w' :
  Srt.transcribe_audio_to_text md i o l w = (Ok tt, w') ->
  o <> i -> srt_path o <> i -> srt_path o <> o ->
  exists res, md i l w = Ok res /\
    files w' !! o = Some (text_document res) /\
    (default [] (segments res) <> [] -> is_Some (files w' !! srt_path o)) /\
    (default [] (segments res) = [] -> files w' !! srt_path o = files w !! srt_path o) /\
    (i ∈ dom (files w) -> i ∉ denied w -> files w' !! i = None).
Proof.
  intros Hjob Hoi Hsi Hso.
  assert (Hrun : exists res w1 w2,
             md i l w = Ok res /\ files w1 = <[o := text_document res]> (files w) /\
             denied w1 = denied w /\
             Srt.save_srt_file res (srt_path o) w1 = (Ok tt, w2) /\
             Srt.delete_input i w2 = (Ok tt, w')).
  { revert Hjob. unfold Srt.transcribe_audio_to_text, bind, try_except, OS.transcribe.
    destruct (md i l w) as [res|e]; [|discriminate].
    rewrite OSFacts.print_effect.
    match goal with |- context [OS.makedirs ?d ?w0] =>
      pose proof (OSFacts.makedirs_effect d w0) as Hmk;
      destruct (OS.makedirs d w0) as [[[]|e] w3] end; [|discriminate].
    match goal with |- context [OS.write_text ?q ?s ?w0] =>
      pose proof (OSFacts.write_text_effect q s w0) as Hwr;
      destruct (OS.write_text q s w0) as [[[]|e] w4] end; [|discriminate].
    rewrite OSFacts.print_effect.
    fold (srt_path o).
    match goal with |- context [Srt.save_srt_file ?r ?q ?w0] =>
      destruct (Srt.save_srt_file r q w0) as [[[]|e] w5] eqn:Hsave end; [|discriminate].
    intros Hdel. exists res. eexists. exists w5.
    split; [reflexivity|]. split; [|split; [|split; [exact Hsave|exact Hdel]]].
    - destruct Hmk as (Hf3 & _). destruct Hwr as (_ & _ & _ & _ & Hf4 & _).
      cbn [files set_stdout]. rewrite (Hf4 eq_refl), Hf3. reflexivity.
    - destruct Hmk as (_ & Hd3 & _). destruct Hwr as (_ & Hd4 & _).
      cbn [denied set_stdout]. rewrite Hd4, Hd3. reflexivity. }
  destruct Hrun as (res & w1 & w2 & Hmd & Hf1 & Hd1 & Hsave & Hdel).
  destruct (save_srt_file_ok _ _ _ _ Hsave) as (Hd2 & Hnone & Hsome).
  exists res. split; [exact Hmd|].
  assert (Ho2 : files w2 !! o = Some (text_document res)).
  { destruct (default [] (segments res)) as [|sg rest].
    - rewrite (Hnone eq_refl), Hf1. apply lookup_insert_eq.
    - destruct (Hsome ltac:(discriminate)) as [c ->].
      rewrite lookup_insert_ne by exact Hso. rewrite Hf1. apply lookup_insert_eq. }
  assert (Hi2 : i ∈ dom (files w) -> i ∈ dom (files w2)).
  { intros Hi. destruct (default [] (segments res)) as [|sg rest].
    - rewrite (Hnone eq_refl), Hf1, dom_insert_L. apply elem_of_union_r. exact Hi.
    - destruct (Hsome ltac:(discriminate)) as [c ->].
      rewrite Hf1, !dom_insert_L. apply elem_of_union_r, elem_of_union_r. exact Hi. }
  destruct (delete_input_files _ _ _ _ Hdel) as (_ & Hfiles).
  split; [|split; [|split]].
  - destruct Hfiles as [->| ->]; [exact Ho2|].
    rewrite lookup_delete_ne by (intros Heq; apply Hoi; symmetry; exact Heq). exact Ho2.
  - intros Hne. destruct (Hsome Hne) as [c Hc].
    assert (H2 : files w2 !! srt_path o = Some c) by (rewrite Hc; apply lookup_insert_eq).
    destruct Hfiles as [->| ->]; [rewrite H2; eauto|].
    rewrite lookup_delete_ne by (intros Heq; apply Hsi; symmetry; exact Heq).
    rewrite H2. eauto.
  - intros He.
    assert (H2 : files w2 !! srt_path o = files w !! srt_path o).
    { rewrite (Hnone He), Hf1. apply lookup_insert_ne. intros Heq. apply Hso.
      symmetry. exact Heq. }
    destruct Hfiles as [->| ->]; [exact H2|].
    rewrite lookup_delete_ne by (intros Heq; apply Hsi; symmetry; exact Heq). exact H2.
  - intros Hi Hden.
    destruct (JobFacts.delete_input_done i w2 (Hi2 Hi)) as (w3 & Hdone & Hf3 & _).
    { rewrite Hd2, Hd1. exact Hden. }
    rewrite Hdel in Hdone. inversion Hdone; subst. rewrite Hf3. apply lookup_delete_eq.
Qed.

(** * The claims *)

(** ** The timestamp below one hour *)

(** C1, as the code has it: for a finite [s] with [0 <= s < 3600],
    [format_timestamp] returns a text of the shape [HH:MM:SS,mmm] with
    fields of 2, 2, 2 and 3 digits, which read back give hour 0, the
    whole minutes and the remaining whole seconds of [s], and the
    milliseconds the code computed.  Those are the integer part of the
    double nearest to [1000 * frac(s)]: the truncated milliseconds of [s]
    or one more, and never above 999.  [format_timestamp(125.4567)] is
    ["00:02:05,456"]. *)
Theorem format_timestamp_below_an_hour s :
  Num.nonneg s -> Num.scaled s < 3600 * Binary64.U ->
  (exists t, format_timestamp s = Ok t /\ timestamp_shape t = true /\
     parse_timestamp t =
     Some (0, Num.whole s / 60, Num.whole s mod 60, Num.millis s)) /\
  exact_millis s <= Num.millis s <= exact_millis s + 1 /\
  Num.millis s <= 999 /\
  format_timestamp (Float (Binary64.literal 1254567 4)) = Ok "00:02:05,456".
Proof.
  intros Hs Hlt.
  pose proof (whole_nonneg s Hs) as Hw0.
  pose proof (whole_lt s 3600 Hs Hlt) as Hw1.
  destruct (hours_facts s Hs) as (_ & Hh & _).
  assert (H53 : 3600 * Binary64.U < 2 ^ 53 * Binary64.U).
  { apply Zmult_lt_compat_r; [apply B64.U_pos|]. vm_compute. reflexivity. }
  assert (Hh0 : Num.hours s = 0).
  { rewrite Hh by lia. apply Z.div_small. lia. }
  pose proof (millis_bounds s Hs) as Hms.
  split; [|split; [apply MillisFacts.millis_close; exact Hs|split; [lia|]]].
  - eexists. split; [apply format_timestamp_value; exact Hs|].
    rewrite Hh0, (Z.mod_small (Num.whole s) 3600) by lia.
    pose proof (Z.mod_pos_bound (Num.whole s) 60 ltac:(lia)).
    assert (0 <= Num.whole s / 60 < 60).
    { split; [apply Z.div_pos; lia|apply Z.div_lt_upper_bound; lia]. }
    split; [apply FieldFacts.shape_time; lia|apply FieldFacts.parse_time; lia].
  - vm_compute. reflexivity.
Qed.

Lemma format_timestamp_below_an_hour_witness :
  let s := Float (Binary64.literal 435 2) in
  (exists t, format_timestamp s = Ok t /\ timestamp_shape t = true /\
     parse_timestamp t =
     Some (0, Num.whole s / 60, Num.whole s mod 60, Num.millis s)) /\
  exact_millis s <= Num.millis s <= exact_millis s + 1 /\
  Num.millis s <= 999 /\
  format_timestamp (Float (Binary64.literal 1254567 4)) = Ok "00:02:05,456".
Proof.
  apply (format_timestamp_below_an_hour (Float (Binary64.literal 435 2))).
  - vm_compute. reflexivity.
  - vm_compute. reflexivity.
Defined.

(** C1, as the specification has it, fails at the double nearest to
    0.999, which is a little below it (a thousand times its value is
    less than 999): the text shows 999 milliseconds where cutting the
    fraction of that double gives 998. *)
Lemma format_timestamp_rounds_the_product :
  let s := Float (Binary64.literal 999 3) in
  Num.nonneg s /\ Num.scaled s < 3600 * Binary64.U /\
  1000 * Num.scaled s < 999 * Binary64.U /\
  format_timestamp s = Ok "00:00:00,999" /\
  parse_timestamp "00:00:00,999" = Some (0, 0, 0, 999) /\
  exact_millis s = 998.
Proof. vm_compute. repeat split; reflexivity. Qed.

(** ** The subtitle file *)



(** ** The output paths and the disk after a job *)

(** C3, as the code has it: for a file [stem.ext] of the walk, [ext]
    being [.mp3] in any mix of cases and [stem] a name not made of dots
    only, found in the directory reached from the input folder through
    the sub-directories [names], the driver of the subtitle script runs
    its job on the text path [output_folder/names/stem.txt] (with [.] for
    [names] in the input folder itself), and the job takes
    [output_folder/names/stem.srt] as its subtitle path.  After a job
    that returns normally the text file holds the transcript, the
    subtitle file exists if the result had segments and is untouched if it
    had none, and the audio file is gone provided it was there and the OS
    let it be removed. *)
Theorem batch_mirrors_paths E md inf outf l t root ds fnames stem ext w :
  Str.startswith (getcwd E) "/" = true ->
  listing E inf = Some t -> proper_tree t = true ->
  (root, ds, fnames) ∈ Walk.os_walk E inf -> (stem +:+ ext) ∈ fnames ->
  proper_stem stem = true -> Str.lower ext = ".mp3" ->
  exists names,
    forallb proper_name names = true /\ root = Path.join_all inf names /\
    let i := Path.join root (stem +:+ ext) in
    let out_dir := Path.join outf (relative names) in
    let o := Path.join out_dir (stem +:+ ".txt") in
    let srt := Path.join out_dir (stem +:+ ".srt") in
    Srt.batch_file E md inf outf l root (stem +:+ ext) =
      try_except (Srt.transcribe_audio_to_text md i o l)
        (fun e => OS.print ("Не удалось транскрибировать " +:+ i +:+ ": " +:+ exn_str e
                            +:+ Str.newline)) /\
    srt_path o = srt /\
    forall w', Srt.transcribe_audio_to_text md i o l w = (Ok tt, w') ->
      exists res, md i l w = Ok res /\
        files w' !! o = Some (text_document res) /\
        (default [] (segments res) <> [] -> is_Some (files w' !! srt)) /\
        (default [] (segments res) = [] -> files w' !! srt = files w !! srt) /\
        (i ∈ dom (files w) -> i ∉ denied w -> files w' !! i = None).
Proof.
  intros Hcwd Hlist Htree Hin _ Hstem Hext.
  unfold Walk.os_walk in Hin. destruct (String.eqb inf "") eqn:Hinf.
  { apply elem_of_nil in Hin. destruct Hin. }
  apply String.eqb_neq in Hinf. rewrite Hlist in Hin. apply list_elem_of_In in Hin.
  destruct (MirrorFacts.tree_names t inf root ds fnames Htree Hin) as (names & Hnames & ->).
  exists names. split; [exact Hnames|]. split; [reflexivity|].
  destruct (ExtFacts.lower_ext_inv ext Hext) as (e & -> & He1 & He2).
  destruct (MirrorFacts.out_dir_facts outf names Hnames) as (Hd1 & Hd2).
  cbv zeta.
  rewrite !(MirrorFacts.out_file _ stem _ Hd1 Hd2 Hstem).
  set (d := Path.join outf (relative names)) in *.
  assert (Hsrt : srt_path (d +:+ "/" +:+ stem +:+ ".txt") = d +:+ "/" +:+ stem +:+ ".srt").
  { unfold srt_path. change ".txt" with (String "." "txt").
    rewrite (ExtFacts.splitext_path d stem "txt" Hstem) by reflexivity.
    cbn [fst]. rewrite !SrtFacts.str_app_assoc. reflexivity. }
  split; [|split; [exact Hsrt|]].
  - unfold Srt.batch_file. fold (matches_filter (stem +:+ String "." e)).
    rewrite (SuffixFacts.matches_ext stem _ Hext).
    rewrite (PathFacts.relpath_mirror (getcwd E) inf names Hcwd Hinf Hnames).
    unfold bind, lift. cbv beta iota.
    rewrite (ExtFacts.splitext_name stem e Hstem He1 He2). cbn [fst].
    fold d. rewrite (MirrorFacts.out_file d stem ".txt" Hd1 Hd2 Hstem). reflexivity.
  - intros w' Hjob.
    assert (Hi : matches_filter (Path.join (Path.join_all inf names) (stem +:+ String "." e))
                 = true).
    { apply SuffixFacts.matches_join, SuffixFacts.matches_ext. exact Hext. }
    assert (Ho : matches_filter (d +:+ "/" +:+ stem +:+ ".txt") = false).
    { rewrite <- !SrtFacts.str_app_assoc. apply MirrorFacts.matches_txt. }
    assert (Hs : matches_filter (d +:+ "/" +:+ stem +:+ ".srt") = false).
    { rewrite <- !SrtFacts.str_app_assoc. apply MirrorFacts.matches_srt. }
    rewrite <- Hsrt. apply (srt_job_ok md _ _ l w w' Hjob).
    + intros Heq. rewrite Heq in Ho. congruence.
    + rewrite Hsrt. intros Heq. rewrite Heq in Hs. congruence.
    + rewrite Hsrt. intros Heq.
      apply MirrorFacts.app_inv_head, MirrorFacts.app_inv_head, MirrorFacts.app_inv_head in Heq.
      discriminate.
Qed.

Lemma batch_mirrors_paths_witness :
  let E := example_env example_model in
  let w := one_file "audio/sub/a.mp3" in
  exists names,
    forallb proper_name names = true /\ "audio/sub" = Path.join_all "audio" names /\
    let i := Path.join "audio/sub" ("a" +:+ ".mp3") in
    let out_dir := Path.join "result" (relative names) in
    let o := Path.join out_dir ("a" +:+ ".txt") in
    let srt := Path.join out_dir ("a" +:+ ".srt") in
    Srt.batch_file E example_model "audio" "result" "ru" "audio/sub" ("a" +:+ ".mp3") =
      try_except (Srt.transcribe_audio_to_text example_model i o "ru")
        (fun e => OS.print ("Не удалось транскрибировать " +:+ i +:+ ": " +:+ exn_str e
                            +:+ Str.newline)) /\
    srt_path o = srt /\
    forall w', Srt.transcribe_audio_to_text example_model i o "ru" w = (Ok tt, w') ->
      exists res, example_model i "ru" w = Ok res /\
        files w' !! o = Some (text_document res) /\
        (default [] (segments res) <> [] -> is_Some (files w' !! srt)) /\
        (default [] (segments res) = [] -> files w' !! srt = files w !! srt) /\
        (i ∈ dom (files w) -> i ∉ denied w -> files w' !! i = None).
Proof.
  apply (batch_mirrors_paths (example_env example_model) example_model "audio" "result" "ru"
           example_tree "audio/sub" [] ["a.mp3"; "notes.wav"] "a" ".mp3"
           (one_file "audio/sub/a.mp3")).
  - reflexivity.
  - reflexivity.
  - reflexivity.
  - apply list_elem_of_In. vm_compute. right. left. reflexivity.
  - apply list_elem_of_In. left. reflexivity.
  - reflexivity.
  - reflexivity.
Defined.

(** C3, as the specification has it, fails in two ways.  A job whose
    audio file the OS refuses to remove returns normally, its outputs
    written, and the audio file is still there.  And a file named [.mp3]
    passes the filter but has no extension to replace: its text path is
    [.mp3.txt]. *)
Lemma locked_input_stays :
  let w := one_locked_file "audio/sub/a.mp3" in
  let run := Srt.transcribe_audio_to_text example_model "audio/sub/a.mp3"
               "result/sub/a.txt" "ru" w in
  fst run = Ok tt /\
  files (snd run) !! "result/sub/a.txt" = Some ("hello world" +:+ Str.newline) /\
  is_Some (files (snd run) !! "result/sub/a.srt") /\
  files (snd run) !! "audio/sub/a.mp3" = Some "RIFF" /\
  matches_filter ".mp3" = true /\
  Path.join (Path.join "result" "sub") (fst (Path.splitext ".mp3") +:+ ".txt")
  = "result/sub/.mp3.txt".
Proof. vm_compute. repeat split; eauto. Qed.

(** ** A failing model call *)



(** ** The extension filter *)


(** The example tree: the model receives [b.MP3] and [sub/a.mp3]; the
    files that are not audio stay. *)
Example batch_filter_example :
  let w := World {["audio/b.MP3" := "RIFF"; "audio/cover.jpg" := "JFIF";
                   "audio/sub/a.mp3" := "RIFF"; "audio/sub/notes.wav" := "RIFF"]}
                 ∅ ∅ [] [] in
  let w' := snd (batch_transcribe TxtScript (example_env example_model) "audio" "result" "ru" w) in
  transcribed w' = ["audio/b.MP3"; "audio/sub/a.mp3"] /\
  files w' !! "audio/cover.jpg" = Some "JFIF" /\
  files w' !! "audio/sub/notes.wav" = Some "RIFF" /\
  files w' !! "audio/b.MP3" = None /\
  files w' !! "audio/sub/a.mp3" = None /\
  files w' !! "result/sub/a.txt" = Some ("hello world" +:+ Str.newline).
Proof. vm_compute. repeat split; reflexivity. Qed.

(** ** No segments *)

(** C6: called with no segments (an empty list, or a result without the
    key), [save_srt_file] returns normally, writes no file and creates no
    directory, and prints one line saying that there is nothing to save. *)
Theorem save_srt_file_no_segments res p w :
  default [] (segments res) = [] ->
  exists w', Srt.save_srt_file res p w = (Ok tt, w') /\
    files w' = files w /\ dirs w' = dirs w /\
    stdout w' = (stdout w ++ ["Нет сегментов для сохранения в формате SRT."])%list.
Proof.
  intros H. rewrite (SrtFacts.save_srt_file_empty _ _ _ H).
  eexists. split; [reflexivity|]. repeat split.
Qed.

Lemma save_srt_file_no_segments_witness :
  exists w', Srt.save_srt_file (Transcription (Some "hello") None) "result/a.srt"
               (one_file "audio/a.mp3") = (Ok tt, w') /\
    files w' = files (one_file "audio/a.mp3") /\ dirs w' = dirs (one_file "audio/a.mp3") /\
    stdout w' = ["Нет сегментов для сохранения в формате SRT."].
Proof.
  apply (save_srt_file_no_segments (Transcription (Some "hello") None) "result/a.srt"
           (one_file "audio/a.mp3")).
  reflexivity.
Defined.

(** ** A refused removal *)

(** C7: when the outputs of a job are written and the removal of the audio
    file is refused (the file is protected, or it is gone), either script
    prints the report of the refusal and returns normally; nothing else
    changes, so the outputs stay as written. *)
Theorem deletion_failure_is_reported sc md i o l w w1 :
  outputs sc md i o l w = (Ok tt, w1) ->
  i ∈ denied w1 \/ i ∉ dom (files w1) ->
  exists e w',
    OS.remove i w1 = (Raise e, w1) /\
    job sc md i o l w = (Ok tt, w') /\
    files w' = files w1 /\
    stdout w' = (stdout w1 ++ [deletion_report i e])%list.
Proof.
  intros Hout Href. destruct (OSFacts.remove_refused i w1 Href) as [e He].
  exists e. eexists. split; [exact He|].
  rewrite job_split, (bind_ok _ _ _ _ _ Hout), (JobFacts.delete_input_refused _ _ _ He).
  split; [reflexivity|]. split; reflexivity.
Qed.

Lemma deletion_failure_is_reported_witness :
  let w := one_locked_file "audio/a.mp3" in
  let w1 := snd (outputs SrtScript example_model "audio/a.mp3" "result/a.txt" "ru" w) in
  exists e w',
    OS.remove "audio/a.mp3" w1 = (Raise e, w1) /\
    job SrtScript example_model "audio/a.mp3" "result/a.txt" "ru" w = (Ok tt, w') /\
    files w' = files w1 /\
    stdout w' = (stdout w1 ++ [deletion_report "audio/a.mp3" e])%list.
Proof.
  apply (deletion_failure_is_reported SrtScript example_model "audio/a.mp3" "result/a.txt" "ru"
           (one_locked_file "audio/a.mp3")).
  - vm_compute. reflexivity.
  - left. vm_compute. reflexivity.
Defined.

(** ** The text file *)



(** ** Writing the subtitles twice *)

(** C9: running [save_srt_file] a second time on the same result and path
    ends as the first run did and leaves every file as the first run left
    it; when the first run wrote the subtitle file, the second writes the
    same text over it. *)
Theorem save_srt_file_idempotent res p w :
  let '(r1, w1) := Srt.save_srt_file res p w in
  let '(r2, w2) := Srt.save_srt_file res p w1 in
  r2 = r1 /\ files w2 = files w1 /\
  match r1, default [] (segments res) with
  | Ok _, _ :: _ => exists c, files w1 !! p = Some c /\ files w2 !! p = Some c
  | _, _ => True
  end.
Proof.
  unfold Srt.save_srt_file.
  destruct (default [] (segments res)) as [|sg rest].
  - cbn. split; [reflexivity|]. split; [reflexivity|]. exact I.
  - unfold bind, lift. destruct (Srt.srt_loop 1 (sg :: rest) []) as [lines|e].
    2:{ split; [reflexivity|]. split; [reflexivity|]. exact I. }
    unfold OS.makedirs.
    destruct (String.eqb (Path.dirname p) "") eqn:Hd0.
    { run. split; [reflexivity|]. split; [reflexivity|]. exact I. }
    destruct (bool_decide (Path.dirname p ∈ dom (files w))) eqn:Hd1.
    { run. rewrite Hd1. split; [reflexivity|]. split; [reflexivity|]. exact I. }
    destruct (bool_decide (Path.dirname p ∈ denied w)) eqn:Hd2.
    { run. rewrite Hd1, Hd2. split; [reflexivity|]. split; [reflexivity|].
      exact I. }
    unfold OS.write_text. cbn [files dirs denied set_dirs].
    assert (Hin : bool_decide (Path.dirname p ∈ {[Path.dirname p]} ∪ dirs w) = true).
    { apply bool_decide_eq_true_2. apply elem_of_union_l. apply elem_of_singleton. reflexivity. }
    rewrite Hin. rewrite andb_false_r.
    destruct (bool_decide (p ∈ {[Path.dirname p]} ∪ dirs w)) eqn:Hp1.
    { run. rewrite Hd1, Hd2. run. rewrite bool_decide_union_idem, Hp1.
      split; [reflexivity|]. split; [reflexivity|]. exact I. }
    destruct (bool_decide (p ∈ denied w)) eqn:Hp2.
    { run. rewrite Hd1, Hd2. run. rewrite bool_decide_union_idem, Hp1, Hp2.
      split; [reflexivity|]. split; [reflexivity|]. exact I. }
    unfold OS.print. run.
    assert (Hne : p <> Path.dirname p).
    { intros Heq. apply bool_decide_eq_false_1 in Hp1. apply Hp1.
      apply elem_of_union_l. apply elem_of_singleton. exact Heq. }
    assert (Hd1' : bool_decide (Path.dirname p ∈
                     dom (<[p := Str.join Str.newline lines]> (files w))) = false).
    { apply bool_decide_eq_false_2. rewrite dom_insert_L. intros Hx.
      apply elem_of_union in Hx. destruct Hx as [Hx|Hx].
      - apply elem_of_singleton in Hx. apply Hne. symmetry. exact Hx.
      - apply bool_decide_eq_false_1 in Hd1. exact (Hd1 Hx). }
    rewrite Hd1', Hd2. run.
    rewrite (bool_decide_union_idem p), Hp1, Hp2.
    rewrite (bool_decide_union_idem (Path.dirname p)), Hin, andb_false_r. run.
    split; [reflexivity|]. split; [apply insert_insert_eq|].
    exists (Str.join Str.newline lines).
    rewrite insert_insert_eq. split; apply lookup_insert_eq.
Qed.

(** ** Totality and the hours field *)



(** * Further facts *)

(** ** More on the time text *)
Module StampFacts.
Import Str StrFacts FieldFacts.

(** A time whose hours need more than two digits has lost the shape. *)
Lemma shape_wide h m s ms :
  100 <= h -> 0 <= m -> 0 <= s -> 0 <= ms ->
  timestamp_shape (format_int 2 h +:+ ":" +:+ format_int 2 m +:+ ":"
                   +:+ format_int 2 s +:+ "," +:+ format_int 3 ms) = false.
Proof.
  intros Hh Hm Hs Hms. unfold timestamp_shape.
  destruct (split_time (format_int 2 h) (format_int 2 m) (format_int 2 s) (format_int 3 ms))
    as [H1 H2]; try (apply all_digits_format_int; lia).
  rewrite H1, H2.
  pose proof (format_int_wide 2 h ltac:(cbn; lia)) as Hw.
  destruct (Nat.eqb_spec (String.length (format_int 2 h)) 2) as [He|He]; [lia|].
  rewrite !andb_false_r. reflexivity.
Qed.

Lemma whole_split v :
  0 <= v -> v / 3600 * 3600 + v mod 3600 / 60 * 60 + v mod 60 = v.
Proof.
  intros Hv.
  pose proof (Z.div_mod v 3600 ltac:(lia)) as H1.
  pose proof (Z.div_mod (v mod 3600) 60 ltac:(lia)) as H2.
  assert (H3 : (v mod 3600) mod 60 = v mod 60).
  { apply Z.mod_mod_divide. exists 60. reflexivity. }
  lia.
Qed.


End StampFacts.

(** ** What a computation leaves alone *)

Lemma frame_refl P w : frame P w w.
Proof. intros p _. reflexivity. Qed.







Lemma frame_write_text (P : string -> Prop) q s : P q -> ensures (OS.write_text q s) (frame P).
Proof.
  intros HP w. pose proof (OSFacts.write_text_effect q s w) as H.
  destruct (OS.write_text q s w) as [r w']. destruct H as (_ & _ & _ & _ & Hok & Hbad).
  cbn [snd]. destruct r as [[]|e].
  - intros p Hp. rewrite (Hok eq_refl). apply lookup_insert_ne. intros ->. exact (Hp HP).
  - assert (Hr : @Raise unit e <> Ok tt) by (intros Heq; inversion Heq).
    rewrite (Hbad Hr). apply frame_refl.
Qed.









(** ** Failures inside a job *)

Lemma format_timestamp_bad a :
  not_finite a = true ->
  format_timestamp a = Raise (ValueError "cannot convert float NaN to integer").
Proof.
  destruct a as [z|f]; [discriminate|]. cbn [not_finite]. intros H.
  apply negb_true_iff in H. destruct f as [b|b| |b m e]; try discriminate; reflexivity.
Qed.

Lemma srt_block_bad i sg :
  bad_times sg ->
  Srt.srt_block i sg = Raise (ValueError "cannot convert float NaN to integer").
Proof.
  unfold Srt.srt_block. intros [H|[H1 H2]].
  - rewrite (format_timestamp_bad _ H). reflexivity.
  - rewrite (format_timestamp_text _ H1), (format_timestamp_bad _ H2). reflexivity.
Qed.

Lemma srt_loop_bad good bad rest : forall i acc,
  Forall segment_ok good -> bad_times bad ->
  Srt.srt_loop i (good ++ bad :: rest) acc
  = Raise (ValueError "cannot convert float NaN to integer").
Proof.
  induction good as [|sg good IH]; intros i acc Hgood Hbad.
  - cbn [app Srt.srt_loop]. rewrite (srt_block_bad i bad Hbad). reflexivity.
  - inversion Hgood as [|x l' Hsg Hrest]; subst.
    cbn [app Srt.srt_loop]. rewrite (SrtFacts.srt_block_ok i sg Hsg). cbn [rbind].
    apply IH; assumption.
Qed.

Lemma save_srt_file_bad res p w good bad rest :
  default [] (segments res) = (good ++ bad :: rest)%list ->
  Forall segment_ok good -> bad_times bad ->
  Srt.save_srt_file res p w
  = (Raise (ValueError "cannot convert float NaN to integer"), w).
Proof.
  intros Hs Hgood Hbad. unfold Srt.save_srt_file. rewrite Hs.
  destruct (good ++ bad :: rest)%list as [|sg l'] eqn:Hl.
  { destruct good; discriminate. }
  rewrite <- Hl. unfold bind, lift. rewrite (srt_loop_bad good bad rest 1 [] Hgood Hbad).
  reflexivity.
Qed.

Lemma dirname_bare o : Str.contains "/" o = false -> Path.dirname o = "".
Proof.
  intros H. unfold Path.dirname. change Path.sep with "/"%char.
  rewrite (ExtFacts.rsplit_none _ _ H). reflexivity.
Qed.


(** ** Runs of the driver *)

(** The driver up to the walk. *)
Lemma batch_transcribe_run sc E inf outf l w :
  batch_transcribe sc E inf outf l w =
  match load_model E "medium" (device E) with
  | Raise e =>
      (Raise e,
       set_stdout (fun out => out ++ ["Загрузка модели Whisper..."])%list
         (set_stdout (fun out => out ++ [device_line E])%list w))
  | Ok md =>
      bind (for_each (Walk.os_walk E inf)
              (fun '(root, _, fnames) =>
                 for_each fnames (batch_file sc E md inf outf l root)))
           (fun _ => OS.print "Пакетная транскрипция завершена.")
           (set_stdout (fun out => out ++ ["Модель загружена." +:+ Str.newline])%list
              (set_stdout (fun out => out ++ ["Загрузка модели Whisper..."])%list
                 (set_stdout (fun out => out ++ [device_line E])%list w)))
  end.
Proof.
  unfold device, device_line.
  destruct sc; cbn [batch_transcribe batch_file];
    unfold Srt.batch_transcribe, Txt.batch_transcribe;
    (destruct (cuda_is_available E);
     [change (String.eqb "cuda" "cuda") with true
     |change (String.eqb "cpu" "cuda") with false]);
    cbv iota;
    unfold bind at 1; rewrite OSFacts.print_effect;
    unfold bind at 1; rewrite OSFacts.print_effect;
    unfold bind at 1, lift at 1;
    destruct (load_model E "medium" _) as [md|e]; try reflexivity;
    unfold bind at 1; rewrite OSFacts.print_effect; reflexivity.
Qed.

(** A file the filter rejects costs nothing. *)
Lemma batch_file_skips sc E md inf outf l root file w :
  matches_filter file = false -> batch_file sc E md inf outf l root file w = (Ok tt, w).
Proof. intros H. rewrite batch_file_unfold, H. reflexivity. Qed.

Lemma files_loop_skips sc E md inf outf l root fnames : forall w,
  List.filter matches_filter fnames = [] ->
  for_each fnames (batch_file sc E md inf outf l root) w = (Ok tt, w).
Proof.
  induction fnames as [|file rest IH]; intros w H; [reflexivity|].
  cbn [List.filter] in H. destruct (matches_filter file) eqn:Hm; [discriminate|].
  cbn [for_each]. unfold bind. rewrite (batch_file_skips _ _ _ _ _ _ _ _ _ Hm).
  apply IH. exact H.
Qed.

Lemma walk_loop_skips sc E md inf outf l
      (entries : list (string * list string * list string)) : forall w,
  List.flat_map (fun '(root, _, fnames) =>
                   map (Path.join root) (List.filter matches_filter fnames)) entries = [] ->
  for_each entries
    (fun '(root, _, fnames) => for_each fnames (batch_file sc E md inf outf l root)) w
  = (Ok tt, w).
Proof.
  induction entries as [|[[root ds] fnames] rest IH]; intros w H; [reflexivity|].
  cbn [List.flat_map] in H. apply app_eq_nil in H. destruct H as [H1 H2].
  apply map_eq_nil in H1.
  cbn [for_each]. unfold bind. rewrite (files_loop_skips _ _ _ _ _ _ _ _ _ H1).
  apply IH. exact H2.
Qed.





(** ** The subtitle file, line by line *)
Module SrtLineFacts.
Import Str StrFacts.

Lemma join_file_lines segs : forall i,
  Str.join newline (srt_file_lines i segs) = Str.join newline (srt_blocks i segs).
Proof.
  induction segs as [|sg rest IH]; intros i; [reflexivity|].
  cbn [srt_file_lines srt_blocks]. specialize (IH (i + 1)).
  rewrite 3!SrtFacts.join_cons2.
  destruct rest as [|sg' rest'].
  - cbn [srt_file_lines srt_blocks Str.join]. unfold srt_block_text.
    rewrite SuffixFacts.app_empty_r, !SrtFacts.str_app_assoc. reflexivity.
  - remember (srt_file_lines (i + 1) (sg' :: rest')) as L eqn:HL.
    remember (srt_blocks (i + 1) (sg' :: rest')) as Bs eqn:HB.
    destruct L as [|h t]; [discriminate|].
    destruct Bs as [|h' t']; [discriminate|].
    rewrite 2!SrtFacts.join_cons2. rewrite IH.
    unfold srt_block_text. rewrite !SrtFacts.str_app_assoc. reflexivity.
Qed.

Lemma digits_one_line n : 0 <= n -> contains (chr 10) (digits n) = false.
Proof.
  intros Hn. apply FieldFacts.all_digits_contains; [reflexivity|].
  apply FieldFacts.all_digits_dec. exact Hn.
Qed.

Lemma format_int_one_line w n : 0 <= n -> contains (chr 10) (format_int w n) = false.
Proof.
  intros Hn. apply FieldFacts.all_digits_contains; [reflexivity|].
  apply FieldFacts.all_digits_format_int. exact Hn.
Qed.

Lemma timestamp_one_line s :
  Num.nonneg s -> contains (chr 10) (timestamp_text s) = false.
Proof.
  intros Hs. unfold timestamp_text. rewrite (format_timestamp_value s Hs).
  destruct (hours_facts s Hs) as (H0 & _).
  pose proof (whole_nonneg s Hs) as Hw.
  pose proof (millis_bounds s Hs) as Hms.
  pose proof (Z.mod_pos_bound (Num.whole s) 3600 ltac:(lia)).
  pose proof (Z.mod_pos_bound (Num.whole s) 60 ltac:(lia)).
  rewrite !LineFacts.contains_app.
  rewrite !format_int_one_line by (try apply Z.div_pos; lia).
  reflexivity.
Qed.

Lemma file_lines_one_line segs : forall i,
  0 <= i -> Forall segment_ok segs ->
  Forall (fun sg => contains (chr 10) (strip (default "" (seg_text sg))) = false) segs ->
  Forall (fun x => contains (chr 10) x = false) (srt_file_lines i segs).
Proof.
  induction segs as [|sg rest IH]; intros i Hi Hok Htext; [constructor|].
  inversion Hok as [|x l' [H1 H2] Hok']; subst.
  inversion Htext as [|x l' Ht Htext']; subst.
  cbn [srt_file_lines]. repeat constructor.
  - unfold of_int. destruct (Z.ltb_spec i 0); [lia|]. apply digits_one_line. exact Hi.
  - rewrite !LineFacts.contains_app, (timestamp_one_line _ H1), (timestamp_one_line _ H2).
    reflexivity.
  - exact Ht.
  - apply IH; [lia|assumption|assumption].
Qed.

Lemma file_lines_length segs : forall i,
  length (srt_file_lines i segs) = (4 * length segs)%nat.
Proof.
  induction segs as [|sg rest IH]; intros i; [reflexivity|].
  cbn [srt_file_lines length]. rewrite IH. lia.
Qed.

End SrtLineFacts.

(** ** Blank transcripts *)
Module BlankFacts.
Import Str.

Lemma all_space_replace t : all_space t = true -> all_space (replace (chr 10) " " t) = true.
Proof.
  induction t as [|c t IH]; [reflexivity|].
  cbn [all_space replace]. intros H. apply andb_prop in H. destruct H as [Hc Ht].
  rewrite (IH Ht), andb_true_r. destruct (Ascii.eqb c (chr 10)); [reflexivity|exact Hc].
Qed.

Lemma drop_while_blank s : forall n,
  (String.length s <= n)%nat -> all_space s = true -> drop_while n drop_space s = "".
Proof.
  induction s as [|c s IH]; intros n Hn Hs.
  - destruct n; reflexivity.
  - destruct n as [|n]; [cbn in Hn; lia|].
    cbn [all_space] in Hs. apply andb_prop in Hs. destruct Hs as [Hc Hs].
    cbn [drop_while drop_space]. rewrite Hc. apply IH; [cbn in Hn; lia|exact Hs].
Qed.

Lemma strip_blank s : all_space s = true -> strip s = "".
Proof.
  intros H. unfold strip, lstrip. rewrite (drop_while_blank s _ (Nat.le_refl _) H).
  reflexivity.
Qed.

Lemma normalized_blank t : all_space t = true -> normalized t = "".
Proof. intros H. unfold normalized. apply strip_blank, all_space_replace, H. Qed.

End BlankFacts.



(** ** What is never written *)

Lemma spares_refl P w : spares P w w.
Proof. intros p _. right. reflexivity. Qed.

Lemma spares_trans P w1 w2 w3 : spares P w1 w2 -> spares P w2 w3 -> spares P w1 w3.
Proof.
  intros H1 H2 p Hp. destruct (H2 p Hp) as [H|H]; [left; exact H|].
  rewrite H. apply H1. exact Hp.
Qed.

Lemma spares_same P w w' : files w' = files w -> spares P w w'.
Proof. intros H p _. right. rewrite H. reflexivity. Qed.

Lemma spares_print P s : ensures (OS.print s) (spares P).
Proof. intros w. apply spares_same. reflexivity. Qed.

Lemma spares_transcribe P md i l : ensures (OS.transcribe md i l) (spares P).
Proof. intros w. apply spares_same. reflexivity. Qed.

Lemma spares_makedirs P d : ensures (OS.makedirs d) (spares P).
Proof.
  intros w. pose proof (OSFacts.makedirs_effect d w) as H.
  destruct (OS.makedirs d w) as [r w']. apply spares_same. apply H.
Qed.

Lemma spares_write_text (P : string -> Prop) q s :
  ~ P q -> ensures (OS.write_text q s) (spares P).
Proof.
  intros HP w p Hp. right.
  apply (frame_write_text (eq q) q s eq_refl w). intros <-. exact (HP Hp).
Qed.

Lemma spares_remove P q : ensures (OS.remove q) (spares P).
Proof.
  intros w. pose proof (OSFacts.remove_effect q w) as H.
  destruct (OS.remove q w) as [r w']. destruct H as (_ & _ & _ & _ & Hok & Hbad).
  cbn [snd]. destruct r as [[]|e].
  - intros p _. rewrite (Hok eq_refl). destruct (decide (p = q)) as [->|Hne].
    + left. apply lookup_delete_eq.
    + right. apply lookup_delete_ne. intros Heq. apply Hne. symmetry. exact Heq.
  - assert (Hr : @Raise unit e <> Ok tt) by (intros Heq; inversion Heq).
    rewrite (Hbad Hr). apply spares_refl.
Qed.

Lemma sbind P {A B} (m : M A) (k : A -> M B) :
  ensures m (spares P) -> (forall a, ensures (k a) (spares P)) ->
  ensures (bind m k) (spares P).
Proof. apply ensures_bind. apply spares_trans. Qed.

Lemma stry P {A} (m : M A) h :
  ensures m (spares P) -> (forall e, ensures (h e) (spares P)) ->
  ensures (try_except m h) (spares P).
Proof. apply ensures_try. apply spares_trans. Qed.

Ltac spares_steps :=
  repeat first
    [ apply sbind; [|intros ?]
    | apply stry; [|intros ?]
    | apply ensures_raise; apply spares_refl
    | apply ensures_ret; apply spares_refl
    | apply ensures_lift; apply spares_refl
    | apply spares_print | apply spares_makedirs | apply spares_transcribe
    | apply spares_remove ].

Lemma spares_save_srt_file (P : string -> Prop) res p :
  ~ P p -> ensures (Srt.save_srt_file res p) (spares P).
Proof.
  intros HP. unfold Srt.save_srt_file. destruct (default [] (segments res)); spares_steps.
  apply spares_write_text. exact HP.
Qed.

Lemma spares_job (P : string -> Prop) sc md i o l :
  ~ P o -> ~ P (srt_path o) -> ensures (job sc md i o l) (spares P).
Proof.
  intros Ho Hs. destruct sc; cbn [job].
  - unfold Srt.transcribe_audio_to_text. spares_steps.
    + apply spares_write_text. exact Ho.
    + apply spares_save_srt_file. exact Hs.
  - unfold Txt.transcribe_audio_to_text. spares_steps. apply spares_write_text. exact Ho.
Qed.

Lemma spares_batch_file sc E md inf outf l root file :
  ensures (batch_file sc E md inf outf l root file)
          (spares (fun p => matches_filter p = true)).
Proof.
  rewrite batch_file_unfold. destruct (matches_filter file); spares_steps.
  apply spares_job.
  - destruct (SuffixFacts.join_suffix (Path.join outf a)
                (fst (Path.splitext file) +:+ ".txt")) as [pre ->].
    rewrite <- SrtFacts.str_app_assoc, MirrorFacts.matches_txt. discriminate.
  - unfold srt_path. rewrite MirrorFacts.matches_srt. discriminate.
Qed.

Lemma spares_batch sc E inf outf l :
  ensures (batch_transcribe sc E inf outf l) (spares (fun p => matches_filter p = true)).
Proof.
  intros w. rewrite batch_transcribe_run.
  destruct (load_model E "medium" (device E)) as [md|e];
    [|apply spares_same; reflexivity].
  match goal with |- spares _ _ (snd (bind ?m ?k ?w0)) =>
    apply (spares_trans _ w w0); [apply spares_same; reflexivity|generalize w0] end.
  apply sbind; [|intros _; apply spares_print].
  apply ensures_for_each; [apply spares_refl|apply spares_trans|].
  intros [[root ds] fnames] _.
  apply ensures_for_each; [apply spares_refl|apply spares_trans|].
  intros file _. apply spares_batch_file.
Qed.

(** ** Where the outputs go *)
Module OutputFacts.
Import Str StrFacts SuffixFacts PathFacts ExtFacts.









End OutputFacts.



(** * Further properties *)

(** ** The time text read back *)

(** X1: Up to [2^53] seconds the text of a finite non-negative time reads
    back as hours, minutes below 60, seconds below 60 and milliseconds
    below 1000, and the first three make up the whole seconds of the
    time; the text has the fixed shape exactly when the time is below
    100 hours. *)
Theorem format_timestamp_reads_back s :
  Num.nonneg s -> Num.scaled s < 2 ^ 53 * Binary64.U ->
  exists t h m sec ms,
    format_timestamp s = Ok t /\
    parse_timestamp t = Some (h, m, sec, ms) /\
    0 <= h /\ 0 <= m < 60 /\ 0 <= sec < 60 /\ 0 <= ms <= 999 /\
    h * 3600 + m * 60 + sec = Num.whole s /\
    (timestamp_shape t = true <-> Num.scaled s < 360000 * Binary64.U).
Proof.
  intros Hs Hlt.
  pose proof (whole_nonneg s Hs) as Hw0.
  destruct (hours_facts s Hs) as (Hh0 & Hh & Hbig).
  specialize (Hh Hlt).
  pose proof (millis_bounds s Hs) as Hms.
  pose proof (Z.mod_pos_bound (Num.whole s) 60 ltac:(lia)) as Hsec.
  pose proof (Z.mod_pos_bound (Num.whole s) 3600 ltac:(lia)) as Hrem.
  assert (Hmin : 0 <= Num.whole s mod 3600 / 60 < 60).
  { split; [apply Z.div_pos; lia|apply Z.div_lt_upper_bound; lia]. }
  eexists. exists (Num.hours s), (Num.whole s mod 3600 / 60), (Num.whole s mod 60),
                  (Num.millis s).
  split; [apply format_timestamp_value; exact Hs|].
  split; [apply FieldFacts.parse_time; lia|].
  split; [exact Hh0|]. split; [exact Hmin|]. split; [exact Hsec|]. split; [exact Hms|].
  split; [rewrite Hh; apply StampFacts.whole_split; exact Hw0|].
  pose proof B64.U_pos as HU.
  destruct (Z_lt_le_dec (Num.scaled s) (360000 * Binary64.U)) as [Hsmall|Hlarge].
  - split; [intros _; exact Hsmall|intros _].
    pose proof (whole_lt s 360000 Hs Hsmall) as Hw1.
    apply FieldFacts.shape_time; try lia.
    rewrite Hh. split; [apply Z.div_pos; lia|apply Z.div_lt_upper_bound; lia].
  - split; [|intros; lia]. intros Hshape.
    pose proof (Hbig Hlarge) as H100.
    rewrite StampFacts.shape_wide in Hshape by lia. discriminate.
Qed.

Lemma format_timestamp_reads_back_witness :
  let s := Float (Binary64.literal 36615 1) in
  exists t h m sec ms,
    format_timestamp s = Ok t /\
    parse_timestamp t = Some (h, m, sec, ms) /\
    0 <= h /\ 0 <= m < 60 /\ 0 <= sec < 60 /\ 0 <= ms <= 999 /\
    h * 3600 + m * 60 + sec = Num.whole s /\
    (timestamp_shape t = true <-> Num.scaled s < 360000 * Binary64.U).
Proof.
  apply (format_timestamp_reads_back (Float (Binary64.literal 36615 1))).
  - vm_compute. reflexivity.
  - vm_compute. reflexivity.
Defined.



(** ** The subtitle writer *)


(** X4: A segment whose start or end is an infinity or a NaN stops
    [save_srt_file] with [ValueError] before it creates the directory,
    writes or prints anything, whatever the segments after it. *)
Theorem save_srt_file_bad_times res p w good bad rest :
  default [] (segments res) = (good ++ bad :: rest)%list ->
  Forall segment_ok good -> bad_times bad ->
  Srt.save_srt_file res p w
  = (Raise (ValueError "cannot convert float NaN to integer"), w).
Proof. apply save_srt_file_bad. Qed.

Lemma save_srt_file_bad_times_witness :
  Srt.save_srt_file
    (Transcription None
       (Some [ Segment (Some (Float Binary64.zero)) (Some (Float Binary64.one)) (Some "a");
               Segment (Some (Float (S754_infinity false))) None (Some "b") ]))
    "result/a.srt" (one_file "audio/a.mp3")
  = (Raise (ValueError "cannot convert float NaN to integer"), one_file "audio/a.mp3").
Proof.
  apply (save_srt_file_bad_times _ "result/a.srt" (one_file "audio/a.mp3")
           [Segment (Some (Float Binary64.zero)) (Some (Float Binary64.one)) (Some "a")]
           (Segment (Some (Float (S754_infinity false))) None (Some "b")) []).
  - reflexivity.
  - repeat constructor; vm_compute; reflexivity.
  - left. reflexivity.
Defined.

(** X5: When every trimmed text is on one line, the subtitle file that
    [save_srt_file] writes splits at its newlines into four lines per
    segment, in order: the number, the timing, the text and an empty
    line. *)
Theorem srt_file_line_by_line res p w segs :
  default [] (segments res) = segs -> segs <> [] ->
  Forall segment_ok segs -> writable w p ->
  Forall (fun sg => Str.contains (Str.chr 10) (Str.strip (default "" (seg_text sg))) = false)
         segs ->
  exists w' c,
    Srt.save_srt_file res p w = (Ok tt, w') /\ files w' !! p = Some c /\
    Str.split (Str.chr 10) c = srt_file_lines 1 segs /\
    length (Str.split (Str.chr 10) c) = (4 * length segs)%nat.
Proof.
  intros Hs Hne Hok Hw Htext.
  rewrite (SrtFacts.save_srt_file_writable res p w segs Hs Hne Hok Hw).
  eexists. exists (srt_document segs). split; [reflexivity|].
  split; [cbn [files set_stdout set_files]; apply lookup_insert_eq|].
  assert (Hsplit : Str.split (Str.chr 10) (srt_document segs) = srt_file_lines 1 segs).
  { unfold srt_document. rewrite <- SrtLineFacts.join_file_lines.
    apply (PathFacts.split_join (Str.chr 10)).
    - destruct segs; [congruence|discriminate].
    - apply SrtLineFacts.file_lines_one_line; [lia|assumption|assumption]. }
  split; [exact Hsplit|]. rewrite Hsplit. apply SrtLineFacts.file_lines_length.
Qed.

Lemma srt_file_line_by_line_witness :
  let res := Transcription (Some "hello world") (Some example_segments) in
  let w := one_file "audio/a.mp3" in
  exists w' c,
    Srt.save_srt_file res "result/a.srt" w = (Ok tt, w') /\
    files w' !! "result/a.srt" = Some c /\
    Str.split (Str.chr 10) c = srt_file_lines 1 example_segments /\
    length (Str.split (Str.chr 10) c) = (4 * length example_segments)%nat.
Proof.
  apply (srt_file_line_by_line (Transcription (Some "hello world") (Some example_segments))
           "result/a.srt" (one_file "audio/a.mp3") example_segments).
  - reflexivity.
  - discriminate.
  - repeat constructor; vm_compute; reflexivity.
  - unfold writable. vm_compute. repeat split; try discriminate; intros H; inversion H.
  - repeat constructor.
Defined.

(** ** One job *)





(** X8: A text path without a directory part makes the job of either script
    fail after the model call: [os.makedirs('')] raises, so nothing is
    written and the audio file is not removed. *)
Theorem job_bare_output_name sc md i o l w res :
  Str.contains "/" o = false -> md i l w = Ok res ->
  exists w',
    job sc md i o l w = (Raise (OSError "[Errno 2] No such file or directory" ""), w') /\
    files w' = files w /\ dirs w' = dirs w /\
    transcribed w' = (transcribed w ++ [i])%list.
Proof.
  intros Ho Hmd. eexists. split.
  - rewrite job_split.
    destruct sc; cbn [outputs];
      unfold Srt.write_outputs, Txt.write_outputs, bind at 1, bind at 1, try_except,
             OS.transcribe; rewrite Hmd; unfold bind at 1; rewrite OSFacts.print_effect;
      unfold bind at 1, OS.makedirs; rewrite (dirname_bare o Ho); reflexivity.
  - split; [reflexivity|]. split; reflexivity.
Qed.

Lemma job_bare_output_name_witness :
  exists w',
    job TxtScript example_model "a.mp3" "a.txt" "ru" (one_file "a.mp3")
    = (Raise (OSError "[Errno 2] No such file or directory" ""), w') /\
    files w' = files (one_file "a.mp3") /\ dirs w' = dirs (one_file "a.mp3") /\
    transcribed w' = (transcribed (one_file "a.mp3") ++ ["a.mp3"])%list.
Proof.
  apply (job_bare_output_name TxtScript example_model "a.mp3" "a.txt" "ru" (one_file "a.mp3")
           (Transcription (Some (" hello" +:+ Str.newline +:+ "world "))
                          (Some example_segments))).
  - reflexivity.
  - reflexivity.
Defined.



(** X10: When the transcript is missing from the result, empty, or made of
    ASCII white space only, a job of either script that returns
    normally has written a text file holding a single newline. *)
Theorem blank_transcript sc md i o l w w' res :
  job sc md i o l w = (Ok tt, w') -> md i l w = Ok res ->
  all_space (default "" (text res)) = true ->
  o <> i -> (sc = SrtScript -> srt_path o <> o) ->
  files w' !! o = Some Str.newline.
Proof.
  intros Hjob Hmd Hblank Hoi Hsrt. rewrite job_split in Hjob. unfold bind in Hjob.
  destruct (outputs sc md i o l w) as [[[]|e] w1] eqn:Hout; [|discriminate].
  destruct (outputs_text _ _ _ _ _ _ _ Hout Hsrt) as (res' & Hmd' & Hf).
  assert (res' = res) by congruence. subst res'.
  unfold text_document in Hf. fold (normalized (default "" (text res))) in Hf.
  rewrite (BlankFacts.normalized_blank _ Hblank) in Hf.
  destruct (delete_input_files _ _ _ _ Hjob) as (_ & [Hdel|Hdel]); rewrite Hdel.
  - exact Hf.
  - rewrite lookup_delete_ne by (intros Heq; apply Hoi; symmetry; exact Heq). exact Hf.
Qed.

Lemma blank_transcript_witness :
  let w := one_file "audio/a.mp3" in
  files (snd (job TxtScript silent_model "audio/a.mp3" "result/a.txt" "ru" w))
    !! "result/a.txt" = Some Str.newline.
Proof.
  apply (blank_transcript TxtScript silent_model "audio/a.mp3" "result/a.txt" "ru"
           (one_file "audio/a.mp3") _
           (Transcription (Some (" " +:+ Str.newline +:+ " ")) None)).
  - vm_compute. reflexivity.
  - reflexivity.
  - reflexivity.
  - discriminate.
  - discriminate.
Defined.



(** ** The driver *)

(** X12: When the model cannot be loaded the driver raises the loader's
    exception after its first two lines, before it walks the input
    folder: no file, no directory and no model call. *)
Theorem batch_load_failure sc E inf outf l w e :
  load_model E "medium" (device E) = Raise e ->
  exists w',
    batch_transcribe sc E inf outf l w = (Raise e, w') /\
    files w' = files w /\ dirs w' = dirs w /\ transcribed w' = transcribed w /\
    stdout w' = (stdout w ++ [device_line E; "Загрузка модели Whisper..."])%list.
Proof.
  intros H. rewrite batch_transcribe_run, H. eexists. split; [reflexivity|].
  cbn [files dirs transcribed stdout set_stdout]. rewrite <- app_assoc.
  repeat split.
Qed.

Lemma batch_load_failure_witness :
  let w := one_file "audio/sub/a.mp3" in
  exists w',
    batch_transcribe SrtScript broken_env "audio" "result" "ru" w
    = (Raise (Exception "checkpoint not found"), w') /\
    files w' = files w /\ dirs w' = dirs w /\ transcribed w' = transcribed w /\
    stdout w' = (stdout w ++ [device_line broken_env; "Загрузка модели Whisper..."])%list.
Proof.
  apply (batch_load_failure SrtScript broken_env "audio" "result" "ru"
           (one_file "audio/sub/a.mp3") (Exception "checkpoint not found")).
  reflexivity.
Defined.

(** X13: When no file of the walk passes the filter (the folder is missing,
    empty, or holds no [.mp3] name) the driver prints its four lines and
    returns normally without a model call and without touching the disk. *)
Theorem batch_nothing_selected sc E inf outf l w md :
  load_model E "medium" (device E) = Ok md -> selected E inf = [] ->
  exists w',
    batch_transcribe sc E inf outf l w = (Ok tt, w') /\
    files w' = files w /\ dirs w' = dirs w /\ transcribed w' = transcribed w /\
    stdout w' = (stdout w ++ [device_line E; "Загрузка модели Whisper...";
                              "Модель загружена." +:+ Str.newline;
                              "Пакетная транскрипция завершена."])%list.
Proof.
  intros H Hsel. rewrite batch_transcribe_run, H. unfold bind.
  rewrite (walk_loop_skips sc E md inf outf l _ _ Hsel), OSFacts.print_effect.
  eexists. split; [reflexivity|].
  cbn [files dirs transcribed stdout set_stdout]. rewrite <- !app_assoc.
  repeat split.
Qed.

Lemma batch_nothing_selected_witness :
  let w := one_file "notes/readme.txt" in
  let E := bare_env example_model in
  exists w',
    batch_transcribe TxtScript E "audio" "result" "ru" w = (Ok tt, w') /\
    files w' = files w /\ dirs w' = dirs w /\ transcribed w' = transcribed w /\
    stdout w' = (stdout w ++ [device_line E; "Загрузка модели Whisper...";
                              "Модель загружена." +:+ Str.newline;
                              "Пакетная транскрипция завершена."])%list.
Proof.
  apply (batch_nothing_selected TxtScript (bare_env example_model) "audio" "result" "ru"
           (one_file "notes/readme.txt") example_model).
  - reflexivity.
  - reflexivity.
Defined.



(** X15: No run of either driver writes to a path that ends in [.mp3] (in
    any mix of cases): whatever the folders given, such a file is
    afterwards either gone or exactly what it was. *)
Theorem batch_spares_audio sc E inf outf l w p :
  matches_filter p = true ->
  files (snd (batch_transcribe sc E inf outf l w)) !! p = None \/
  files (snd (batch_transcribe sc E inf outf l w)) !! p = files w !! p.
Proof. intros H. apply (spares_batch sc E inf outf l w p H). Qed.

Lemma batch_spares_audio_witness :
  let w := World {["audio/b.MP3" := "RIFF"; "audio/sub/a.mp3" := "RIFF"]} ∅ {["audio/b.MP3"]}
                 [] [] in
  let run := batch_transcribe SrtScript (example_env example_model) "audio" "audio" "ru" w in
  files (snd run) !! "audio/b.MP3" = None \/
  files (snd run) !! "audio/b.MP3" = files w !! "audio/b.MP3".
Proof.
  apply (batch_spares_audio SrtScript (example_env example_model) "audio" "audio" "ru").
  vm_compute. reflexivity.
Defined.



(** ** The scripts run from the command line *)


